(** * Robomoustachio: payment-access resolution and risk classification

    A shallow embedding of the payment middleware
    ([paymentMiddleware.js]: route table, payment headers, gateway
    selection, stub enforcement) and of the API server ([server.js]:
    access resolver, risk report, verdict, the [/score] and [/report]
    handlers), followed by the properties the specification states
    about them.

    Conventions of the embedding.
    - JavaScript strings are [string]s over ASCII; [toLowerCase],
      [toUpperCase] and [trim] are the ASCII restrictions of the
      JavaScript methods.
    - [process.env] is a lookup function returning [None] for an unset
      variable ([undefined]).
    - A thrown exception is the [Throw] case of [result]; the mutable
      [res.locals.paymentStatus] is threaded explicitly.
    - JavaScript Numbers are IEEE-754 binary64 values ([spec_float] with
      [prec = 53], [emax = 1024]); BigInts are [Z]. *)

From Stdlib Require Import Bool List String Ascii ZArith Lia.
From Stdlib Require Import QArith Qpower Qround Lqa.
From Stdlib Require Import Floats.SpecFloat.
Import ListNotations.

Open Scope string_scope.

(* ===================================================================== *)
(** * JavaScript strings (ASCII) *)
(* ===================================================================== *)

Module JsString.

Definition is_upper (c : ascii) : bool :=
  let n := nat_of_ascii c in (65 <=? n)%nat && (n <=? 90)%nat.

Definition is_lower (c : ascii) : bool :=
  let n := nat_of_ascii c in (97 <=? n)%nat && (n <=? 122)%nat.

Definition is_digit (c : ascii) : bool :=
  let n := nat_of_ascii c in (48 <=? n)%nat && (n <=? 57)%nat.

Definition lower_char (c : ascii) : ascii :=
  if is_upper c then ascii_of_nat (nat_of_ascii c + 32) else c.

Definition upper_char (c : ascii) : ascii :=
  if is_lower c then ascii_of_nat (nat_of_ascii c - 32) else c.

Fixpoint map_chars (f : ascii -> ascii) (s : string) : string :=
  match s with
  | EmptyString => EmptyString
  | String c r => String (f c) (map_chars f r)
  end.

(** [s.toLowerCase()] and [s.toUpperCase()]. *)
Definition toLowerCase : string -> string := map_chars lower_char.
Definition toUpperCase : string -> string := map_chars upper_char.

(** White space removed by [trim]: TAB, LF, VT, FF, CR and SPACE. *)
Definition is_space (c : ascii) : bool :=
  let n := nat_of_ascii c in
  ((9 <=? n)%nat && (n <=? 13)%nat) || (n =? 32)%nat.

Fixpoint trimStart (s : string) : string :=
  match s with
  | String c r => if is_space c then trimStart r else s
  | EmptyString => EmptyString
  end.

Fixpoint trimEnd (s : string) : string :=
  match s with
  | EmptyString => EmptyString
  | String c r =>
      match trimEnd r with
      | EmptyString => if is_space c then EmptyString else String c EmptyString
      | r' => String c r'
      end
  end.

(** [s.trim()]. *)
Definition trim (s : string) : string := trimEnd (trimStart s).

(** [s.startsWith(p)]. *)
Definition startsWith (p s : string) : bool := String.prefix p s.

(** [[...].includes(s)] on an array of strings. *)
Definition includes (l : list string) (s : string) : bool :=
  existsb (String.eqb s) l.

(** JavaScript truthiness of a string: only the empty string is falsy. *)
Definition truthy (s : string) : bool := negb (String.eqb s "").

(** [s.split(sep)] for a one-character separator. *)
Fixpoint split (sep : ascii) (s : string) : list string :=
  match s with
  | EmptyString => [EmptyString]
  | String c r =>
      if Ascii.eqb c sep then EmptyString :: split sep r
      else match split sep r with
           | [] => [String c EmptyString]
           | h :: t => String c h :: t
           end
  end.

(** [parts.join(sep)]. *)
Fixpoint join (sep : string) (parts : list string) : string :=
  match parts with
  | [] => EmptyString
  | [p] => p
  | p :: rest => p ++ sep ++ join sep rest
  end.

End JsString.

(* ===================================================================== *)
(** * Loosely typed values read from options and the environment *)
(* ===================================================================== *)

(** The values [toBoolean] distinguishes: a boolean, a string, and
    everything else ([undefined], numbers, objects). *)
Inductive js_flag :=
| FBool (b : bool)
| FStr (s : string)
| FOther.

(** [process.env]: every variable is a string or unset. *)
Definition Env := string -> option string.

Definition flag_of_env (v : option string) : js_flag :=
  match v with
  | Some s => FStr s
  | None => FOther
  end.

(** [toBoolean(value, fallback)], identical in both source files. *)
Definition toBoolean (value : js_flag) (fallback : bool) : bool :=
  match value with
  | FBool b => b
  | FOther => fallback
  | FStr s =>
      let normalized := JsString.toLowerCase (JsString.trim s) in
      if JsString.includes ["1"; "true"; "yes"; "on"] normalized then true
      else if JsString.includes ["0"; "false"; "no"; "off"] normalized then false
      else fallback
  end.

(** [a || b] on an optional string: [undefined] and [""] are falsy. *)
Definition or_else (a : option string) (b : string) : string :=
  match a with
  | Some s => if JsString.truthy s then s else b
  | None => b
  end.


(* ===================================================================== *)
(** * Exceptions *)
(* ===================================================================== *)

(** A computation that returns a value or throws [new Error(message)]. *)
Inductive result (A : Type) :=
| Ok (a : A)
| Throw (message : string).

Arguments Ok {A} a.
Arguments Throw {A} message.

Definition bind {A B : Type} (r : result A) (k : A -> result B) : result B :=
  match r with
  | Ok a => k a
  | Throw m => Throw m
  end.

Notation "'do' x <- r ; k" := (bind r (fun x => k))
  (at level 10, x name, r at level 100, k at level 200).

Definition throws {A : Type} (r : result A) : bool :=
  match r with
  | Ok _ => false
  | Throw _ => true
  end.

(* ===================================================================== *)
(** * Requests and payment headers ([paymentMiddleware.js]) *)
(* ===================================================================== *)

(** A header value as Node delivers it: a string, or an array of strings
    for a repeated header. *)
Inductive header_value :=
| HString (s : string)
| HArray (items : list string).

(** The part of an Express request the core reads: [req.method],
    [req.path], [req.headers] (in [Object.entries] order) and
    [req.query.demo] ([None] when the query has no [demo] key). *)
Record Request := {
  req_method : string;
  req_path : string;
  req_headers : list (string * header_value);
  req_query_demo : option string
}.

(** A JavaScript object with string values, in insertion order. *)
Definition js_object := list (string * string).

(** [obj[key]]: [None] is [undefined]. *)
Fixpoint obj_get (o : js_object) (key : string) : option string :=
  match o with
  | [] => None
  | (k, v) :: rest => if String.eqb k key then Some v else obj_get rest key
  end.

(** [obj[key] = value]: overwrite in place, or append a new property. *)
Fixpoint obj_set (o : js_object) (key value : string) : js_object :=
  match o with
  | [] => [(key, value)]
  | (k, v) :: rest =>
      if String.eqb k key then (k, value) :: rest
      else (k, v) :: obj_set rest key value
  end.

(** [Array.isArray(value) ? value.join(",") : String(value)]. *)
Definition header_text (v : header_value) : string :=
  match v with
  | HString s => s
  | HArray items => JsString.join "," items
  end.

Definition is_payment_header (lower : string) : bool :=
  JsString.startsWith "x-payment" lower
  || JsString.startsWith "x402" lower
  || String.eqb lower "payment"
  || String.eqb lower "authorization".

(** The loop of [extractPaymentHeaders], from an accumulator. *)
Fixpoint extract_loop (entries : list (string * header_value))
    (relevant : js_object) : js_object :=
  match entries with
  | [] => relevant
  | (key, value) :: rest =>
      let lower := JsString.toLowerCase key in
      if is_payment_header lower
      then extract_loop rest (obj_set relevant lower (header_text value))
      else extract_loop rest relevant
  end.

Definition extractPaymentHeaders (req : Request) : js_object :=
  extract_loop (req_headers req) [].

(** Truthiness of [headers[key]]: defined and not the empty string. *)
Definition prop_truthy (headers : js_object) (key : string) : bool :=
  match obj_get headers key with
  | Some v => JsString.truthy v
  | None => false
  end.

Definition hasPaymentProof (headers : js_object) : bool :=
  let status :=
    JsString.toLowerCase
      (match obj_get headers "x-payment-status" with
       | Some v => if JsString.truthy v then v else ""
       | None => ""
       end) in
  prop_truthy headers "x-payment"
  || prop_truthy headers "x-payment-proof"
  || prop_truthy headers "x402-payment"
  || prop_truthy headers "x402-proof"
  || prop_truthy headers "authorization"
  || String.eqb status "paid".


(* ===================================================================== *)
(** * Route table ([paymentMiddleware.js]) *)
(* ===================================================================== *)

(** ** Regular expressions built by [routeToRegex]

    The expression is built in three steps, each modelled on its own:
    the route path is escaped, every [:name] is replaced by the text
    [[^/]+], and [new RegExp] compiles the result between [^] and [$]. *)

(** The class [[.*+?^${}()|[\]\\]]. *)
Definition is_regex_special (c : ascii) : bool :=
  existsb (Ascii.eqb c)
    ["."; "*"; "+"; "?"; "^"; "$"; "{"; "}"; "("; ")"; "|"; "["; "]"; "\"]%char.

(** [s.replace(/[.*+?^${}()|[\]\\]/g, "\\$&")]. *)
Fixpoint escapeRegExp (s : string) : string :=
  match s with
  | EmptyString => EmptyString
  | String c r =>
      if is_regex_special c then String "\" (String c (escapeRegExp r))
      else String c (escapeRegExp r)
  end.

(** The class [[A-Za-z0-9_]]. *)
Definition is_name_char (c : ascii) : bool :=
  JsString.is_upper c || JsString.is_lower c || JsString.is_digit c
  || Ascii.eqb c "_".

Definition starts_with_name (s : string) : bool :=
  match s with
  | String c _ => is_name_char c
  | EmptyString => false
  end.

(** [s.replace(/:([A-Za-z0-9_]+)/g, fill(name))], scanning left to right;
    [in_name] holds the characters of the name being consumed, which
    [fill] receives when the name ends. *)
Fixpoint replace_names (fill : string -> string) (in_name : option string)
    (s : string) : string :=
  match s with
  | EmptyString =>
      match in_name with
      | Some acc => fill acc
      | None => EmptyString
      end
  | String c r =>
      match in_name with
      | Some acc =>
          if is_name_char c
          then replace_names fill (Some (acc ++ String c EmptyString)) r
          else fill acc ++
               (if Ascii.eqb c ":" && starts_with_name r
                then replace_names fill (Some EmptyString) r
                else String c (replace_names fill None r))
      | None =>
          if Ascii.eqb c ":" && starts_with_name r
          then replace_names fill (Some EmptyString) r
          else String c (replace_names fill None r)
      end
  end.

(** [s.replace(/:([A-Za-z0-9_]+)/g, "[^/]+")]. *)
Definition replacePlaceholders (s : string) : string :=
  replace_names (fun _ => "[^/]+") None s.

(** The compiled form of the expressions this file builds: a sequence
    of literal characters and of [[^/]+] items, anchored at both ends. *)
Inductive regex_item :=
| Lit (c : ascii)
| NotSlashPlus.

Definition regex := list regex_item.

Definition option_cons {A : Type} (a : A) (o : option (list A)) : option (list A) :=
  match o with
  | Some l => Some (a :: l)
  | None => None
  end.

(** The body of a pattern, up to the closing [$]: an escaped
    metacharacter is that character, [[^/]+] is the wildcard item, any
    other character stands for itself.  Syntax outside this fragment is
    [None]. *)
Fixpoint compile_body (s : string) : option regex :=
  match s with
  | EmptyString => None
  | String "$" EmptyString => Some []
  | String "\" (String c r) =>
      if is_regex_special c then option_cons (Lit c) (compile_body r) else None
  | String "[" (String "^" (String "/" (String "]" (String "+" r)))) =>
      option_cons NotSlashPlus (compile_body r)
  | String c r =>
      if is_regex_special c then None else option_cons (Lit c) (compile_body r)
  end.

(** [new RegExp(source)] for a source of the form [^...$]. *)
Definition RegExp_ (source : string) : option regex :=
  match source with
  | String "^" body => compile_body body
  | _ => None
  end.

Definition routeToRegex (routePath : string) : option regex :=
  RegExp_ ("^" ++ replacePlaceholders (escapeRegExp routePath) ++ "$").

(** [[^/]+] followed by the rest of the expression: one or more
    characters other than [/], then [k] on what is left. *)
Fixpoint not_slash_plus (k : string -> bool) (s : string) : bool :=
  match s with
  | EmptyString => false
  | String c r => negb (Ascii.eqb c "/") && (k r || not_slash_plus k r)
  end.

(** [regex.test(s)] for an anchored expression. *)
Fixpoint regex_test (re : regex) (s : string) : bool :=
  match re with
  | [] => String.eqb s ""
  | Lit c :: rest =>
      match s with
      | String d r => Ascii.eqb d c && regex_test rest r
      | EmptyString => false
      end
  | NotSlashPlus :: rest => not_slash_plus (regex_test rest) s
  end.


(* ===================================================================== *)
(** * JavaScript Numbers: IEEE-754 binary64 *)
(* ===================================================================== *)

Module JsNumber.

Definition prec : Z := 53.
Definition emax : Z := 1024.

(** A Number is a binary64 value; arithmetic is the correctly rounded
    (to nearest, ties to even) arithmetic of [SpecFloat]. *)
Definition number := spec_float.

Definition NaN : number := S754_nan.

(** [Number(z)] for a BigInt [z], and the value of an integer literal. *)
Definition of_Z (z : Z) : number := binary_normalize prec emax z 0 false.

Definition div (x y : number) : number := SFdiv prec emax x y.
Definition mul (x y : number) : number := SFmul prec emax x y.
Definition sub (x y : number) : number := SFsub prec emax x y.

(** The real value of a finite Number. *)
Definition finite_value (s : bool) (m : positive) (e : Z) : Q :=
  let mag :=
    match e with
    | Z0 => Zpos m # 1
    | Zpos p => Zpos (m * 2 ^ p) # 1
    | Zneg p => Zpos m # (2 ^ p)
    end in
  if s then Qopp mag else mag.

(** Extended reals: what comparisons compare. *)
Inductive ext_value :=
| NegInf
| Fin (q : Q)
| PosInf.

Definition value (x : number) : option ext_value :=
  match x with
  | S754_nan => None
  | S754_zero _ => Some (Fin 0)
  | S754_infinity s => Some (if s then NegInf else PosInf)
  | S754_finite s m e => Some (Fin (finite_value s m e))
  end.

Definition ext_compare (a b : ext_value) : comparison :=
  match a, b with
  | NegInf, NegInf => Eq
  | NegInf, _ => Lt
  | _, NegInf => Gt
  | PosInf, PosInf => Eq
  | PosInf, _ => Gt
  | _, PosInf => Lt
  | Fin p, Fin q => Qcompare p q
  end.

(** Comparison of two Numbers; [None] when either is NaN. *)
Definition compare (x y : number) : option comparison :=
  match value x, value y with
  | Some a, Some b => Some (ext_compare a b)
  | _, _ => None
  end.

(** [x < y], [x > y], [x <= y], [x >= y] and [x === y] on Numbers. *)
Definition lt (x y : number) : bool :=
  match compare x y with Some Lt => true | _ => false end.
Definition gt (x y : number) : bool := lt y x.
Definition le (x y : number) : bool :=
  match compare x y with Some (Lt | Eq) => true | _ => false end.
Definition ge (x y : number) : bool := le y x.
Definition eq (x y : number) : bool :=
  match compare x y with Some Eq => true | _ => false end.

Definition is_nan (x : number) : bool :=
  match x with S754_nan => true | _ => false end.

(** Truthiness: every Number but [0], [-0] and [NaN]. *)
Definition truthy (x : number) : bool :=
  match x with
  | S754_nan | S754_zero _ => false
  | _ => true
  end.

Definition sign_bit (x : number) : bool :=
  match x with
  | S754_zero s | S754_infinity s | S754_finite s _ _ => s
  | S754_nan => false
  end.

(** [Math.min(x, y)]: NaN if either is; [-0] is below [+0]. *)
Definition min (x y : number) : number :=
  match compare x y with
  | None => NaN
  | Some Lt => x
  | Some Gt => y
  | Some Eq => if sign_bit x then x else y
  end.

(** [Math.max(x, y)]: NaN if either is; [+0] is above [-0]. *)
Definition max (x y : number) : number :=
  match compare x y with
  | None => NaN
  | Some Lt => y
  | Some Gt => x
  | Some Eq => if sign_bit x then y else x
  end.

(** An integer as a Number, keeping the sign of the argument it was
    rounded from when the integer is zero. *)
Definition of_rounded (sign : bool) (n : Z) : number :=
  if (n =? 0)%Z then S754_zero sign else of_Z n.

(** [Math.floor(x)]. *)
Definition floor (x : number) : number :=
  match x with
  | S754_finite s m e => of_rounded s (Qfloor (finite_value s m e))
  | _ => x
  end.

(** [Math.round(x)]: the nearest integer, a tie going up. *)
Definition round (x : number) : number :=
  match x with
  | S754_finite s m e => of_rounded s (Qfloor (finite_value s m e + (1 # 2)))
  | _ => x
  end.

(** The Number nearest to [n / 10^digits]: what [Number(text)] returns
    for the decimal text of [n] with [digits] decimals. *)
Definition of_decimal (s : bool) (n : Z) (digits : positive) : number :=
  match n with
  | Zpos p => SFdiv prec emax (S754_finite s p 0) (S754_finite false (10 ^ digits) 0)
  | _ => S754_zero s
  end.

(** [Number(x.toFixed(4))]: the magnitude is rounded to four decimals,
    a tie going away from zero; from [1e21] on [toFixed] prints the
    Number itself. *)
Definition toFixed4 (x : number) : number :=
  match x with
  | S754_finite s m e =>
      let mag := finite_value false m e in
      if Qle_bool (inject_Z (10 ^ 21)) mag then x
      else of_decimal s (Qfloor (mag * inject_Z 10000 + (1 # 2))) 4
  | _ => x
  end.

(** The integer a Number holds, when it is an integer. *)
Definition to_Z (x : number) : option Z :=
  match x with
  | S754_zero _ => Some 0%Z
  | S754_finite s m e =>
      let q := finite_value s m e in
      if Qeq_bool q (inject_Z (Qfloor q)) then Some (Qfloor q) else None
  | _ => None
  end.

End JsNumber.


(* ===================================================================== *)
(** * Paid routes and gateway selection ([paymentMiddleware.js]) *)
(* ===================================================================== *)

(** The nested [config] object of a route entry. *)
Record NestedConfig := {
  nested_description : option string;
  nested_mimeType : option string;
  nested_resource : option string;
  nested_maxTimeoutSeconds : option Z
}.

(** One value of the route configuration object. *)
Record RouteConfig := {
  price : string;
  network : option string;
  description : option string;
  mimeType : option string;
  resource : option string;
  maxTimeoutSeconds : option Z;
  config : option NestedConfig
}.

(** An entry of [buildPaidRoutes]: the key, the upper-cased verb, the
    path, its compiled expression and the entry's configuration. *)
Record PaidRoute := {
  route_key : string;
  route_method : string;
  route_path : string;
  route_regex : regex;
  route_config : RouteConfig
}.

(** One entry of the object handed to [x402-express]. *)
Record X402Route := {
  x402_price : string;
  x402_network : string;
  x402_config : NestedConfig
}.

(** A response of the stub middleware or of a route handler, by shape;
    [Rejected] is what the parameter validator sends and [External]
    whatever the [x402-express] middleware sends. *)
Record Report := {
  confidence : JsNumber.number;
  negativeRateBps : JsNumber.number;
  flagged : bool;
  riskFactors : list string;
  recentTrend : string
}.

Inductive Response :=
| StubChallenge (route price_ network_ description_ : string)
| Challenge (route price_ network_ details : string)
| NotConfigured
| DemoScore (agentId : Z) (score : option JsNumber.number)
    (verdict confidenceBand note : string)
| DemoReport (agentId : Z) (score : option JsNumber.number)
    (verdict confidenceBand : string) (flagged_ : bool) (note : string)
| FullScore (agentId : Z) (score confidence_ : JsNumber.number) (lastUpdated : Z)
| FullReport (agentId : Z) (score : JsNumber.number) (analytics : Report)
    (totalFeedback positiveFeedback lastUpdated : Z)
| NotFound (error : string) (agentId : Z)
| InternalError (statusCode : Z) (details : string)
| Rejected (status : Z) (body : string)
| External (status : Z) (body : string).

(** The payment challenges of this server: the stub middleware's and
    the route handlers'. *)
Definition is_payment_challenge (r : Response) : bool :=
  match r with
  | StubChallenge _ _ _ _ | Challenge _ _ _ _ => true
  | _ => false
  end.

Definition is_demo_payload (r : Response) : bool :=
  match r with
  | DemoScore _ _ _ _ _ | DemoReport _ _ _ _ _ _ => true
  | _ => false
  end.

(** The HTTP status of each response. *)
Definition status_of (r : Response) : Z :=
  match r with
  | StubChallenge _ _ _ _ | Challenge _ _ _ _ => 402
  | NotConfigured => 503
  | NotFound _ _ => 404
  | InternalError statusCode _ => statusCode
  | Rejected status _ | External status _ => status
  | _ => 200
  end.

(** What a middleware does with a request: respond, or call [next()]
    (for the stub after setting [res.locals.paymentStatus]). *)
Inductive MiddlewareOutcome :=
| Respond (response : Response) (paymentStatus : option string)
| Next (paymentStatus : option string).

(** The [middleware] field of the gateway state: the stub closure over
    its route table and enforcement flag, or the external function. *)
Inductive Middleware :=
| StubMiddleware (paidRoutes : list PaidRoute) (enforceStubPayment : bool)
| RealMiddleware (run : Request -> option Response).

(** The object returned by [createPaymentMiddleware]. *)
Record Payment := {
  mode : string;
  usingRealMiddleware : bool;
  fallbackFromReal : bool;
  reason : string;
  middleware : Middleware;
  payToAddress : option string
}.

(** The packages [createRealPaymentMiddleware] loads.  [require] may
    throw; the [paymentMiddleware] export may be missing ([None]); a call
    of it may throw or return something that is no function ([None]). *)
Record PaywallConfig := {
  cdpClientKey : option string;
  appName : option string;
  appLogo : option string;
  sessionTokenEndpoint : option string
}.

Record X402Express := {
  paymentMiddleware :
    option (string -> list (string * X402Route) -> string ->
            option PaywallConfig ->
            result (option (Request -> option Response)))
}.

Record CoinbaseX402 := {
  createFacilitatorConfig : string -> string -> result string;
  facilitator : string
}.

Record Packages := {
  require_x402_express : result X402Express;
  require_coinbase_x402 : result CoinbaseX402
}.

(** The options of [createPaymentMiddleware]. *)
Record Options := {
  opt_mode : option string;
  opt_routeConfig : list (string * RouteConfig);
  opt_enforceStubPayment : js_flag;
  opt_payTo : option string;
  opt_env : Env
}.

Definition is_hex (c : ascii) : bool :=
  JsString.is_digit c
  || (let n := nat_of_ascii c in
      ((65 <=? n)%nat && (n <=? 70)%nat) || ((97 <=? n)%nat && (n <=? 102)%nat)).

Fixpoint all_chars (p : ascii -> bool) (s : string) : bool :=
  match s with
  | EmptyString => true
  | String c r => p c && all_chars p r
  end.

(** [/^0x[a-fA-F0-9]{40}$/.test(String(address || ""))]. *)
Definition isValidEvmAddress (address : option string) : bool :=
  match or_else address "" with
  | String "0" (String "x" digits) =>
      all_chars is_hex digits && (String.length digits =? 40)%nat
  | _ => false
  end.

Fixpoint first_valid (candidates : list (option string)) : option string :=
  match candidates with
  | [] => None
  | candidate :: rest =>
      if isValidEvmAddress candidate then candidate else first_valid rest
  end.

Definition resolvePayToAddress (options : Options) (env : Env) : result string :=
  let candidates :=
    [ opt_payTo options;
      env "X402_PAY_TO";
      env "X402_RECEIVER_ADDRESS";
      env "DEPLOYER_ADDRESS";
      env "UPDATER_ADDRESS" ] in
  match first_valid candidates with
  | Some candidate => Ok candidate
  | None =>
      Throw "Missing pay-to address for x402 middleware. Set X402_PAY_TO (or X402_RECEIVER_ADDRESS / DEPLOYER_ADDRESS)."
  end.

(** [value.includes("\\n") ? value.replace(/\\n/g, "\n") : value]: every
    backslash followed by [n] becomes a line feed. *)
Fixpoint normalizePrivateKeyValue (value : string) : string :=
  match value with
  | String "\" (String "n" r) => String "010" (normalizePrivateKeyValue r)
  | String c r => String c (normalizePrivateKeyValue r)
  | EmptyString => EmptyString
  end.

Definition resolveFacilitatorConfig (pkgs : Packages) (env : Env) : result string :=
  do coinbase <- require_coinbase_x402 pkgs;
  let apiKeyId := or_else (env "CDP_API_KEY_ID") (or_else (env "CDP_API_KEY_NAME") "") in
  let apiKeySecret :=
    normalizePrivateKeyValue
      (or_else (env "CDP_API_KEY_SECRET") (or_else (env "CDP_API_KEY_PRIVATE") "")) in
  if JsString.truthy apiKeyId && JsString.truthy apiKeySecret
  then createFacilitatorConfig coinbase apiKeyId apiKeySecret
  else Ok (facilitator coinbase).

(** A property set only when the variable is truthy. *)
Definition env_truthy (v : option string) : option string :=
  match v with
  | Some s => if JsString.truthy s then Some s else None
  | None => None
  end.

Definition resolvePaywallConfig (env : Env) : option PaywallConfig :=
  let paywallConfig :=
    {| cdpClientKey := env_truthy (env "CDP_CLIENT_API_KEY");
       appName := env_truthy (env "X402_PAYWALL_APP_NAME");
       appLogo := env_truthy (env "X402_PAYWALL_APP_LOGO");
       sessionTokenEndpoint := env_truthy (env "X402_PAYWALL_SESSION_TOKEN_ENDPOINT") |} in
  match cdpClientKey paywallConfig, appName paywallConfig,
        appLogo paywallConfig, sessionTokenEndpoint paywallConfig with
  | None, None, None, None => None
  | _, _, _, _ => Some paywallConfig
  end.

(** [const [method, ...pathParts] = key.trim().split(" ")] and
    [pathParts.join(" ").trim()]. *)
Definition key_method (key : string) : string :=
  match JsString.split " " (JsString.trim key) with
  | method :: _ => method
  | [] => EmptyString
  end.

Definition key_path (key : string) : string :=
  JsString.trim (JsString.join " " (tl (JsString.split " " (JsString.trim key)))).

(** [routePath.replace(/:([A-Za-z0-9_]+)/g, "[$1]")]. *)
Definition toX402RoutePath (routePath : string) : string :=
  replace_names (fun name => "[" ++ name ++ "]") None routePath.

(** A string property that is set and truthy. *)
Definition some_truthy (v : option string) : bool :=
  match v with
  | Some s => JsString.truthy s
  | None => false
  end.

(** [if (outer && !inner) inner = outer]. *)
Definition inherit (outer inner : option string) : option string :=
  if some_truthy outer && negb (some_truthy inner) then outer else inner.

Definition inherit_Z (outer inner : option Z) : option Z :=
  match outer, inner with
  | Some o, Some i => if negb (o =? 0)%Z && (i =? 0)%Z then outer else inner
  | Some o, None => if negb (o =? 0)%Z then outer else inner
  | None, _ => inner
  end.

(** An assignment [mapped[key] = value] on an object in insertion order. *)
Fixpoint assign {V : Type} (o : list (string * V)) (key : string) (value : V)
    : list (string * V) :=
  match o with
  | [] => [(key, value)]
  | (k, v) :: rest =>
      if String.eqb k key then (k, value) :: rest
      else (k, v) :: assign rest key value
  end.

Section RouteTable.

(** [formatUsdPrice] of [registration.js], which is outside the sources
    at hand: the embedding is parametric in it. *)
Variable formatUsdPrice : string -> string.

(** One entry of [buildPaidRoutes]; [new RegExp] throws a [SyntaxError]
    on a source it cannot compile. *)
Definition buildPaidRoute (entry : string * RouteConfig) : result PaidRoute :=
  let '(key, cfg) := entry in
  let routePath := key_path key in
  match routeToRegex routePath with
  | None => Throw "Invalid regular expression"
  | Some re =>
      Ok {| route_key := key;
            route_method := JsString.toUpperCase (key_method key);
            route_path := routePath;
            route_regex := re;
            route_config :=
              {| price := formatUsdPrice (price cfg);
                 network := network cfg;
                 description := description cfg;
                 mimeType := mimeType cfg;
                 resource := resource cfg;
                 maxTimeoutSeconds := maxTimeoutSeconds cfg;
                 config := config cfg |} |}
  end.

Fixpoint buildPaidRoutes (routeConfig : list (string * RouteConfig))
    : result (list PaidRoute) :=
  match routeConfig with
  | [] => Ok []
  | entry :: rest =>
      do route <- buildPaidRoute entry;
      do routes <- buildPaidRoutes rest;
      Ok (route :: routes)
  end.

(** [paidRoutes.find(route => route.method === method && route.regex.test(pathname))]. *)
Definition matchPaidRoute (req : Request) (paidRoutes : list PaidRoute)
    : option PaidRoute :=
  let method := JsString.toUpperCase (req_method req) in
  let pathname := req_path req in
  find (fun route =>
          String.eqb (route_method route) method
          && regex_test (route_regex route) pathname)
       paidRoutes.

Definition empty_nested : NestedConfig :=
  {| nested_description := None; nested_mimeType := None;
     nested_resource := None; nested_maxTimeoutSeconds := None |}.

Fixpoint x402_loop (entries : list (string * RouteConfig))
    (mapped : list (string * X402Route)) : list (string * X402Route) :=
  match entries with
  | [] => mapped
  | (key, routeLevelConfig) :: rest =>
      let method := JsString.toUpperCase (key_method key) in
      let routePath := key_path key in
      if negb (JsString.truthy method) || negb (JsString.truthy routePath)
      then x402_loop rest mapped
      else
        let nested :=
          match config routeLevelConfig with
          | Some n => n
          | None => empty_nested
          end in
        let nestedConfig :=
          {| nested_description :=
               inherit (description routeLevelConfig) (nested_description nested);
             nested_mimeType :=
               inherit (mimeType routeLevelConfig) (nested_mimeType nested);
             nested_resource :=
               inherit (resource routeLevelConfig) (nested_resource nested);
             nested_maxTimeoutSeconds :=
               inherit_Z (maxTimeoutSeconds routeLevelConfig)
                         (nested_maxTimeoutSeconds nested) |} in
        x402_loop rest
          (assign mapped (method ++ " " ++ toX402RoutePath routePath)
             {| x402_price := formatUsdPrice (price routeLevelConfig);
                x402_network := or_else (network routeLevelConfig) "base";
                x402_config := nestedConfig |})
  end.

Definition buildX402RouteConfig (routeConfig : list (string * RouteConfig))
    : list (string * X402Route) :=
  x402_loop routeConfig [].

(** The closure [stubPaymentMiddleware(req, res, next)]; [status] is
    [res.locals.paymentStatus] on entry. *)
Definition stubPaymentMiddleware (paidRoutes : list PaidRoute)
    (enforceStubPayment : bool) (req : Request) (status : option string)
    : MiddlewareOutcome :=
  match matchPaidRoute req paidRoutes with
  | None =>
      Next (if some_truthy status then status else Some "free")
  | Some matchedRoute =>
      let paymentHeaders := extractPaymentHeaders req in
      let paid := hasPaymentProof paymentHeaders in
      let status' := Some (if paid then "paid_stub" else "unpaid_stub") in
      if negb paid && enforceStubPayment
      then Respond
             (StubChallenge
                (route_key matchedRoute)
                (price (route_config matchedRoute))
                (or_else (network (route_config matchedRoute)) "base")
                (or_else (description (route_config matchedRoute)) ""))
             status'
      else Next status'
  end.

Definition createStubPaymentMiddleware (options : Options) : result Payment :=
  do paidRoutes <- buildPaidRoutes (opt_routeConfig options);
  let enforceStubPayment := toBoolean (opt_enforceStubPayment options) false in
  Ok {| mode := "stub";
        usingRealMiddleware := false;
        fallbackFromReal := false;
        reason := "Using local x402 stub middleware";
        middleware := StubMiddleware paidRoutes enforceStubPayment;
        payToAddress := None |}.

Definition createRealPaymentMiddleware (pkgs : Packages) (options : Options)
    (env : Env) : result Payment :=
  do express <- require_x402_express pkgs;
  match paymentMiddleware express with
  | None => Throw "x402-express.paymentMiddleware export was not found"
  | Some paymentMiddleware_ =>
      let x402RouteConfig := buildX402RouteConfig (opt_routeConfig options) in
      do payTo <- resolvePayToAddress options env;
      do facilitatorConfig <- resolveFacilitatorConfig pkgs env;
      let paywallConfig := resolvePaywallConfig env in
      do made <- paymentMiddleware_ payTo x402RouteConfig facilitatorConfig paywallConfig;
      match made with
      | None => Throw "x402-express did not return a middleware function"
      | Some run =>
          Ok {| mode := "real";
                usingRealMiddleware := true;
                fallbackFromReal := false;
                reason := "Using x402-express middleware with Coinbase facilitator";
                middleware := RealMiddleware run;
                payToAddress := Some payTo |}
      end
  end.

(** [String(options.mode || env.X402_MODE || "auto").toLowerCase()]. *)
Definition selected_mode (options : Options) : string :=
  JsString.toLowerCase
    (or_else (opt_mode options) (or_else (opt_env options "X402_MODE") "auto")).

Definition createPaymentMiddleware (pkgs : Packages) (options : Options)
    : result Payment :=
  let env := opt_env options in
  let mode_ := selected_mode options in
  let shouldTryReal := String.eqb mode_ "real" || String.eqb mode_ "auto" in
  if shouldTryReal then
    match createRealPaymentMiddleware pkgs options env with
    | Ok payment => Ok payment
    | Throw message =>
        if String.eqb mode_ "real" then Throw message
        else
          do stub <- createStubPaymentMiddleware options;
          Ok {| mode := mode stub;
                usingRealMiddleware := usingRealMiddleware stub;
                fallbackFromReal := true;
                reason := "Fell back to stub middleware: " ++ message;
                middleware := middleware stub;
                payToAddress := payToAddress stub |}
    end
  else createStubPaymentMiddleware options.

End RouteTable.


(* ===================================================================== *)
(** * The API server ([server.js]) *)
(* ===================================================================== *)

(** The record [parseRecord] returns: four BigInts and a boolean. *)
Record FeedbackRecord := {
  score : Z;
  totalFeedback : Z;
  positiveFeedback : Z;
  lastUpdated : Z;
  exists_ : bool
}.

(** The scoring configuration; [loadScoringConfigFromEnv] of
    [scoring.js] is outside the sources at hand, both fields hold
    integers. *)
Record ScoringConfig := {
  confidenceThresholdFeedbackCount : Z;
  negativeFlagThresholdBps : Z
}.

(** A JavaScript value, as far as [typeof] tells values apart. *)
Inductive js_value :=
| JUndefined
| JNull
| JBoolean (b : bool)
| JNumber (n : JsNumber.number)
| JBigInt (z : Z)
| JString (s : string)
| JObject.

(** [buildRiskReport({ parsedRecord, scoringConfig, pollIntervalMs })];
    [nowMs] is the value of [Date.now()]. *)
Definition buildRiskReport (parsedRecord : FeedbackRecord)
    (scoringConfig : ScoringConfig) (pollIntervalMs : JsNumber.number)
    (nowMs : Z) : Report :=
  let total := totalFeedback parsedRecord in
  let positive := positiveFeedback parsedRecord in
  let negative := (total - positive)%Z in
  let confidenceThreshold := confidenceThresholdFeedbackCount scoringConfig in
  let confidence :=
    if (confidenceThreshold =? 0)%Z then JsNumber.of_Z 1
    else JsNumber.min (JsNumber.of_Z 1)
           (JsNumber.div (JsNumber.of_Z total)
              (JsNumber.of_Z (confidenceThresholdFeedbackCount scoringConfig))) in
  let negativeRateBps :=
    if (total =? 0)%Z then JsNumber.of_Z 0
    else JsNumber.round
           (JsNumber.mul
              (JsNumber.div (JsNumber.of_Z negative) (JsNumber.of_Z total))
              (JsNumber.of_Z 10000)) in
  let flagged :=
    (total >? 0)%Z
    && JsNumber.gt negativeRateBps
         (JsNumber.of_Z (negativeFlagThresholdBps scoringConfig)) in
  let riskFactors :=
    ((if (total <? confidenceThreshold)%Z then ["low_feedback_volume"] else [])
     ++ (if flagged then ["high_negative_feedback_ratio"] else [])
     ++ (if (score parsedRecord <? 500)%Z then ["low_trust_score"] else []))%list in
  let nowSeconds :=
    JsNumber.floor (JsNumber.div (JsNumber.of_Z nowMs) (JsNumber.of_Z 1000)) in
  let ageSeconds :=
    JsNumber.max (JsNumber.of_Z 0)
      (JsNumber.sub nowSeconds (JsNumber.of_Z (lastUpdated parsedRecord))) in
  let recentTrend :=
    if JsNumber.gt ageSeconds
         (JsNumber.mul (JsNumber.div pollIntervalMs (JsNumber.of_Z 1000))
            (JsNumber.of_Z 2))
    then "stale"
    else match riskFactors with
         | [] => "stable"
         | _ => "caution"
         end in
  {| confidence := JsNumber.toFixed4 confidence;
     negativeRateBps := negativeRateBps;
     flagged := flagged;
     riskFactors := riskFactors;
     recentTrend := recentTrend |}.

(** [String(req.query?.demo || "").trim().toLowerCase()] is one of the
    four affirmative words. *)
Definition isDemoRequest (req : Request) : bool :=
  let value :=
    JsString.toLowerCase (JsString.trim (or_else (req_query_demo req) "")) in
  JsString.includes ["1"; "true"; "yes"; "on"] value.

Definition resolveVerdict (score : js_value) : string :=
  match score with
  | JNumber n =>
      if JsNumber.is_nan n then "UNKNOWN"
      else if JsNumber.gt n (JsNumber.of_Z 700) then "TRUSTED"
      else if JsNumber.ge n (JsNumber.of_Z 400) then "CAUTION"
      else "DANGEROUS"
  | _ => "UNKNOWN"
  end.

Definition resolveConfidenceBand (totalFeedback : JsNumber.number) : string :=
  if JsNumber.ge totalFeedback (JsNumber.of_Z 50) then "high"
  else if JsNumber.gt totalFeedback (JsNumber.of_Z 0) then "low"
  else "none".

(** The object [resolvePaidRouteAccess] returns; an absent
    [paymentRequired] is [false], an absent [paymentReason] is [None]. *)
Record Access := {
  allowFullResponse : bool;
  allowDemoResponse : bool;
  paymentRequired : bool;
  paymentReason : option string
}.

Definition stub_fallback_reason : string :=
  "x402 middleware is running in stub fallback mode. Include an x402 payment header for full data, or add ?demo=true for a limited free response.".

(** [resolvePaidRouteAccess({ req, res, env, payment })]: the access
    object and [res.locals.paymentStatus] after the call ([status] is
    its value before). *)
Definition resolvePaidRouteAccess (req : Request) (status : option string)
    (env : Env) (payment : Payment) : Access * option string :=
  if usingRealMiddleware payment then
    ({| allowFullResponse := true; allowDemoResponse := false;
        paymentRequired := false; paymentReason := None |}, status)
  else
    let allowDemoQuery := toBoolean (flag_of_env (env "X402_ALLOW_DEMO_QUERY")) true in
    let shouldRequireHeader :=
      fallbackFromReal payment
      || toBoolean (flag_of_env (env "X402_STUB_ENFORCE")) false in
    let paid := hasPaymentProof (extractPaymentHeaders req) in
    if paid then
      ({| allowFullResponse := true; allowDemoResponse := false;
          paymentRequired := false; paymentReason := None |}, Some "paid_stub")
    else if allowDemoQuery && isDemoRequest req then
      ({| allowFullResponse := false; allowDemoResponse := true;
          paymentRequired := false; paymentReason := None |}, Some "demo_free")
    else if shouldRequireHeader then
      ({| allowFullResponse := false; allowDemoResponse := false;
          paymentRequired := true;
          paymentReason := Some stub_fallback_reason |}, status)
    else
      ({| allowFullResponse := true; allowDemoResponse := false;
          paymentRequired := false; paymentReason := None |}, status).

(** What [trustScoreReader.contract.getDetailedReport] does: it
    resolves to a record, is rejected with a call exception (the
    contract reverted: no score for the agent), or is rejected with
    another error. *)
Inductive ReadOutcome :=
| ReadOk (record : FeedbackRecord)
| ReadCallException
| ReadError (statusCode : option Z) (message : string).

(** What a request handler reads from outside: the clock and the ledger. *)
Record World := {
  nowMs : Z;
  getDetailedReport : Z -> ReadOutcome
}.

(** The values [createApp] closes its handlers over. *)
Record App := {
  app_env : Env;
  app_pollIntervalMs : JsNumber.number;
  app_scoringConfig : ScoringConfig;
  app_readerEnabled : bool;
  app_routePricing : list (string * RouteConfig);
  app_payment : Payment
}.

Inductive Endpoint :=
| ScoreEndpoint
| ReportEndpoint.

Definition demo_note : string :=
  "Demo response only. Provide an x402 payment header for the full paid payload.".

Definition no_history_note : string :=
  "No on-chain history yet. Demo response returned without payment.".

(** [Number.isInteger(x)]. *)
Definition isInteger (x : JsNumber.number) : bool :=
  match JsNumber.to_Z x with
  | Some _ => true
  | None => false
  end.

(** The error handler: [Number(error.statusCode) || 500]. *)
Definition error_response (statusCode : option Z) (message : string) : Response :=
  InternalError
    (match statusCode with
     | Some n => if (n =? 0)%Z then 500%Z else n
     | None => 500%Z
     end)
    (if JsString.truthy message then message else "Unknown error").

Definition route_lookup (routePricing : list (string * RouteConfig))
    (key : string) : option RouteConfig :=
  option_map snd (find (fun entry => String.eqb (fst entry) key) routePricing).

(** The 402 of a route handler. *)
Definition challenge (routePricing : list (string * RouteConfig))
    (key : string) (access : Access) : Response :=
  match route_lookup routePricing key with
  | Some cfg =>
      Challenge key (price cfg)
        (match network cfg with Some n => n | None => "" end)
        (match paymentReason access with Some r => r | None => "" end)
  | None => error_response None "Cannot read properties of undefined"
  end.

Section Server.

Variable formatUsdPrice : string -> string.

(** [Number(value)] on an environment variable, a primitive of the
    language that is not modelled: the embedding is parametric in it. *)
Variable Number_ : option string -> JsNumber.number.

(** [loadScoringConfigFromEnv] of [scoring.js] and [validateAgentIdParam]
    of [validation.js] are outside the sources at hand.  The validator
    either responds itself or sets [req.agentId]. *)
Variable loadScoringConfigFromEnv : Env -> ScoringConfig.
Variable validateAgentIdParam : Request -> (Z * string) + Z.

Definition toPositiveInt (value : option string) (fallback : JsNumber.number)
    : JsNumber.number :=
  let parsed := Number_ value in
  if isInteger parsed && JsNumber.gt parsed (JsNumber.of_Z 0) then parsed
  else fallback.

Definition buildRoutePricing (env : Env) : list (string * RouteConfig) :=
  [ ("GET /score/:agentId",
     {| price := formatUsdPrice (or_else (env "X402_SCORE_PRICE_USDC") "0.001");
        network := Some (or_else (env "X402_NETWORK") "base");
        description := Some "Agent trust score query";
        mimeType := None; resource := None; maxTimeoutSeconds := None;
        config := None |});
    ("GET /report/:agentId",
     {| price := formatUsdPrice (or_else (env "X402_REPORT_PRICE_USDC") "0.005");
        network := Some (or_else (env "X402_NETWORK") "base");
        description := Some "Detailed agent trust report";
        mimeType := None; resource := None; maxTimeoutSeconds := None;
        config := None |}) ].

Definition createApp (pkgs : Packages) (env : Env) : result App :=
  let pollIntervalMs :=
    toPositiveInt (env "INDEXER_POLL_INTERVAL_MS") (JsNumber.of_Z 900000) in
  let scoringConfig := loadScoringConfigFromEnv env in
  let routePricing := buildRoutePricing env in
  do payment <-
    createPaymentMiddleware formatUsdPrice pkgs
      {| opt_mode := Some (or_else (env "X402_MODE") "auto");
         opt_routeConfig := routePricing;
         opt_enforceStubPayment := FStr (or_else (env "X402_STUB_ENFORCE") "false");
         opt_payTo := None;
         opt_env := env |};
  Ok {| app_env := env;
        app_pollIntervalMs := pollIntervalMs;
        app_scoringConfig := scoringConfig;
        app_readerEnabled := some_truthy (env "TRUST_SCORE_ADDRESS");
        app_routePricing := routePricing;
        app_payment := payment |}.

(** The confidence of the [/score] handler, before [toFixed(4)]. *)
Definition score_confidence (scoringConfig : ScoringConfig)
    (parsedRecord : FeedbackRecord) : JsNumber.number :=
  let configured :=
    JsNumber.of_Z (confidenceThresholdFeedbackCount scoringConfig) in
  let confidenceThreshold :=
    if JsNumber.truthy configured then configured else JsNumber.of_Z 1 in
  JsNumber.min (JsNumber.of_Z 1)
    (JsNumber.div (JsNumber.of_Z (totalFeedback parsedRecord)) confidenceThreshold).

Definition paid_status (payment : Payment) : option string :=
  Some (if usingRealMiddleware payment then "paid_real" else "paid_stub").

(** The handler of [GET /score/:agentId], after the validator set
    [req.agentId]; [status] is [res.locals.paymentStatus]. *)
Definition scoreHandler (app : App) (world : World) (req : Request)
    (agentId : Z) (status : option string) : Response * option string :=
  let '(access, status1) :=
    resolvePaidRouteAccess req status (app_env app) (app_payment app) in
  if paymentRequired access then
    (challenge (app_routePricing app) "GET /score/:agentId" access, status1)
  else if negb (app_readerEnabled app) then (NotConfigured, status1)
  else
    match getDetailedReport world agentId with
    | ReadOk parsedRecord =>
        let confidence := score_confidence (app_scoringConfig app) parsedRecord in
        if allowDemoResponse access then
          (DemoScore agentId
             (Some (JsNumber.of_Z (score parsedRecord)))
             (resolveVerdict (JNumber (JsNumber.of_Z (score parsedRecord))))
             (resolveConfidenceBand (JsNumber.of_Z (totalFeedback parsedRecord)))
             demo_note,
           status1)
        else
          (FullScore agentId
             (JsNumber.of_Z (score parsedRecord))
             (JsNumber.toFixed4 confidence)
             (lastUpdated parsedRecord),
           paid_status (app_payment app))
    | ReadCallException =>
        let '(access2, status2) :=
          resolvePaidRouteAccess req status1 (app_env app) (app_payment app) in
        if allowDemoResponse access2 then
          (DemoScore agentId None "UNKNOWN" "none" no_history_note, status2)
        else (NotFound "Score not found for agent" agentId, status2)
    | ReadError statusCode message => (error_response statusCode message, status1)
    end.

(** The handler of [GET /report/:agentId]. *)
Definition reportHandler (app : App) (world : World) (req : Request)
    (agentId : Z) (status : option string) : Response * option string :=
  let '(access, status1) :=
    resolvePaidRouteAccess req status (app_env app) (app_payment app) in
  if paymentRequired access then
    (challenge (app_routePricing app) "GET /report/:agentId" access, status1)
  else if negb (app_readerEnabled app) then (NotConfigured, status1)
  else
    match getDetailedReport world agentId with
    | ReadOk parsedRecord =>
        let analytics :=
          buildRiskReport parsedRecord (app_scoringConfig app)
            (app_pollIntervalMs app) (nowMs world) in
        if allowDemoResponse access then
          (DemoReport agentId
             (Some (JsNumber.of_Z (score parsedRecord)))
             (resolveVerdict (JNumber (JsNumber.of_Z (score parsedRecord))))
             (resolveConfidenceBand (JsNumber.of_Z (totalFeedback parsedRecord)))
             (flagged analytics)
             demo_note,
           status1)
        else
          (FullReport agentId
             (JsNumber.of_Z (score parsedRecord))
             analytics
             (totalFeedback parsedRecord)
             (positiveFeedback parsedRecord)
             (lastUpdated parsedRecord),
           paid_status (app_payment app))
    | ReadCallException =>
        let '(access2, status2) :=
          resolvePaidRouteAccess req status1 (app_env app) (app_payment app) in
        if allowDemoResponse access2 then
          (DemoReport agentId None "UNKNOWN" "none" false no_history_note, status2)
        else (NotFound "Report not found for agent" agentId, status2)
    | ReadError statusCode message => (error_response statusCode message, status1)
    end.

(** [app.use(payment.middleware)] on a request. *)
Definition run_middleware (payment : Payment) (req : Request)
    (status : option string) : MiddlewareOutcome :=
  match middleware payment with
  | StubMiddleware paidRoutes enforceStubPayment =>
      stubPaymentMiddleware paidRoutes enforceStubPayment req status
  | RealMiddleware run =>
      match run req with
      | Some response => Respond response status
      | None => Next status
      end
  end.

(** A request that Express routes to [endpoint]: the payment
    middleware, the validator, then the handler. *)
Definition serve (app : App) (world : World) (endpoint : Endpoint)
    (req : Request) : Response * option string :=
  match run_middleware (app_payment app) req None with
  | Respond response status => (response, status)
  | Next status =>
      match validateAgentIdParam req with
      | inl (code, body) => (Rejected code body, status)
      | inr agentId =>
          match endpoint with
          | ScoreEndpoint => scoreHandler app world req agentId status
          | ReportEndpoint => reportHandler app world req agentId status
          end
      end
  end.

End Server.


(* ===================================================================== *)
(** * The specification's reading of the same operations *)
(* ===================================================================== *)

(** ** Access decisions (specification, section 4.3) *)

Inductive Tier :=
| TierFull
| TierDemo
| TierChallenge.

(** The five rules, first match wins: the tier and the tag written to
    the payment status, if any. *)
Definition precedence (usingReal proof demoAllowed demoFlag enforcement : bool)
    : Tier * option string :=
  if usingReal then (TierFull, None)
  else if proof then (TierFull, Some "paid_stub")
  else if demoAllowed && demoFlag then (TierDemo, Some "demo_free")
  else if enforcement then (TierChallenge, None)
  else (TierFull, None).

(** The tier an access object stands for; the three flags exclude one
    another. *)
Definition tier_of (access : Access) : option Tier :=
  match allowFullResponse access, allowDemoResponse access,
        paymentRequired access with
  | true, false, false => Some TierFull
  | false, true, false => Some TierDemo
  | false, false, true => Some TierChallenge
  | _, _, _ => None
  end.

(** The inputs of the resolver, as the specification names them. *)
Definition carries_proof (req : Request) : bool :=
  hasPaymentProof (extractPaymentHeaders req).

Definition demo_allowed (env : Env) : bool :=
  toBoolean (flag_of_env (env "X402_ALLOW_DEMO_QUERY")) true.

Definition enforcement_override (env : Env) : bool :=
  toBoolean (flag_of_env (env "X402_STUB_ENFORCE")) false.

Definition enforcement_required (env : Env) (payment : Payment) : bool :=
  fallbackFromReal payment || enforcement_override env.

Definition with_query_demo (req : Request) (demo : option string) : Request :=
  {| req_method := req_method req;
     req_path := req_path req;
     req_headers := req_headers req;
     req_query_demo := demo |}.

(** ** Risk assessment (specification, section 4.4) *)

(** [ageSeconds]: the age of a record at [nowMs], not below zero. *)
Definition age_seconds (record : FeedbackRecord) (nowMs : Z) : JsNumber.number :=
  JsNumber.max (JsNumber.of_Z 0)
    (JsNumber.sub
       (JsNumber.floor (JsNumber.div (JsNumber.of_Z nowMs) (JsNumber.of_Z 1000)))
       (JsNumber.of_Z (lastUpdated record))).

(** Twice the poll interval in seconds. *)
Definition stale_after (pollIntervalMs : JsNumber.number) : JsNumber.number :=
  JsNumber.mul (JsNumber.div pollIntervalMs (JsNumber.of_Z 1000))
    (JsNumber.of_Z 2).

(** [clamp(x, 0, 1)]. *)
Definition clamp01 (x : JsNumber.number) : JsNumber.number :=
  JsNumber.max (JsNumber.of_Z 0) (JsNumber.min (JsNumber.of_Z 1) x).

(** The negative-feedback rate in basis points, as the report computes
    it from the two counts. *)
Definition negative_rate_bps (total positive : Z) : JsNumber.number :=
  JsNumber.round
    (JsNumber.mul
       (JsNumber.div (JsNumber.of_Z (total - positive)) (JsNumber.of_Z total))
       (JsNumber.of_Z 10000)).

(** The confidence a response carries, if it carries one. *)
Definition served_confidence (r : Response) : option JsNumber.number :=
  match r with
  | FullScore _ _ confidence_ _ => Some confidence_
  | FullReport _ _ analytics _ _ _ => Some (confidence analytics)
  | _ => None
  end.

(** The fields of a ledger record are unsigned 256-bit integers. *)
Definition uint256 (z : Z) : Prop := (0 <= z < 2 ^ 256)%Z.

(** A positive normal Number with value [v] and exponent between [lo]
    and [hi]. *)
Definition normal_number (x : JsNumber.number) (v : Q) (lo hi : Z) : Prop :=
  exists m e,
    x = S754_finite false m e
    /\ (2 ^ 52 <= Zpos m < 2 ^ 53)%Z
    /\ (lo <= e <= hi)%Z
    /\ (v == inject_Z (Zpos m) * 2 ^ e)%Q.

(** ** Verdicts (specification, section 4.4) *)

(** A score is numeric when it is a Number other than NaN. *)
Definition is_numeric (score : js_value) : bool :=
  match score with
  | JNumber n => negb (JsNumber.is_nan n)
  | _ => false
  end.

(** ** Gateway selection (specification, section 4.2) *)

(** The candidates for the payee address, in priority order. *)
Definition payee_candidates (options : Options) (env : Env) : list (option string) :=
  [ opt_payTo options;
    env "X402_PAY_TO";
    env "X402_RECEIVER_ADDRESS";
    env "DEPLOYER_ADDRESS";
    env "UPDATER_ADDRESS" ].

(** ** Header maps (specification, section 3) *)

(** Header names are distinct up to case, as in an HTTP header map. *)
Definition header_names_distinct (req : Request) : Prop :=
  NoDup (map (fun entry => JsString.toLowerCase (fst entry)) (req_headers req)).

(** ** Route patterns (specification, sections 3 and 4.1) *)

(** The items of a path pattern read off directly: a [:name] is a
    wildcard, every other character is itself. *)
Fixpoint pattern_items (in_name : bool) (s : string) : regex :=
  match s with
  | EmptyString => []
  | String c r =>
      if in_name && is_name_char c then pattern_items true r
      else if Ascii.eqb c ":" && starts_with_name r
           then NotSlashPlus :: pattern_items true r
           else Lit c :: pattern_items false r
  end.

(** A route entry with its pattern's items in place of the compiled
    expression. *)
Definition compiled_route (formatUsdPrice : string -> string)
    (entry : string * RouteConfig) : PaidRoute :=
  {| route_key := fst entry;
     route_method := JsString.toUpperCase (key_method (fst entry));
     route_path := key_path (fst entry);
     route_regex := pattern_items false (key_path (fst entry));
     route_config :=
       {| price := formatUsdPrice (price (snd entry));
          network := network (snd entry);
          description := description (snd entry);
          mimeType := mimeType (snd entry);
          resource := resource (snd entry);
          maxTimeoutSeconds := maxTimeoutSeconds (snd entry);
          config := config (snd entry) |} |}.

(** The segments of a path: the pieces between slashes. *)
Definition segments (path : string) : list string := JsString.split "/" path.

(** A pattern segment against a path segment: literal characters match
    themselves, a placeholder matches one or more characters. *)
Definition segment_matches (pattern_segment segment : string) : bool :=
  regex_test (pattern_items false pattern_segment) segment.

Fixpoint forall2b {A B : Type} (p : A -> B -> bool) (l : list A) (l' : list B)
    : bool :=
  match l, l' with
  | [], [] => true
  | a :: r, b :: r' => p a b && forall2b p r r'
  | _, _ => false
  end.

(** Segments align one to one. *)
Definition aligned (pattern path : string) : bool :=
  forall2b segment_matches (segments pattern) (segments path).

(** A segment that is one placeholder: a colon and a non-empty name. *)
Definition is_placeholder (segment : string) : bool :=
  match segment with
  | String ":" name => negb (String.eqb name "") && all_chars is_name_char name
  | _ => false
  end.

(** A segment with no placeholder in it. *)
Fixpoint placeholder_free (segment : string) : bool :=
  match segment with
  | EmptyString => true
  | String c r =>
      negb (Ascii.eqb c ":" && starts_with_name r) && placeholder_free r
  end.

Definition has_slash (s : string) : bool :=
  negb (all_chars (fun c => negb (Ascii.eqb c "/")) s).

(** A path cut at its first slash: the first segment and, if there was
    a slash, what follows it. *)
Fixpoint cut_slash (s : string) : string * option string :=
  match s with
  | EmptyString => (EmptyString, None)
  | String c r =>
      if Ascii.eqb c "/" then (EmptyString, Some r)
      else let '(first, rest) := cut_slash r in (String c first, rest)
  end.

Definition is_slash_item (item : regex_item) : bool :=
  match item with
  | Lit c => Ascii.eqb c "/"
  | NotSlashPlus => false
  end.

(** The condition under which an entry of the route configuration matches
    a request. *)
Definition entry_matches (entry : string * RouteConfig) (req : Request) : Prop :=
  JsString.toUpperCase (key_method (fst entry))
    = JsString.toUpperCase (req_method req)
  /\ aligned (key_path (fst entry)) (req_path req) = true.

(* ===================================================================== *)
(** * Sample inputs *)
(* ===================================================================== *)

Definition empty_env : Env := fun _ => None.

(** [GET /score/1?demo=true] with no payment header. *)
Definition demo_request : Request :=
  {| req_method := "GET";
     req_path := "/score/1";
     req_headers := [("Accept", HString "application/json")];
     req_query_demo := Some "true" |}.

Definition sample_real_payment : Payment :=
  {| mode := "real";
     usingRealMiddleware := true;
     fallbackFromReal := false;
     reason := "Using x402-express middleware with Coinbase facilitator";
     middleware := RealMiddleware (fun _ => None);
     payToAddress := Some "0x05EEBF02305BF34C446C298105174e099C716bb9" |}.

(** No package can be loaded, no address is configured. *)
Definition no_packages : Packages :=
  {| require_x402_express := Throw "Cannot find module 'x402-express'";
     require_coinbase_x402 := Throw "Cannot find module '@coinbase/x402'" |}.

Definition score_route : string * RouteConfig :=
  ("GET /score/:agentId",
   {| price := "$0.001"; network := Some "base";
      description := Some "Agent trust score query";
      mimeType := None; resource := None; maxTimeoutSeconds := None;
      config := None |}).

Definition auto_options : Options :=
  {| opt_mode := Some "auto";
     opt_routeConfig := [score_route];
     opt_enforceStubPayment := FStr "false";
     opt_payTo := Some "0x1234";
     opt_env := empty_env |}.

(** The stub gateway with enforcement switched on, a configured ledger,
    and a ledger that knows agent 1. *)
Definition stub_enforce_env : Env :=
  fun name =>
    if String.eqb name "X402_MODE" then Some "stub"
    else if String.eqb name "X402_STUB_ENFORCE" then Some "true"
    else if String.eqb name "TRUST_SCORE_ADDRESS"
    then Some "0xa770C9232811bc551C19Dc41B36c7FFccE856e84"
    else None.

Definition trusted_record : FeedbackRecord :=
  {| score := 950; totalFeedback := 100; positiveFeedback := 98;
     lastUpdated := 1771085895; exists_ := true |}.

Definition sample_world : World :=
  {| nowMs := 1771085895000;
     getDetailedReport := fun _ => ReadOk trusted_record |}.

Definition default_scoring : ScoringConfig :=
  {| confidenceThresholdFeedbackCount := 50;
     negativeFlagThresholdBps := 1000 |}.

(** [GET /score/1] with an [Authorization] header of arbitrary content. *)
Definition authorized_request : Request :=
  {| req_method := "GET";
     req_path := "/score/1";
     req_headers := [("Accept", HString "application/json");
                     ("Authorization", HString "anything")];
     req_query_demo := None |}.

(** The gateway fell back from the real middleware (mode [auto], no
    package to load) and no enforcement override is set. *)
Definition fallback_env : Env :=
  fun name =>
    if String.eqb name "TRUST_SCORE_ADDRESS"
    then Some "0xa770C9232811bc551C19Dc41B36c7FFccE856e84"
    else None.

(** An app whose gateway runs the real middleware: every request that
    reaches a handler is served in full. *)
Definition full_access_app (scoringConfig : ScoringConfig) : App :=
  {| app_env := fallback_env;
     app_pollIntervalMs := JsNumber.of_Z 900000;
     app_scoringConfig := scoringConfig;
     app_readerEnabled := true;
     app_routePricing := [score_route];
     app_payment := sample_real_payment |}.

(** A ledger that returns the same record for every agent. *)
Definition ledger_world (record : FeedbackRecord) : World :=
  {| nowMs := 1771085895000;
     getDetailedReport := fun _ => ReadOk record |}.

(** One feedback entry, against a threshold of three. *)
Definition sparse_record : FeedbackRecord :=
  {| score := 600; totalFeedback := 1; positiveFeedback := 1;
     lastUpdated := 1771085895; exists_ := true |}.

Definition third_scoring : ScoringConfig :=
  {| confidenceThresholdFeedbackCount := 3;
     negativeFlagThresholdBps := 1000 |}.

(** No feedback at all, against a threshold of zero. *)
Definition empty_record : FeedbackRecord :=
  {| score := 100; totalFeedback := 0; positiveFeedback := 0;
     lastUpdated := 1771085895; exists_ := true |}.

Definition zero_scoring : ScoringConfig :=
  {| confidenceThresholdFeedbackCount := 0;
     negativeFlagThresholdBps := 1000 |}.

(** More positive entries than entries. *)
Definition overcounted_record : FeedbackRecord :=
  {| score := 600; totalFeedback := 1; positiveFeedback := 2;
     lastUpdated := 1771085895; exists_ := true |}.

(** Three negative entries out of twenty thousand. *)
Definition rare_negative_record : FeedbackRecord :=
  {| score := 900; totalFeedback := 20000; positiveFeedback := 19997;
     lastUpdated := 1771085895; exists_ := true |}.

(* ===================================================================== *)
(** * Reference readings used by the properties below *)
(* ===================================================================== *)

(** The text of the last header of a request whose lower-cased name is
    [key], if there is one. *)
Fixpoint last_header (entries : list (string * header_value)) (key : string)
    : option string :=
  match entries with
  | [] => None
  | (name, value) :: rest =>
      match last_header rest key with
      | Some text => Some text
      | None =>
          if String.eqb (JsString.toLowerCase name) key
          then Some (header_text value)
          else None
      end
  end.

(** The header names that count as payment proof when their value is
    not empty. *)
Definition proof_header_names : list string :=
  ["x-payment"; "x-payment-proof"; "x402-payment"; "x402-proof"; "authorization"].

(** The payloads a route handler sends to a request served in full. *)
Definition is_full_payload (r : Response) : bool :=
  match r with
  | FullScore _ _ _ _ | FullReport _ _ _ _ _ _ => true
  | _ => false
  end.

(** A path of the form [/score/<id>] or [/report/<id>], the [id] being
    one non-empty segment. *)
Definition paid_path (path : string) : Prop :=
  exists id,
    id <> ""
    /\ has_slash id = false
    /\ (path = "/score/" ++ id \/ path = "/report/" ++ id).

(** The expression that matches the characters of [s] one by one. *)
Fixpoint literals (s : string) : regex :=
  match s with
  | EmptyString => []
  | String c r => Lit c :: literals r
  end.

(** [Number.MAX_SAFE_INTEGER]. *)
Definition MAX_SAFE_INTEGER : Z := 9007199254740991.

(** What [asSafeNumber] returns: a Number, or the decimal text of the
    BigInt, kept here as the integer the text denotes. *)
Inductive safe_number :=
| AsNumber (n : JsNumber.number)
| AsDecimalString (value : Z).

(** [asSafeNumber(bigintValue)] of [server.js] on a BigInt. *)
Definition asSafeNumber (bigintValue : Z) : safe_number :=
  if (bigintValue <=? MAX_SAFE_INTEGER)%Z then AsNumber (JsNumber.of_Z bigintValue)
  else AsDecimalString bigintValue.

(** The negative-feedback rate in basis points as a rational number. *)
Definition exact_rate_bps (total positive : Z) : Q :=
  (inject_Z (10000 * (total - positive)) / inject_Z total)%Q.

(** A run of [n] space characters. *)
Fixpoint spaces (n : nat) : string :=
  match n with
  | O => EmptyString
  | S k => String " " (spaces k)
  end.

(** A string without white space. *)
Definition no_white_space (s : string) : bool :=
  all_chars (fun c => negb (JsString.is_space c)) s.

(** The score a response carries, if it carries one. *)
Definition served_score (r : Response) : option JsNumber.number :=
  match r with
  | DemoScore _ score_ _ _ _ | DemoReport _ score_ _ _ _ _ => score_
  | FullScore _ score_ _ _ | FullReport _ score_ _ _ _ _ => Some score_
  | _ => None
  end.

(* ===================================================================== *)
(** * Properties *)
(* ===================================================================== *)

(** ** Access resolution *)

Lemma carries_proof_with_query_demo (req : Request) (demo : option string) :
  carries_proof (with_query_demo req demo) = carries_proof req.
Proof. reflexivity. Qed.

Lemma access_tier (req : Request) (status : option string) (env : Env)
    (payment : Payment) :
  tier_of (fst (resolvePaidRouteAccess req status env payment))
  = Some (fst (precedence (usingRealMiddleware payment) (carries_proof req)
                 (demo_allowed env) (isDemoRequest req)
                 (enforcement_required env payment))).
Proof.
  unfold resolvePaidRouteAccess, precedence, enforcement_required,
    enforcement_override, demo_allowed, carries_proof.
  destruct (usingRealMiddleware payment); [reflexivity |].
  destruct (hasPaymentProof (extractPaymentHeaders req)); [reflexivity |].
  destruct (toBoolean (flag_of_env (env "X402_ALLOW_DEMO_QUERY")) true
            && isDemoRequest req); [reflexivity |].
  destruct (fallbackFromReal payment
            || toBoolean (flag_of_env (env "X402_STUB_ENFORCE")) false);
    reflexivity.
Qed.

(** C1.  [resolvePaidRouteAccess] computes exactly the five-rule
    precedence of the specification: real middleware gives the full
    tier; otherwise payment proof gives the full tier tagged
    [paid_stub]; otherwise an allowed demo request gives the demo tier
    tagged [demo_free]; otherwise required enforcement gives the
    challenge tier with its reason string; otherwise the full tier.  A
    rule that sets no tag leaves the payment status as it was.  In
    particular real middleware decides alone, and a request that gets the
    full tier with its demo flag set gets it whatever the flag is. *)
Theorem resolvePaidRouteAccess_precedence
    (req : Request) (status : option string) (env : Env) (payment : Payment) :
  let access := fst (resolvePaidRouteAccess req status env payment) in
  let status' := snd (resolvePaidRouteAccess req status env payment) in
  let decision :=
    precedence (usingRealMiddleware payment) (carries_proof req)
      (demo_allowed env) (isDemoRequest req)
      (enforcement_required env payment) in
  tier_of access = Some (fst decision)
  /\ status' = match snd decision with Some tag => Some tag | None => status end
  /\ (fst decision = TierChallenge <->
      paymentReason access = Some stub_fallback_reason)
  /\ (fst decision <> TierChallenge <-> paymentReason access = None)
  /\ (usingRealMiddleware payment = true ->
      tier_of access = Some TierFull /\ status' = status)
  /\ (isDemoRequest req = true -> tier_of access = Some TierFull ->
      forall demo,
        tier_of (fst (resolvePaidRouteAccess (with_query_demo req demo)
                        status env payment)) = Some TierFull).
Proof.
  cbv zeta. split; [apply access_tier |].
  split; [| split; [| split; [| split]]].
  - unfold resolvePaidRouteAccess, precedence, enforcement_required,
      enforcement_override, demo_allowed, carries_proof.
    destruct (usingRealMiddleware payment); [reflexivity |].
    destruct (hasPaymentProof (extractPaymentHeaders req)); [reflexivity |].
    destruct (toBoolean (flag_of_env (env "X402_ALLOW_DEMO_QUERY")) true
              && isDemoRequest req); [reflexivity |].
    destruct (fallbackFromReal payment
              || toBoolean (flag_of_env (env "X402_STUB_ENFORCE")) false);
      reflexivity.
  - unfold resolvePaidRouteAccess, precedence, enforcement_required,
      enforcement_override, demo_allowed, carries_proof.
    destruct (usingRealMiddleware payment); [split; discriminate |].
    destruct (hasPaymentProof (extractPaymentHeaders req));
      [split; discriminate |].
    destruct (toBoolean (flag_of_env (env "X402_ALLOW_DEMO_QUERY")) true
              && isDemoRequest req); [split; discriminate |].
    destruct (fallbackFromReal payment
              || toBoolean (flag_of_env (env "X402_STUB_ENFORCE")) false);
      split; (reflexivity || discriminate).
  - unfold resolvePaidRouteAccess, precedence, enforcement_required,
      enforcement_override, demo_allowed, carries_proof.
    destruct (usingRealMiddleware payment);
      [split; [reflexivity | discriminate] |].
    destruct (hasPaymentProof (extractPaymentHeaders req));
      [split; [reflexivity | discriminate] |].
    destruct (toBoolean (flag_of_env (env "X402_ALLOW_DEMO_QUERY")) true
              && isDemoRequest req); [split; [reflexivity | discriminate] |].
    destruct (fallbackFromReal payment
              || toBoolean (flag_of_env (env "X402_STUB_ENFORCE")) false);
      split; try reflexivity; try discriminate; intros H; now elim H.
  - intros Hreal. unfold resolvePaidRouteAccess. rewrite Hreal. now split.
  - intros Hdemo Hfull demo. rewrite access_tier in Hfull |- *.
    rewrite carries_proof_with_query_demo.
    unfold precedence in *. rewrite Hdemo in Hfull.
    destruct (usingRealMiddleware payment); [reflexivity |].
    destruct (carries_proof req); [reflexivity |].
    destruct (demo_allowed env); cbn in *; [discriminate |].
    exact Hfull.
Qed.

Lemma resolvePaidRouteAccess_precedence_witness :
  usingRealMiddleware sample_real_payment = true
  /\ tier_of (fst (resolvePaidRouteAccess demo_request None empty_env
                     sample_real_payment)) = Some TierFull.
Proof.
  split; [reflexivity |].
  destruct (resolvePaidRouteAccess_precedence demo_request None empty_env
              sample_real_payment) as (_ & _ & _ & _ & Hreal & _).
  apply Hreal. reflexivity.
Defined.

(** ** The compiled route expression *)

Ltac each_char c :=
  destruct c as [[] [] [] [] [] [] [] []].

Lemma special_not_name (c : ascii) :
  is_regex_special c = true ->
  is_name_char c = false /\ Ascii.eqb c ":" = false.
Proof. each_char c; cbn; intros H; (discriminate H || (split; reflexivity)). Qed.

Lemma compile_body_literal (c : ascii) (r : string) :
  is_regex_special c = false ->
  compile_body (String c r) = option_cons (Lit c) (compile_body r).
Proof. each_char c; cbn; intros H; (discriminate H || reflexivity). Qed.

Lemma compile_body_escaped (c : ascii) (r : string) :
  is_regex_special c = true ->
  compile_body (String "\" (String c r)) = option_cons (Lit c) (compile_body r).
Proof.
  intros H.
  change (compile_body (String "\" (String c r)))
    with (if is_regex_special c
          then option_cons (Lit c) (compile_body r) else None).
  rewrite H. reflexivity.
Qed.

Lemma compile_body_wildcard (r : string) :
  compile_body ("[^/]+" ++ r) = option_cons NotSlashPlus (compile_body r).
Proof. reflexivity. Qed.

Lemma starts_with_name_escape (s : string) :
  starts_with_name (escapeRegExp s) = starts_with_name s.
Proof.
  destruct s as [| c r]; [reflexivity |]. cbn [escapeRegExp].
  destruct (is_regex_special c) eqn:Hc; [| reflexivity].
  cbn [starts_with_name]. apply special_not_name in Hc. symmetry. apply Hc.
Qed.

Lemma compile_replaced (s : string) :
  compile_body (replace_names (fun _ => "[^/]+") None (escapeRegExp s) ++ "$")
  = Some (pattern_items false s)
  /\ forall acc,
      compile_body
        (replace_names (fun _ => "[^/]+") (Some acc) (escapeRegExp s) ++ "$")
      = Some (NotSlashPlus :: pattern_items true s).
Proof.
  induction s as [| c r [IHnone IHsome]]; [split; reflexivity |].
  cbn [escapeRegExp pattern_items].
  destruct (is_regex_special c) eqn:Hspecial.
  - destruct (special_not_name c Hspecial) as [Hname Hcolon].
    rewrite Hname, Hcolon. cbn [andb].
    assert (Hbody :
      compile_body (String "\" (String c
         (replace_names (fun _ => "[^/]+") None (escapeRegExp r) ++ "$")))
      = Some (Lit c :: pattern_items false r)).
    { rewrite compile_body_escaped, IHnone by assumption. reflexivity. }
    split.
    + cbn [replace_names]. change (Ascii.eqb "\" ":") with false.
      rewrite Hcolon. cbn [andb String.append]. exact Hbody.
    + intros acc. cbn [replace_names].
      change (is_name_char "\") with false.
      change (Ascii.eqb "\" ":") with false.
      rewrite Hcolon. cbn [andb].
      change (compile_body ("[^/]+" ++ String "\" (String c
        (replace_names (fun _ => "[^/]+") None (escapeRegExp r) ++ "$")))
        = Some (NotSlashPlus :: Lit c :: pattern_items false r)).
      rewrite compile_body_wildcard, Hbody. reflexivity.
  - cbn [replace_names]. rewrite starts_with_name_escape.
    destruct (Ascii.eqb c ":" && starts_with_name r) eqn:Hstart.
    + assert (Hname : is_name_char c = false).
      { apply andb_true_iff in Hstart as [Hc _].
        apply Ascii.eqb_eq in Hc. subst c. reflexivity. }
      rewrite Hname. cbn [andb]. split.
      * apply IHsome.
      * intros acc. cbn [String.append].
        change (compile_body ("[^/]+" ++
           (replace_names (fun _ => "[^/]+") (Some "") (escapeRegExp r) ++ "$"))
           = Some (NotSlashPlus :: NotSlashPlus :: pattern_items true r)).
        rewrite compile_body_wildcard, IHsome. reflexivity.
    + split.
      * cbn [andb String.append].
        rewrite compile_body_literal, IHnone by assumption. reflexivity.
      * intros acc. destruct (is_name_char c) eqn:Hname; cbn [andb].
        -- apply IHsome.
        -- change (compile_body ("[^/]+" ++ String c
             (replace_names (fun _ => "[^/]+") None (escapeRegExp r) ++ "$"))
             = Some (NotSlashPlus :: Lit c :: pattern_items false r)).
           rewrite compile_body_wildcard, compile_body_literal, IHnone
             by assumption.
           reflexivity.
Qed.

Lemma routeToRegex_items (routePath : string) :
  routeToRegex routePath = Some (pattern_items false routePath).
Proof. unfold routeToRegex, replacePlaceholders. cbn. apply compile_replaced. Qed.

Lemma buildPaidRoute_ok (formatUsdPrice : string -> string)
    (entry : string * RouteConfig) :
  buildPaidRoute formatUsdPrice entry = Ok (compiled_route formatUsdPrice entry).
Proof.
  destruct entry as [key cfg]. unfold buildPaidRoute.
  rewrite routeToRegex_items. reflexivity.
Qed.

(** The route table always compiles: escaping leaves [new RegExp]
    nothing to reject. *)
Lemma buildPaidRoutes_ok (formatUsdPrice : string -> string)
    (routeConfig : list (string * RouteConfig)) :
  buildPaidRoutes formatUsdPrice routeConfig
  = Ok (map (compiled_route formatUsdPrice) routeConfig).
Proof.
  induction routeConfig as [| entry rest IH]; [reflexivity |].
  cbn [buildPaidRoutes map]. rewrite buildPaidRoute_ok, IH. reflexivity.
Qed.

(** ** Gateway selection *)

Lemma createStubPaymentMiddleware_ok (formatUsdPrice : string -> string)
    (options : Options) :
  createStubPaymentMiddleware formatUsdPrice options
  = Ok {| mode := "stub";
          usingRealMiddleware := false;
          fallbackFromReal := false;
          reason := "Using local x402 stub middleware";
          middleware :=
            StubMiddleware
              (map (compiled_route formatUsdPrice) (opt_routeConfig options))
              (toBoolean (opt_enforceStubPayment options) false);
          payToAddress := None |}.
Proof.
  unfold createStubPaymentMiddleware. rewrite buildPaidRoutes_ok. reflexivity.
Qed.

Lemma resolvePayToAddress_candidates (options : Options) (env : Env) :
  first_valid (payee_candidates options env) = None ->
  exists message, resolvePayToAddress options env = Throw message.
Proof.
  unfold resolvePayToAddress, payee_candidates. intros ->. eauto.
Qed.

(** Without a valid payee address the real middleware cannot be built. *)
Lemma createRealPaymentMiddleware_needs_payee
    (formatUsdPrice : string -> string) (pkgs : Packages) (options : Options)
    (env : Env) :
  first_valid (payee_candidates options env) = None ->
  exists message,
    createRealPaymentMiddleware formatUsdPrice pkgs options env = Throw message.
Proof.
  intros Hnone. unfold createRealPaymentMiddleware.
  destruct (require_x402_express pkgs) as [express | m]; cbn; [| eauto].
  destruct (paymentMiddleware express) as [make |]; [| eauto].
  destruct (resolvePayToAddress_candidates options env Hnone) as [m ->].
  cbn. eauto.
Qed.

(** C4.  When the construction of the real middleware fails, gateway
    selection throws if and only if the mode is [real], and then it
    throws the construction error; in mode [auto] it never throws and
    returns a stub state with [fallbackFromReal = true] and a non-empty
    reason that carries the error message.  A configuration with no
    syntactically valid payee address among the candidates is one in
    which the construction fails. *)
Theorem createPaymentMiddleware_fallback
    (formatUsdPrice : string -> string) (pkgs : Packages) (options : Options) :
  (first_valid (payee_candidates options (opt_env options)) = None ->
   exists message,
     createRealPaymentMiddleware formatUsdPrice pkgs options (opt_env options)
     = Throw message)
  /\ forall message,
      createRealPaymentMiddleware formatUsdPrice pkgs options (opt_env options)
        = Throw message ->
      (throws (createPaymentMiddleware formatUsdPrice pkgs options) = true
       <-> selected_mode options = "real")
      /\ (selected_mode options = "real" ->
          createPaymentMiddleware formatUsdPrice pkgs options = Throw message)
      /\ (selected_mode options = "auto" ->
          exists payment,
            createPaymentMiddleware formatUsdPrice pkgs options = Ok payment
            /\ mode payment = "stub"
            /\ usingRealMiddleware payment = false
            /\ fallbackFromReal payment = true
            /\ reason payment = "Fell back to stub middleware: " ++ message
            /\ reason payment <> "").
Proof.
  split; [apply createRealPaymentMiddleware_needs_payee |].
  intros message Hreal. unfold createPaymentMiddleware. rewrite Hreal.
  rewrite createStubPaymentMiddleware_ok. cbn [bind].
  destruct (String.eqb (selected_mode options) "real") eqn:Hmode.
  - apply String.eqb_eq in Hmode. cbn [orb]. repeat split; auto.
    rewrite Hmode. discriminate.
  - assert (Hne : selected_mode options <> "real")
      by (apply String.eqb_neq; exact Hmode).
    cbn [orb]. split; [| split].
    + destruct (String.eqb (selected_mode options) "auto"); cbn;
        split; (discriminate || contradiction).
    + contradiction.
    + intros Hauto. rewrite Hauto. cbn.
      eexists. repeat split. discriminate.
Qed.

Lemma createPaymentMiddleware_fallback_witness :
  exists payment,
    createPaymentMiddleware (fun p => p) no_packages auto_options = Ok payment
    /\ fallbackFromReal payment = true.
Proof.
  destruct (createPaymentMiddleware_fallback (fun p => p) no_packages
              auto_options) as (Hpayee & Hfails).
  destruct (Hpayee eq_refl) as (message & Hthrow).
  destruct (Hfails message Hthrow) as (_ & _ & Hauto).
  destruct (Hauto eq_refl) as (payment & Hok & _ & _ & Hfallback & _).
  exists payment. split; assumption.
Defined.

(** ** Payment headers *)

Lemma obj_get_set_same (o : js_object) (key value : string) :
  obj_get (obj_set o key value) key = Some value.
Proof.
  induction o as [| [k v] rest IH]; cbn.
  - rewrite String.eqb_refl. reflexivity.
  - destruct (String.eqb k key) eqn:Hk; cbn; rewrite Hk; [reflexivity | exact IH].
Qed.

Lemma obj_get_set_other (o : js_object) (key key' value : string) :
  key <> key' ->
  obj_get (obj_set o key value) key' = obj_get o key'.
Proof.
  intros Hne. induction o as [| [k v] rest IH]; cbn.
  - apply String.eqb_neq in Hne. rewrite Hne. reflexivity.
  - destruct (String.eqb k key) eqn:Hk; cbn.
    + apply String.eqb_eq in Hk. subst k.
      apply String.eqb_neq in Hne. rewrite Hne. reflexivity.
    + rewrite IH. reflexivity.
Qed.

(** Entries under other names leave a property as it is. *)
Lemma extract_loop_absent (entries : list (string * header_value))
    (relevant : js_object) (name : string) :
  ~ In name (map (fun entry => JsString.toLowerCase (fst entry)) entries) ->
  obj_get (extract_loop entries relevant) name = obj_get relevant name.
Proof.
  revert relevant.
  induction entries as [| [key value] rest IH]; intros relevant Habsent;
    [reflexivity |].
  cbn in Habsent. cbn [extract_loop].
  assert (Hne : JsString.toLowerCase key <> name) by tauto.
  assert (Hrest : ~ In name
            (map (fun entry => JsString.toLowerCase (fst entry)) rest)) by tauto.
  destruct (is_payment_header (JsString.toLowerCase key)).
  - rewrite IH by exact Hrest. apply obj_get_set_other. exact Hne.
  - apply IH. exact Hrest.
Qed.

(** In a header map, the extracted property of a payment header is the
    text of its value. *)
Lemma extract_loop_present (entries : list (string * header_value))
    (relevant : js_object) (key : string) (value : header_value) :
  NoDup (map (fun entry => JsString.toLowerCase (fst entry)) entries) ->
  In (key, value) entries ->
  is_payment_header (JsString.toLowerCase key) = true ->
  obj_get (extract_loop entries relevant) (JsString.toLowerCase key)
  = Some (header_text value).
Proof.
  revert relevant.
  induction entries as [| [k v] rest IH]; intros relevant Hdistinct Hin Hpay;
    [contradiction |].
  cbn in Hdistinct. inversion Hdistinct as [| ? ? Hfresh Hrest]; subst.
  cbn [extract_loop]. destruct Hin as [Heq | Hin].
  - inversion Heq; subst k v. rewrite Hpay.
    rewrite extract_loop_absent by exact Hfresh.
    apply obj_get_set_same.
  - destruct (is_payment_header (JsString.toLowerCase k)); now apply IH.
Qed.

Lemma authorization_is_proof (req : Request) (key : string)
    (value : header_value) :
  header_names_distinct req ->
  In (key, value) (req_headers req) ->
  JsString.toLowerCase key = "authorization" ->
  header_text value <> "" ->
  carries_proof req = true.
Proof.
  intros Hdistinct Hin Hkey Htext.
  unfold carries_proof, extractPaymentHeaders, hasPaymentProof.
  assert (Hget : obj_get (extract_loop (req_headers req) []) "authorization"
                 = Some (header_text value)).
  { rewrite <- Hkey. apply extract_loop_present; try assumption.
    rewrite Hkey. reflexivity. }
  assert (Htruthy : prop_truthy (extract_loop (req_headers req) [])
                      "authorization" = true).
  { unfold prop_truthy. rewrite Hget. unfold JsString.truthy.
    apply negb_true_iff, String.eqb_neq. exact Htext. }
  rewrite Htruthy. rewrite !orb_true_r. reflexivity.
Qed.

(** ** The request path through the stub gateway *)

Lemma createRealPaymentMiddleware_shape (formatUsdPrice : string -> string)
    (pkgs : Packages) (options : Options) (env : Env) (payment : Payment) :
  createRealPaymentMiddleware formatUsdPrice pkgs options env = Ok payment ->
  usingRealMiddleware payment = true /\ mode payment = "real"
  /\ fallbackFromReal payment = false.
Proof.
  unfold createRealPaymentMiddleware.
  destruct (require_x402_express pkgs) as [express |]; cbn; [| discriminate].
  destruct (paymentMiddleware express) as [make |]; [| discriminate].
  destruct (resolvePayToAddress options env) as [payTo |]; cbn; [| discriminate].
  destruct (resolveFacilitatorConfig pkgs env) as [fc |]; cbn; [| discriminate].
  destruct (make payTo _ fc _) as [[run |] |]; cbn; try discriminate.
  intros H. inversion H. cbn. auto.
Qed.

(** A gateway that does not use the real middleware runs the stub
    closure over the compiled table. *)
Lemma createPaymentMiddleware_stub_shape (formatUsdPrice : string -> string)
    (pkgs : Packages) (options : Options) (payment : Payment) :
  createPaymentMiddleware formatUsdPrice pkgs options = Ok payment ->
  usingRealMiddleware payment = false ->
  mode payment = "stub"
  /\ middleware payment
     = StubMiddleware
         (map (compiled_route formatUsdPrice) (opt_routeConfig options))
         (toBoolean (opt_enforceStubPayment options) false).
Proof.
  unfold createPaymentMiddleware. rewrite createStubPaymentMiddleware_ok.
  intros Hok Hstub.
  destruct (String.eqb (selected_mode options) "real"
            || String.eqb (selected_mode options) "auto").
  - destruct (createRealPaymentMiddleware formatUsdPrice pkgs options
                (opt_env options)) as [real | message] eqn:Hreal.
    + inversion Hok; subst real.
      apply createRealPaymentMiddleware_shape in Hreal. destruct Hreal as [Hr _].
      congruence.
    + destruct (String.eqb (selected_mode options) "real"); [discriminate |].
      cbn in Hok. inversion Hok. cbn. auto.
  - inversion Hok. cbn. auto.
Qed.

(** With enforcement on, the stub middleware answers every unpaid
    request to a paid route itself, whatever its query says. *)
Lemma stub_enforcement_ignores_demo (paidRoutes : list PaidRoute)
    (req : Request) (status : option string) (matched : PaidRoute) :
  matchPaidRoute req paidRoutes = Some matched ->
  carries_proof req = false ->
  exists route price_ network_ description_,
    stubPaymentMiddleware paidRoutes true req status
    = Respond (StubChallenge route price_ network_ description_)
        (Some "unpaid_stub").
Proof.
  intros Hmatch Hproof. unfold stubPaymentMiddleware.
  rewrite Hmatch. unfold carries_proof in Hproof. rewrite Hproof. cbn.
  eauto.
Qed.

(** A paid request passes the stub middleware. *)
Lemma stub_passes_paid (paidRoutes : list PaidRoute) (enforce : bool)
    (req : Request) (status : option string) :
  carries_proof req = true ->
  exists status',
    stubPaymentMiddleware paidRoutes enforce req status = Next status'.
Proof.
  intros Hproof. unfold stubPaymentMiddleware.
  destruct (matchPaidRoute req paidRoutes); [| eauto].
  unfold carries_proof in Hproof. rewrite Hproof. cbn. eauto.
Qed.

Section ServerProperties.

Variable formatUsdPrice : string -> string.
Variable Number_ : option string -> JsNumber.number.
Variable loadScoringConfigFromEnv : Env -> ScoringConfig.
Variable validateAgentIdParam : Request -> (Z * string) + Z.

Lemma createApp_fields (pkgs : Packages) (env : Env) (app : App) :
  createApp formatUsdPrice Number_ loadScoringConfigFromEnv pkgs env = Ok app ->
  app_env app = env
  /\ app_routePricing app = buildRoutePricing formatUsdPrice env
  /\ createPaymentMiddleware formatUsdPrice pkgs
       {| opt_mode := Some (or_else (env "X402_MODE") "auto");
          opt_routeConfig := buildRoutePricing formatUsdPrice env;
          opt_enforceStubPayment :=
            FStr (or_else (env "X402_STUB_ENFORCE") "false");
          opt_payTo := None;
          opt_env := env |} = Ok (app_payment app).
Proof.
  unfold createApp.
  destruct (createPaymentMiddleware _ _ _) as [payment |]; cbn;
    [| discriminate].
  intros H. inversion H. cbn. auto.
Qed.

(** A handler never sends a payment challenge to a paid request under
    a gateway that does not use the real middleware. *)
Lemma handler_serves_paid (app : App) (world : World) (endpoint : Endpoint)
    (req : Request) (agentId : Z) (status : option string) :
  usingRealMiddleware (app_payment app) = false ->
  carries_proof req = true ->
  is_payment_challenge
    (fst (match endpoint with
          | ScoreEndpoint => scoreHandler app world req agentId status
          | ReportEndpoint => reportHandler app world req agentId status
          end)) = false.
Proof.
  intros Hstub Hproof.
  assert (Haccess : forall st,
    resolvePaidRouteAccess req st (app_env app) (app_payment app)
    = ({| allowFullResponse := true; allowDemoResponse := false;
          paymentRequired := false; paymentReason := None |},
       Some "paid_stub")).
  { intros st. unfold resolvePaidRouteAccess. rewrite Hstub.
    unfold carries_proof in Hproof. rewrite Hproof. reflexivity. }
  destruct endpoint; unfold scoreHandler, reportHandler;
    rewrite !Haccess; cbn;
    destruct (app_readerEnabled app); cbn; try reflexivity;
    destruct (getDetailedReport world agentId); cbn; try reflexivity;
    rewrite !Haccess; reflexivity.
Qed.

(** C10.  A request whose header map holds an [authorization] header
    (in any letter case) with a non-empty value carries payment proof,
    whatever the value is; so under a gateway that does not use the real
    middleware it resolves to the full tier tagged [paid_stub], and no
    payment challenge is sent on its way through the stub middleware and
    the route handler. *)
Theorem authorization_header_unlocks_full
    (req : Request) (key : string) (value : header_value) :
  header_names_distinct req ->
  In (key, value) (req_headers req) ->
  JsString.toLowerCase key = "authorization" ->
  header_text value <> "" ->
  hasPaymentProof (extractPaymentHeaders req) = true
  /\ (forall status env payment,
        usingRealMiddleware payment = false ->
        tier_of (fst (resolvePaidRouteAccess req status env payment))
          = Some TierFull
        /\ snd (resolvePaidRouteAccess req status env payment)
           = Some "paid_stub")
  /\ (forall pkgs env app world endpoint,
        createApp formatUsdPrice Number_ loadScoringConfigFromEnv pkgs env
          = Ok app ->
        usingRealMiddleware (app_payment app) = false ->
        is_payment_challenge
          (fst (serve validateAgentIdParam app world endpoint req)) = false).
Proof.
  intros Hdistinct Hin Hkey Htext.
  pose proof (authorization_is_proof req key value Hdistinct Hin Hkey Htext)
    as Hproof.
  split; [exact Hproof |]. split.
  - intros status env payment Hstub. unfold resolvePaidRouteAccess.
    rewrite Hstub. unfold carries_proof in Hproof. rewrite Hproof.
    split; reflexivity.
  - intros pkgs env app world endpoint Happ Hstub.
    destruct (createApp_fields pkgs env app Happ) as (_ & _ & Hpayment).
    destruct (createPaymentMiddleware_stub_shape _ _ _ _ Hpayment Hstub)
      as [_ Hmw].
    unfold serve, run_middleware. rewrite Hmw.
    destruct (stub_passes_paid
                (map (compiled_route formatUsdPrice)
                   (buildRoutePricing formatUsdPrice env))
                (toBoolean (FStr (or_else (env "X402_STUB_ENFORCE") "false"))
                   false)
                req None Hproof) as [status' Hnext].
    cbn [opt_routeConfig opt_enforceStubPayment]. rewrite Hnext.
    destruct (validateAgentIdParam req) as [[code body] | agentId];
      [reflexivity |].
    apply handler_serves_paid; assumption.
Qed.

(** C2, at the failing input.  With [X402_STUB_ENFORCE=true] the app
    runs the stub gateway; for [GET /score/1?demo=true] without payment
    header the resolver's precedence gives the demo tier, yet the
    request is answered by the stub middleware with its 402 before the
    route handler runs. *)
Theorem stub_enforcement_blocks_demo (pkgs : Packages) (world : World) :
  exists app,
    createApp formatUsdPrice Number_ loadScoringConfigFromEnv pkgs
      stub_enforce_env = Ok app
    /\ usingRealMiddleware (app_payment app) = false
    /\ carries_proof demo_request = false
    /\ demo_allowed (app_env app) = true
    /\ isDemoRequest demo_request = true
    /\ enforcement_required (app_env app) (app_payment app) = true
    /\ tier_of (fst (resolvePaidRouteAccess demo_request None (app_env app)
                       (app_payment app))) = Some TierDemo
    /\ serve validateAgentIdParam app world ScoreEndpoint demo_request
       = (StubChallenge "GET /score/:agentId"
            (formatUsdPrice (formatUsdPrice "0.001")) "base"
            "Agent trust score query",
          Some "unpaid_stub").
Proof.
  unfold createApp, createPaymentMiddleware.
  change (selected_mode _) with "stub". cbn [String.eqb Ascii.eqb orb].
  rewrite createStubPaymentMiddleware_ok. cbn [bind].
  eexists. split; [reflexivity |].
  repeat split.
Qed.

(** When enforcement comes from the fallback alone, the demo request
    does reach the handler and gets the demo payload. *)
Lemma fallback_gateway_serves_demo (world : World) (endpoint : Endpoint)
    (agentId : Z) :
  validateAgentIdParam demo_request = inr agentId ->
  (forall code message,
     getDetailedReport world agentId <> ReadError code message) ->
  exists app,
    createApp formatUsdPrice Number_ loadScoringConfigFromEnv no_packages
      fallback_env = Ok app
    /\ fallbackFromReal (app_payment app) = true
    /\ enforcement_required (app_env app) (app_payment app) = true
    /\ is_demo_payload
         (fst (serve validateAgentIdParam app world endpoint demo_request))
       = true.
Proof.
  intros Hvalid Hread.
  unfold createApp, createPaymentMiddleware.
  change (selected_mode _) with "auto". cbn [String.eqb Ascii.eqb orb].
  change (createRealPaymentMiddleware _ no_packages _ _)
    with (@Throw Payment "Cannot find module 'x402-express'").
  rewrite createStubPaymentMiddleware_ok. cbn [bind].
  eexists. split; [reflexivity |]. split; [reflexivity |].
  split; [reflexivity |].
  unfold serve.
  change (run_middleware _ demo_request None) with (Next (Some "unpaid_stub")).
  rewrite Hvalid.
  assert (Haccess : forall status payment,
    usingRealMiddleware payment = false ->
    resolvePaidRouteAccess demo_request status fallback_env payment
    = ({| allowFullResponse := false; allowDemoResponse := true;
          paymentRequired := false; paymentReason := None |},
       Some "demo_free")).
  { intros status payment Hstub. unfold resolvePaidRouteAccess.
    rewrite Hstub. reflexivity. }
  destruct endpoint; unfold scoreHandler, reportHandler;
    cbn [app_env app_payment app_readerEnabled];
    rewrite !Haccess by reflexivity;
    cbn [paymentRequired allowDemoResponse negb some_truthy];
    change (some_truthy (fallback_env "TRUST_SCORE_ADDRESS")) with true;
    cbn [negb];
    destruct (getDetailedReport world agentId) eqn:Hledger;
    try reflexivity;
    try (rewrite !Haccess by reflexivity; reflexivity);
    exfalso; eapply Hread; reflexivity.
Qed.

End ServerProperties.

Lemma authorization_header_unlocks_full_witness :
  hasPaymentProof (extractPaymentHeaders authorized_request) = true.
Proof.
  apply (authorization_header_unlocks_full (fun p => p)
           (fun _ => JsNumber.NaN) (fun _ => default_scoring)
           (fun _ => inr 1%Z) authorized_request "Authorization"
           (HString "anything")).
  - unfold header_names_distinct. cbn.
    repeat constructor; cbn; intuition discriminate.
  - cbn. auto.
  - reflexivity.
  - discriminate.
Defined.

(** ** Order on Numbers *)

Lemma ext_compare_antisym (a b : JsNumber.ext_value) :
  JsNumber.ext_compare b a = CompOpp (JsNumber.ext_compare a b).
Proof.
  destruct a, b; cbn; try reflexivity. symmetry. apply Qcompare_antisym.
Qed.

Lemma number_compare_antisym (x y : JsNumber.number) :
  JsNumber.compare y x = option_map CompOpp (JsNumber.compare x y).
Proof.
  unfold JsNumber.compare.
  destruct (JsNumber.value x), (JsNumber.value y); cbn; try reflexivity.
  rewrite ext_compare_antisym. reflexivity.
Qed.

Lemma value_not_nan (x : JsNumber.number) :
  JsNumber.is_nan x = false -> exists v, JsNumber.value x = Some v.
Proof. destruct x; cbn; intros H; try discriminate; eauto. Qed.

(** The verdict thresholds as extended reals. *)
Lemma value_700 :
  exists q, JsNumber.value (JsNumber.of_Z 700) = Some (JsNumber.Fin q)
            /\ (q == 700)%Q.
Proof. eexists. split; [reflexivity | reflexivity]. Qed.

Lemma value_400 :
  exists q, JsNumber.value (JsNumber.of_Z 400) = Some (JsNumber.Fin q)
            /\ (q == 400)%Q.
Proof. eexists. split; [reflexivity | reflexivity]. Qed.

(** ** Verdicts *)

Lemma verdict_of_number (n : JsNumber.number) :
  JsNumber.is_nan n = false ->
  (resolveVerdict (JNumber n) = "TRUSTED"
   <-> JsNumber.gt n (JsNumber.of_Z 700) = true)
  /\ (resolveVerdict (JNumber n) = "CAUTION"
      <-> JsNumber.ge n (JsNumber.of_Z 400) = true
          /\ JsNumber.le n (JsNumber.of_Z 700) = true)
  /\ (resolveVerdict (JNumber n) = "DANGEROUS"
      <-> JsNumber.lt n (JsNumber.of_Z 400) = true).
Proof.
  intros Hnan. unfold resolveVerdict. rewrite Hnan.
  destruct (value_not_nan n Hnan) as [v Hv].
  destruct value_700 as (q7 & H7 & Hq7).
  destruct value_400 as (q4 & H4 & Hq4).
  unfold JsNumber.gt, JsNumber.ge, JsNumber.le, JsNumber.lt, JsNumber.compare.
  rewrite Hv, H7, H4.
  destruct v as [| q |]; cbn.
  - repeat split; intros; try discriminate; try tauto.
    destruct H; discriminate.
  - rewrite <- (Qcompare_antisym q q7), <- (Qcompare_antisym q q4).
    destruct (Qcompare_spec q q7) as [E7 | L7 | G7];
    destruct (Qcompare_spec q q4) as [E4 | L4 | G4]; cbn;
      repeat split; intros; try discriminate; try reflexivity; try tauto;
      try (exfalso; lra);
      try (destruct H; discriminate).
  - repeat split; intros; try discriminate; try tauto.
    destruct H; discriminate.
Qed.

(** C5.  [resolveVerdict] returns TRUSTED exactly for a Number above
    700, CAUTION exactly for a Number from 400 to 700 (both included),
    DANGEROUS exactly for a Number below 400, and UNKNOWN exactly for a
    value that is no Number or is NaN; 700 and 400 are CAUTION, 701 is
    TRUSTED and 399 is DANGEROUS. *)
Theorem resolveVerdict_classification :
  (forall score,
     (resolveVerdict score = "TRUSTED"
      <-> exists n, score = JNumber n
                    /\ JsNumber.gt n (JsNumber.of_Z 700) = true)
     /\ (resolveVerdict score = "CAUTION"
         <-> exists n, score = JNumber n
                       /\ JsNumber.ge n (JsNumber.of_Z 400) = true
                       /\ JsNumber.le n (JsNumber.of_Z 700) = true)
     /\ (resolveVerdict score = "DANGEROUS"
         <-> exists n, score = JNumber n
                       /\ JsNumber.lt n (JsNumber.of_Z 400) = true)
     /\ (resolveVerdict score = "UNKNOWN" <-> is_numeric score = false))
  /\ resolveVerdict (JNumber (JsNumber.of_Z 700)) = "CAUTION"
  /\ resolveVerdict (JNumber (JsNumber.of_Z 701)) = "TRUSTED"
  /\ resolveVerdict (JNumber (JsNumber.of_Z 400)) = "CAUTION"
  /\ resolveVerdict (JNumber (JsNumber.of_Z 399)) = "DANGEROUS".
Proof.
  split; [| repeat split].
  intros score.
  assert (Hother : forall v, (forall n, v <> JNumber n) ->
    forall P : JsNumber.number -> Prop,
      ~ exists n, v = JNumber n /\ P n).
  { intros v Hv P (n & Heq & _). exact (Hv n Heq). }
  destruct score as [| | b | n | z | s |];
    try (repeat split; intros H; try discriminate H; try reflexivity;
         exfalso; revert H; apply Hother; discriminate).
  destruct (JsNumber.is_nan n) eqn:Hnan.
  - destruct n; try discriminate Hnan.
    repeat split; intros H; try discriminate H; try reflexivity;
      destruct H as (n & Heq & H); inversion Heq; subst n;
      try discriminate H; destruct H; discriminate.
  - destruct (verdict_of_number n Hnan) as (Ht & Hc & Hd).
    split; [| split; [| split]].
    + rewrite Ht. split; [eauto |].
      intros (m & Heq & H). inversion Heq; subst. exact H.
    + rewrite Hc. split; [eauto |].
      intros (m & Heq & H). inversion Heq; subst. exact H.
    + rewrite Hd. split; [eauto |].
      intros (m & Heq & H). inversion Heq; subst. exact H.
    + cbn [is_numeric]. rewrite Hnan. cbn. unfold resolveVerdict.
      rewrite Hnan.
      destruct (JsNumber.gt n _); [split; discriminate |].
      destruct (JsNumber.ge n _); split; discriminate.
Qed.

(** ** Route matching *)

Lemma split_not_nil (sep : ascii) (s : string) : JsString.split sep s <> [].
Proof.
  induction s as [| c r IH]; cbn; [discriminate |].
  destruct (Ascii.eqb c sep); [discriminate |].
  destruct (JsString.split sep r); discriminate.
Qed.

Lemma segments_cut (s : string) :
  segments s
  = match cut_slash s with
    | (first, None) => [first]
    | (first, Some rest) => first :: segments rest
    end.
Proof.
  unfold segments. induction s as [| c r IH]; [reflexivity |].
  cbn [JsString.split cut_slash].
  destruct (Ascii.eqb c "/"); [reflexivity |].
  rewrite IH. destruct (cut_slash r) as [first [rest |]]; reflexivity.
Qed.

Lemma cut_slash_rest_shorter (s first rest : string) :
  cut_slash s = (first, Some rest) ->
  (String.length rest < String.length s)%nat.
Proof.
  revert first. induction s as [| c r IH]; intros first; cbn; [discriminate |].
  destruct (Ascii.eqb c "/").
  - intros H. inversion H; subst. lia.
  - destruct (cut_slash r) as [f [rest' |]] eqn:Hcut; intros H;
      inversion H; subst.
    specialize (IH f eq_refl). lia.
Qed.

Lemma cut_slash_first (s first : string) (rest : option string) :
  cut_slash s = (first, rest) -> has_slash first = false.
Proof.
  unfold has_slash. revert first.
  induction s as [| c r IH]; intros first; cbn.
  - intros H. inversion H. reflexivity.
  - destruct (Ascii.eqb c "/") eqn:Hc.
    + intros H. inversion H. reflexivity.
    + destruct (cut_slash r) as [f rest']. intros H. inversion H; subst.
      cbn. rewrite Hc. cbn. apply (IH f eq_refl).
Qed.

(** The items of a pattern follow its cut at the first slash. *)
Lemma pattern_items_cut (in_name : bool) (p : string) :
  match cut_slash p with
  | (first, None) =>
      pattern_items in_name p = pattern_items in_name first
  | (first, Some rest) =>
      pattern_items in_name p
      = (pattern_items in_name first ++ Lit "/" :: pattern_items false rest)%list
  end.
Proof.
  revert in_name. induction p as [| c r IH]; intros in_name; [reflexivity |].
  cbn [cut_slash]. destruct (Ascii.eqb c "/") eqn:Hc.
  - apply Ascii.eqb_eq in Hc. subst c. cbn. rewrite andb_false_r. reflexivity.
  - assert (Hstart : forall first rest, cut_slash r = (first, rest) ->
              starts_with_name first = starts_with_name r).
    { intros first rest Hcut. destruct r as [| d r']; cbn in Hcut.
      - inversion Hcut. reflexivity.
      - destruct (Ascii.eqb d "/") eqn:Hd.
        + inversion Hcut; subst. apply Ascii.eqb_eq in Hd. subst d.
          reflexivity.
        + destruct (cut_slash r') as [f o]. inversion Hcut. reflexivity. }
    destruct (cut_slash r) as [first [rest |]] eqn:Hcut;
      cbn [pattern_items]; rewrite (Hstart _ _ eq_refl);
      pose proof (IH true) as IHt; pose proof (IH false) as IHf;
      destruct (in_name && is_name_char c);
      [ exact IHt | | exact IHt | ];
      destruct (Ascii.eqb c ":" && starts_with_name r); cbn;
      now (rewrite IHt || rewrite IHf).
Qed.

Lemma pattern_items_no_slash (in_name : bool) (p : string) :
  has_slash p = false ->
  existsb is_slash_item (pattern_items in_name p) = false.
Proof.
  unfold has_slash. revert in_name.
  induction p as [| c r IH]; intros in_name; [reflexivity |].
  cbn [all_chars pattern_items]. intros H.
  apply negb_false_iff, andb_true_iff in H. destruct H as [Hc Hr].
  assert (Hr' : negb (all_chars (fun c => negb (Ascii.eqb c "/")) r) = false)
    by (now rewrite Hr).
  destruct (in_name && is_name_char c); [now apply IH |].
  destruct (Ascii.eqb c ":" && starts_with_name r); cbn.
  - now apply IH.
  - apply negb_true_iff in Hc. rewrite Hc. now apply IH.
Qed.

Lemma not_slash_plus_ext (k k' : string -> bool) (s : string) :
  (forall r, k r = k' r) -> not_slash_plus k s = not_slash_plus k' s.
Proof.
  intros Hk. induction s as [| c r IH]; [reflexivity |].
  cbn. rewrite Hk, IH. reflexivity.
Qed.

(** An expression with a literal slash in it matches a path cut at its
    first slash, part by part. *)
Lemma regex_test_cut (items1 items2 : regex) (s : string) :
  existsb is_slash_item items1 = false ->
  regex_test (items1 ++ Lit "/" :: items2)%list s
  = match cut_slash s with
    | (first, Some rest) => regex_test items1 first && regex_test items2 rest
    | (_, None) => false
    end.
Proof.
  revert s. induction items1 as [| item items1 IH]; intros s Hfree.
  - destruct s as [| c r]; [reflexivity |]. cbn.
    destruct (Ascii.eqb c "/"); [reflexivity |].
    destruct (cut_slash r) as [first [rest |]]; reflexivity.
  - cbn in Hfree. apply orb_false_iff in Hfree. destruct Hfree as [Hitem Hfree].
    destruct item as [c |].
    + cbn in Hitem. destruct s as [| d r]; [reflexivity |].
      cbn [List.app regex_test cut_slash]. rewrite (IH r Hfree).
      destruct (Ascii.eqb d "/") eqn:Hd.
      * apply Ascii.eqb_eq in Hd. subst d.
        rewrite Ascii.eqb_sym, Hitem. reflexivity.
      * destruct (cut_slash r) as [first [rest |]]; cbn.
        -- apply andb_assoc.
        -- apply andb_false_r.
    + cbn [List.app regex_test].
      rewrite (not_slash_plus_ext _
                 (fun r => match cut_slash r with
                           | (first, Some rest) =>
                               regex_test items1 first && regex_test items2 rest
                           | (_, None) => false
                           end))
        by (intros r; apply IH; exact Hfree).
      clear IH. induction s as [| d r IHs]; [reflexivity |].
      cbn [not_slash_plus cut_slash]. rewrite IHs.
      destruct (Ascii.eqb d "/") eqn:Hd; [reflexivity |].
      destruct (cut_slash r) as [first [rest |]];
        cbn [regex_test not_slash_plus negb andb orb]; rewrite ?Hd;
        cbn [negb andb orb]; [| reflexivity].
      destruct (regex_test items1 first), (regex_test items2 rest),
        (not_slash_plus (regex_test items1) first); reflexivity.
Qed.

(** An expression without literal slash matches no path with a slash. *)
Lemma regex_test_no_slash (items : regex) (s first rest : string) :
  existsb is_slash_item items = false ->
  cut_slash s = (first, Some rest) ->
  regex_test items s = false.
Proof.
  revert s first rest. induction items as [| item items IH];
    intros s first rest Hfree Hcut.
  - destruct s; [discriminate | reflexivity].
  - cbn in Hfree. apply orb_false_iff in Hfree. destruct Hfree as [Hitem Hfree].
    destruct item as [c |].
    + destruct s as [| d r]; [reflexivity |]. cbn in Hcut |- *.
      destruct (Ascii.eqb d "/") eqn:Hd.
      * apply Ascii.eqb_eq in Hd. subst d. cbn in Hitem.
        rewrite Ascii.eqb_sym, Hitem. reflexivity.
      * destruct (cut_slash r) as [f [rest' |]] eqn:Hr; inversion Hcut; subst.
        rewrite (IH r f rest Hfree Hr). apply andb_false_r.
    + cbn [regex_test]. revert first Hcut.
      induction s as [| d r IHs]; intros first Hcut; [reflexivity |].
      cbn in Hcut |- *. destruct (Ascii.eqb d "/"); [reflexivity |].
      destruct (cut_slash r) as [f [rest' |]] eqn:Hr; inversion Hcut; subst.
      rewrite (IH r f rest Hfree Hr), (IHs f eq_refl). reflexivity.
Qed.

Lemma cut_slash_none (s first : string) :
  cut_slash s = (first, None) -> first = s.
Proof.
  revert first. induction s as [| c r IH]; intros first; cbn.
  - intros H. now inversion H.
  - destruct (Ascii.eqb c "/"); [discriminate |].
    destruct (cut_slash r) as [f [rest |]]; intros H; inversion H; subst.
    f_equal. now apply IH.
Qed.

(** The compiled expression of a pattern matches a path exactly when
    their segments align one to one. *)
Lemma regex_test_aligned (pattern path : string) :
  regex_test (pattern_items false pattern) path = aligned pattern path.
Proof.
  remember (String.length pattern) as n eqn:Hn.
  revert pattern path Hn.
  induction n as [n IH] using lt_wf_ind. intros pattern path Hn.
  unfold aligned. rewrite (segments_cut pattern), (segments_cut path).
  pose proof (pattern_items_cut false pattern) as Hitems.
  destruct (cut_slash pattern) as [p1 [p2 |]] eqn:Hp.
  - rewrite Hitems.
    rewrite regex_test_cut
      by (apply pattern_items_no_slash; eapply cut_slash_first; eassumption).
    destruct (cut_slash path) as [s1 [s2 |]] eqn:Hs; cbn [forall2b].
    + unfold segment_matches at 1. f_equal.
      apply (IH (String.length p2)); [| reflexivity].
      subst n. eapply cut_slash_rest_shorter; eassumption.
    + pose proof (split_not_nil "/" p2) as Hne. unfold segments.
      destruct (JsString.split "/" p2); [contradiction |].
      symmetry. apply andb_false_r.
  - pose proof (cut_slash_first _ _ _ Hp) as Hfree.
    apply cut_slash_none in Hp. subst p1.
    destruct (cut_slash path) as [s1 [s2 |]] eqn:Hs; cbn [forall2b].
    + pose proof (split_not_nil "/" s2) as Hne. unfold segments.
      destruct (JsString.split "/" s2); [contradiction |].
      rewrite andb_false_r.
      eapply regex_test_no_slash; [| eassumption].
      apply pattern_items_no_slash. exact Hfree.
    + apply cut_slash_none in Hs. subst s1. unfold segment_matches.
      now rewrite andb_true_r.
Qed.

Lemma forall2b_length {A B : Type} (p : A -> B -> bool) (l : list A)
    (l' : list B) :
  forall2b p l l' = true -> List.length l = List.length l'.
Proof.
  revert l'. induction l as [| a r IH]; intros [| b r']; cbn;
    try discriminate; [reflexivity |].
  intros H. apply andb_true_iff in H. f_equal. now apply IH.
Qed.

Lemma segments_no_slash (path : string) :
  Forall (fun segment => has_slash segment = false) (segments path).
Proof.
  remember (String.length path) as n eqn:Hn. revert path Hn.
  induction n as [n IH] using lt_wf_ind. intros path Hn.
  rewrite segments_cut.
  destruct (cut_slash path) as [first [rest |]] eqn:Hcut.
  - constructor; [eapply cut_slash_first; eassumption |].
    apply (IH (String.length rest)); [| reflexivity].
    subst n. eapply cut_slash_rest_shorter; eassumption.
  - constructor; [eapply cut_slash_first; eassumption | constructor].
Qed.

Lemma pattern_items_name (name : string) :
  all_chars is_name_char name = true -> pattern_items true name = [].
Proof.
  induction name as [| c r IH]; [reflexivity |]. cbn.
  intros H. apply andb_true_iff in H. destruct H as [Hc Hr].
  rewrite Hc. now apply IH.
Qed.

Lemma not_slash_plus_end (s : string) :
  not_slash_plus (regex_test []) s
  = negb (String.eqb s "") && negb (has_slash s).
Proof.
  unfold has_slash. induction s as [| c r IH]; [reflexivity |].
  cbn [not_slash_plus all_chars]. rewrite IH. cbn [regex_test].
  destruct (Ascii.eqb c "/"); cbn; [reflexivity |].
  rewrite negb_involutive. destruct r; reflexivity.
Qed.

(** A placeholder segment matches exactly the non-empty segments. *)
Lemma placeholder_segment (pattern_segment segment : string) :
  is_placeholder pattern_segment = true ->
  has_slash segment = false ->
  segment_matches pattern_segment segment = negb (String.eqb segment "").
Proof.
  intros Hplace Hfree. unfold segment_matches.
  destruct pattern_segment as [| c name]; [discriminate |].
  cbn in Hplace. destruct (Ascii.eqb c ":") eqn:Hc.
  2:{ exfalso. revert Hplace. clear -Hc.
      destruct c as [[] [] [] [] [] [] [] []]; cbn in *;
        discriminate. }
  apply Ascii.eqb_eq in Hc. subst c.
  apply andb_true_iff in Hplace. destruct Hplace as [Hne Hname].
  assert (Hstart : starts_with_name name = true).
  { destruct name as [| d r]; [discriminate |]. cbn in Hname |- *.
    now apply andb_true_iff in Hname. }
  cbn [pattern_items andb]. change (Ascii.eqb ":" ":") with true.
  rewrite Hstart. cbn [andb]. rewrite pattern_items_name by exact Hname.
  cbn [regex_test]. rewrite not_slash_plus_end, Hfree. apply andb_true_r.
Qed.

(** A segment without placeholder matches only itself. *)
Lemma literal_segment (pattern_segment segment : string) :
  placeholder_free pattern_segment = true ->
  segment_matches pattern_segment segment
  = String.eqb pattern_segment segment.
Proof.
  unfold segment_matches. revert segment.
  induction pattern_segment as [| c r IH]; intros segment Hfree.
  - destruct segment; reflexivity.
  - cbn in Hfree. apply andb_true_iff in Hfree. destruct Hfree as [Hc Hr].
    apply negb_true_iff in Hc. cbn [pattern_items andb]. rewrite Hc.
    destruct segment as [| d r']; [reflexivity |].
    cbn [regex_test String.eqb]. rewrite (IH r' Hr), Ascii.eqb_sym.
    reflexivity.
Qed.

Lemma find_map_some {A B : Type} (f : B -> bool) (g : A -> B) (l : list A) :
  (forall b, find f (map g l) = Some b ->
     exists a, In a l /\ b = g a /\ f b = true)
  /\ ((exists a, In a l /\ f (g a) = true) ->
      exists b, find f (map g l) = Some b).
Proof.
  split.
  - intros b Hfind. apply find_some in Hfind. destruct Hfind as [Hin Hf].
    apply in_map_iff in Hin. destruct Hin as (a & Heq & Hin). eauto.
  - intros (a & Hin & Hf).
    destruct (find f (map g l)) as [b |] eqn:Hfind; [eauto |].
    exfalso. pose proof (find_none _ _ Hfind (g a) (in_map g l a Hin)) as Hnone.
    congruence.
Qed.

(** C9.  The compiled table is the declared table with every pattern
    compiled, and [matchPaidRoute] returns a rule exactly when some
    declared pattern has the request's method (both upper-cased) and
    segments that align one to one with those of the request path: the
    same number of segments, a placeholder segment against any non-empty
    segment, a segment without placeholder against itself only.  For a
    request whose method is already upper case the comparison is with the
    request's method as it is. *)
Theorem matchPaidRoute_alignment (formatUsdPrice : string -> string)
    (routeConfig : list (string * RouteConfig)) (req : Request) :
  let paidRoutes := map (compiled_route formatUsdPrice) routeConfig in
  buildPaidRoutes formatUsdPrice routeConfig = Ok paidRoutes
  /\ (forall route, matchPaidRoute req paidRoutes = Some route ->
        exists entry, In entry routeConfig
                      /\ route = compiled_route formatUsdPrice entry
                      /\ entry_matches entry req)
  /\ ((exists entry, In entry routeConfig /\ entry_matches entry req) ->
      exists route, matchPaidRoute req paidRoutes = Some route)
  /\ (JsString.toUpperCase (req_method req) = req_method req ->
      ((exists route, matchPaidRoute req paidRoutes = Some route)
       <-> exists entry,
             In entry routeConfig
             /\ JsString.toUpperCase (key_method (fst entry)) = req_method req
             /\ aligned (key_path (fst entry)) (req_path req) = true))
  /\ (forall pattern,
        aligned pattern (req_path req) = true ->
        List.length (segments pattern) = List.length (segments (req_path req)))
  /\ Forall (fun segment => has_slash segment = false) (segments (req_path req))
  /\ (forall pattern_segment segment,
        is_placeholder pattern_segment = true ->
        has_slash segment = false ->
        segment_matches pattern_segment segment = negb (String.eqb segment ""))
  /\ (forall pattern_segment segment,
        placeholder_free pattern_segment = true ->
        segment_matches pattern_segment segment
        = String.eqb pattern_segment segment).
Proof.
  cbv zeta.
  assert (Hcond : forall entry,
    (String.eqb (route_method (compiled_route formatUsdPrice entry))
       (JsString.toUpperCase (req_method req))
     && regex_test (route_regex (compiled_route formatUsdPrice entry))
          (req_path req)) = true
    <-> entry_matches entry req).
  { intros entry. unfold entry_matches. cbn [compiled_route route_method route_regex].
    rewrite andb_true_iff, String.eqb_eq, regex_test_aligned. reflexivity. }
  destruct (find_map_some
              (fun route =>
                 String.eqb (route_method route)
                   (JsString.toUpperCase (req_method req))
                 && regex_test (route_regex route) (req_path req))
              (compiled_route formatUsdPrice) routeConfig) as [Hsome Hexists].
  assert (Hfound : forall route,
    matchPaidRoute req (map (compiled_route formatUsdPrice) routeConfig)
      = Some route ->
    exists entry, In entry routeConfig
                  /\ route = compiled_route formatUsdPrice entry
                  /\ entry_matches entry req).
  { intros route Hfind. destruct (Hsome route Hfind) as (entry & Hin & Heq & Hf).
    exists entry. subst route. rewrite Hcond in Hf. auto. }
  assert (Hfinds :
    (exists entry, In entry routeConfig /\ entry_matches entry req) ->
    exists route,
      matchPaidRoute req (map (compiled_route formatUsdPrice) routeConfig)
      = Some route).
  { intros (entry & Hin & Hmatch). apply Hexists. exists entry.
    rewrite Hcond. auto. }
  split; [apply buildPaidRoutes_ok |].
  split; [exact Hfound |]. split; [exact Hfinds |].
  split; [| split; [| split; [| split]]].
  - intros Hupper. unfold entry_matches in *. rewrite Hupper in *. split.
    + intros (route & Hfind). destruct (Hfound route Hfind) as (e & ? & _ & ?).
      eauto.
    + exact Hfinds.
  - intros pattern. apply forall2b_length.
  - apply segments_no_slash.
  - apply placeholder_segment.
  - apply literal_segment.
Qed.


Lemma matchPaidRoute_alignment_witness :
  JsString.toUpperCase (req_method authorized_request)
    = req_method authorized_request
  /\ exists route,
       matchPaidRoute authorized_request
         (map (compiled_route (fun p => p)) [score_route]) = Some route.
Proof.
  split; [reflexivity |].
  destruct (matchPaidRoute_alignment (fun p => p) [score_route]
              authorized_request) as (_ & _ & _ & Hupper & _).
  apply Hupper; [reflexivity |].
  exists score_route. repeat split. left. reflexivity.
Defined.

(** ** Risk factors and trend *)

Lemma buildRiskReport_negativeRateBps (record : FeedbackRecord)
    (cfg : ScoringConfig) (pollIntervalMs : JsNumber.number) (nowMs : Z) :
  negativeRateBps (buildRiskReport record cfg pollIntervalMs nowMs)
  = if (totalFeedback record =? 0)%Z then JsNumber.of_Z 0
    else negative_rate_bps (totalFeedback record) (positiveFeedback record).
Proof. reflexivity. Qed.

(** C8.  The risk factors are, in this order and with nothing else:
    [low_feedback_volume] when the total is below the confidence
    threshold, [high_negative_feedback_ratio] when the record is
    flagged, [low_trust_score] when the score is below 500; the record is
    flagged exactly when the total is positive and the negative rate
    exceeds the configured threshold.  Hence each factor is present
    exactly under its condition, and none occurs twice. *)
Theorem buildRiskReport_riskFactors (record : FeedbackRecord)
    (cfg : ScoringConfig) (pollIntervalMs : JsNumber.number) (nowMs : Z) :
  let report := buildRiskReport record cfg pollIntervalMs nowMs in
  riskFactors report
  = ((if (totalFeedback record <? confidenceThresholdFeedbackCount cfg)%Z
      then ["low_feedback_volume"] else [])
     ++ (if flagged report then ["high_negative_feedback_ratio"] else [])
     ++ (if (score record <? 500)%Z then ["low_trust_score"] else []))%list
  /\ flagged report
     = ((totalFeedback record >? 0)%Z
        && JsNumber.gt (negativeRateBps report)
             (JsNumber.of_Z (negativeFlagThresholdBps cfg)))
  /\ (In "low_feedback_volume" (riskFactors report)
      <-> (totalFeedback record < confidenceThresholdFeedbackCount cfg)%Z)
  /\ (In "high_negative_feedback_ratio" (riskFactors report)
      <-> flagged report = true)
  /\ (In "low_trust_score" (riskFactors report) <-> (score record < 500)%Z)
  /\ (forall factor, In factor (riskFactors report) ->
        In factor ["low_feedback_volume"; "high_negative_feedback_ratio";
                   "low_trust_score"])
  /\ NoDup (riskFactors report).
Proof.
  cbv zeta. split; [reflexivity |]. split; [reflexivity |].
  unfold buildRiskReport. cbn [riskFactors flagged].
  set (is_flagged := ((totalFeedback record >? 0)%Z && _)).
  rewrite <- (Z.ltb_lt (totalFeedback record)), <- (Z.ltb_lt (score record)).
  destruct (totalFeedback record <? confidenceThresholdFeedbackCount cfg)%Z,
    is_flagged, (score record <? 500)%Z; cbn;
    repeat split; intros; try discriminate; try tauto;
    repeat match goal with
           | H : _ \/ _ |- _ => destruct H
           | H : False |- _ => destruct H
           | H : ?a = ?b |- _ => discriminate H
           end;
    auto 6;
    repeat constructor; cbn; intuition discriminate.
Qed.

Lemma max_zero_not_negative (x : JsNumber.number) :
  JsNumber.lt (JsNumber.max (JsNumber.of_Z 0) x) (JsNumber.of_Z 0) = false.
Proof.
  unfold JsNumber.max.
  destruct (JsNumber.compare (JsNumber.of_Z 0) x) as [[] |] eqn:Hcompare;
    try reflexivity.
  unfold JsNumber.lt.
  rewrite (number_compare_antisym (JsNumber.of_Z 0) x), Hcompare.
  reflexivity.
Qed.

(** C7.  The trend is [stale] whenever the age of the record, not below
    zero, exceeds twice the poll interval in seconds, whatever the risk
    factors are; otherwise it is [stable] without risk factors and
    [caution] with some.  An age that would be negative is zero. *)
Theorem buildRiskReport_recentTrend (record : FeedbackRecord)
    (cfg : ScoringConfig) (pollIntervalMs : JsNumber.number) (nowMs : Z) :
  let report := buildRiskReport record cfg pollIntervalMs nowMs in
  let stale :=
    JsNumber.gt (age_seconds record nowMs) (stale_after pollIntervalMs) in
  recentTrend report
  = (if stale then "stale"
     else if (List.length (riskFactors report) =? 0)%nat then "stable"
          else "caution")
  /\ JsNumber.lt (age_seconds record nowMs) (JsNumber.of_Z 0) = false
  /\ (forall raw_age,
        JsNumber.lt raw_age (JsNumber.of_Z 0) = true ->
        JsNumber.max (JsNumber.of_Z 0) raw_age = JsNumber.of_Z 0).
Proof.
  cbv zeta. split; [| split].
  - unfold buildRiskReport, age_seconds, stale_after.
    cbn [recentTrend riskFactors].
    destruct (JsNumber.gt _ _); [reflexivity |].
    destruct (_ ++ _)%list; reflexivity.
  - apply max_zero_not_negative.
  - intros raw_age. unfold JsNumber.max, JsNumber.lt.
    rewrite (number_compare_antisym raw_age (JsNumber.of_Z 0)).
    destruct (JsNumber.compare raw_age (JsNumber.of_Z 0)) as [[] |];
      cbn; try discriminate. reflexivity.
Qed.

(** ** Rounding to binary64 *)

Open Scope Z_scope.

Lemma iter_pos_nat {A : Type} (f : A -> A) (n : positive) (x : A) :
  iter_pos f n x = Nat.iter (Pos.to_nat n) f x.
Proof.
  revert x. induction n as [n IH | n IH |]; intros x; cbn [iter_pos].
  - rewrite !IH, Pos2Nat.inj_xI.
    replace (S (2 * Pos.to_nat n))%nat with (Pos.to_nat n + S (Pos.to_nat n))%nat
      by lia.
    rewrite Nat.iter_add. f_equal. symmetry. apply Nat.iter_succ_r.
  - rewrite !IH, Pos2Nat.inj_xO.
    replace (2 * Pos.to_nat n)%nat with (Pos.to_nat n + Pos.to_nat n)%nat by lia.
    now rewrite Nat.iter_add.
  - reflexivity.
Qed.

Lemma shr_1_m (mrs : shr_record) :
  0 <= shr_m mrs -> shr_m (shr_1 mrs) = shr_m mrs / 2.
Proof.
  destruct mrs as [m r s]. cbn [shr_m]. intros Hm.
  destruct m as [| [p | p |] | p]; cbn [shr_1 shr_m]; try lia.
  - reflexivity.
  - rewrite Pos2Z.inj_xI. apply (Z.div_unique_pos _ _ _ 1); lia.
  - rewrite Pos2Z.inj_xO. apply (Z.div_unique_pos _ _ _ 0); lia.
  - reflexivity.
Qed.

Lemma shr_iter_m (k : nat) (mrs : shr_record) :
  0 <= shr_m mrs ->
  shr_m (Nat.iter k shr_1 mrs) = shr_m mrs / 2 ^ Z.of_nat k.
Proof.
  intros Hm. induction k as [| k IH].
  - cbn. now rewrite Z.div_1_r.
  - change (Nat.iter (S k) shr_1 mrs) with (shr_1 (Nat.iter k shr_1 mrs)).
    rewrite shr_1_m.
    + rewrite IH, Nat2Z.inj_succ, Z.pow_succ_r by lia.
      rewrite Z.div_div by lia. f_equal. lia.
    + rewrite IH. apply Z.div_pos; lia.
Qed.

Lemma shr_record_of_loc_m (m : Z) (l : location) :
  shr_m (shr_record_of_loc m l) = m.
Proof. destruct l as [| []]; reflexivity. Qed.

(** The number of binary digits of a positive number. *)
Lemma digits2_size (p : positive) : digits2_pos p = Pos.size p.
Proof. induction p as [p IH | p IH |]; cbn; now rewrite ?IH. Qed.

Lemma digits2_bounds (p : positive) :
  2 ^ (Zpos (digits2_pos p) - 1) <= Zpos p < 2 ^ Zpos (digits2_pos p).
Proof.
  rewrite digits2_size. split.
  - pose proof (Pos.size_le p) as H.
    assert (H2 : 2 ^ Zpos (Pos.size p) <= 2 * Zpos p).
    { change 2 with (Zpos 2) at 1. rewrite <- Pos2Z.inj_pow. 
      change (2 * Zpos p) with (Zpos p~0). now apply Pos2Z.pos_le_pos. }
    replace (Zpos (Pos.size p)) with (Z.succ (Zpos (Pos.size p) - 1)) in H2 by lia.
    rewrite Z.pow_succ_r in H2 by lia. lia.
  - pose proof (Pos.size_gt p) as H.
    change 2 with (Zpos 2). rewrite <- Pos2Z.inj_pow. now apply Pos2Z.pos_lt_pos.
Qed.

Lemma digits2_unique (p : positive) (k : Z) :
  2 ^ (k - 1) <= Zpos p < 2 ^ k -> Zpos (digits2_pos p) = k.
Proof.
  intros [Hlo Hhi]. pose proof (digits2_bounds p) as [Dlo Dhi].
  assert (Hk : 0 < k).
  { destruct (Z.le_gt_cases k 0) as [Hle |]; [| assumption].
    exfalso. assert (2 ^ k <= 2 ^ 0) by (apply Z.pow_le_mono_r; lia).
    cbn in *. lia. }
  destruct (Z.lt_trichotomy (Zpos (digits2_pos p)) k) as [Hlt | [Heq | Hgt]];
    [| assumption |]; exfalso.
  - assert (2 ^ Zpos (digits2_pos p) <= 2 ^ (k - 1))
      by (apply Z.pow_le_mono_r; lia). lia.
  - assert (2 ^ k <= 2 ^ (Zpos (digits2_pos p) - 1))
      by (apply Z.pow_le_mono_r; lia). lia.
Qed.

Lemma shr_fexp_normal (p : positive) (e : Z) (l : location) :
  53 <= Zpos (digits2_pos p) ->
  -1074 <= Zpos (digits2_pos p) + e - 53 ->
  exists mrs,
    shr_fexp 53 1024 (Zpos p) e l = (mrs, Zpos (digits2_pos p) + e - 53)
    /\ shr_m mrs = Zpos p / 2 ^ (Zpos (digits2_pos p) - 53).
Proof.
  intros Hd Hrange. unfold shr_fexp, fexp, emin. cbn [Zdigits2].
  rewrite Z.max_l by lia.
  replace (Zpos (digits2_pos p) + e - 53 - e) with (Zpos (digits2_pos p) - 53)
    by lia.
  destruct (Zpos (digits2_pos p) - 53) as [| n | n] eqn:Hn; [| | lia].
  - eexists. split.
    + cbn [shr]. f_equal. lia.
    + rewrite shr_record_of_loc_m. now rewrite Z.div_1_r.
  - eexists. split.
    + cbn [shr]. f_equal. lia.
    + rewrite iter_pos_nat, shr_iter_m, shr_record_of_loc_m, positive_nat_Z.
      * reflexivity.
      * rewrite shr_record_of_loc_m. lia.
Qed.

Lemma round_nearest_even_bounds (m : Z) (l : location) :
  m <= round_nearest_even m l <= m + 1.
Proof.
  destruct l as [| []]; cbn; try lia. destruct (Z.even m); lia.
Qed.

Lemma relative_bounds (K m1 m2 r : Z) :
  0 < K -> 0 <= r < K -> 2 ^ 52 <= m1 -> m1 <= m2 <= m1 + 1 ->
  (2 ^ 52 - 1) * (K * m1 + r) <= 2 ^ 52 * (m2 * K)
  <= (2 ^ 52 + 1) * (K * m1 + r).
Proof.
  change (2 ^ 52) with 4503599627370496. intros HK Hr Hm1 Hm2.
  assert (H1 : 4503599627370496 * K <= m1 * K) by nia.
  assert (H2 : m1 * K <= m2 * K) by nia.
  assert (H3 : m2 * K <= m1 * K + K) by nia.
  lia.
Qed.

(** Rounding a mantissa of at least 53 bits, above the subnormal
    range: the result is a normal number (or an infinity) within a
    relative distance of [2^-52] from the value rounded. *)
Lemma round_aux_normal (s : bool) (p : positive) (ex : Z) (lx : location) :
  53 <= Zpos (digits2_pos p) ->
  -1074 <= Zpos (digits2_pos p) + ex - 53 ->
  exists m3 e3,
    binary_round_aux 53 1024 s (Zpos p) ex lx
    = (if e3 <=? 971 then S754_finite s m3 e3 else S754_infinity s)
    /\ 2 ^ 52 <= Zpos m3 < 2 ^ 53
    /\ Zpos (digits2_pos p) + ex - 53 <= e3 <= Zpos (digits2_pos p) + ex - 52
    /\ (2 ^ 52 - 1) * Zpos p <= 2 ^ 52 * (Zpos m3 * 2 ^ (e3 - ex))
       <= (2 ^ 52 + 1) * Zpos p.
Proof.
  intros Hd Hrange. unfold binary_round_aux.
  destruct (shr_fexp_normal p ex lx Hd Hrange) as (mrs & -> & Hm).
  set (d := Zpos (digits2_pos p)) in *.
  set (n := d - 53) in *.
  assert (Hn : 0 <= n) by (unfold n; lia).
  pose proof (digits2_bounds p) as [Plo Phi]. fold d in Plo, Phi.
  assert (HK : 0 < 2 ^ n) by (apply Z.pow_pos_nonneg; lia).
  assert (Hsplit : 2 ^ (d - 1) = 2 ^ 52 * 2 ^ n).
  { rewrite <- Z.pow_add_r by lia. f_equal. unfold n. lia. }
  assert (Hsplit' : 2 ^ d = 2 ^ 53 * 2 ^ n).
  { rewrite <- Z.pow_add_r by lia. f_equal. unfold n. lia. }
  pose proof (Z.div_mod (Zpos p) (2 ^ n) ltac:(lia)) as Hdiv.
  pose proof (Z.mod_pos_bound (Zpos p) (2 ^ n) HK) as Hmod.
  set (m1 := Zpos p / 2 ^ n) in *.
  set (r := Zpos p mod 2 ^ n) in *.
  assert (Hm1 : 2 ^ 52 <= m1 < 2 ^ 53).
  { split.
    - apply Z.div_le_lower_bound; [exact HK |]. lia.
    - apply Z.div_lt_upper_bound; [exact HK |]. lia. }
  pose proof (round_nearest_even_bounds (shr_m mrs) (loc_of_shr_record mrs))
    as Hround.
  assert (H52 : 0 < 2 ^ 52) by reflexivity.
  destruct (round_nearest_even (shr_m mrs) (loc_of_shr_record mrs))
    as [| p2 | p2] eqn:Hm2; rewrite Hm in Hround; [lia | | lia].
  assert (Hd2 : Zpos (digits2_pos p2) = 53 \/ 
                (Zpos (digits2_pos p2) = 54 /\ Zpos p2 = 2 ^ 53)).
  { destruct (Z.eq_dec (Zpos p2) (2 ^ 53)) as [Heq | Hne].
    - right. split; [| exact Heq]. apply digits2_unique. rewrite Heq.
      change (54 - 1) with 53. split; [lia | reflexivity].
    - left. apply digits2_unique. change (53 - 1) with 52. lia. }
  destruct (shr_fexp_normal p2 (d + ex - 53) loc_Exact) as (mrs2 & -> & Hm3);
    [lia | lia |].
  assert (Hpos3 : 2 ^ 52 <= shr_m mrs2 < 2 ^ 53
                  /\ shr_m mrs2 * 2 ^ (Zpos (digits2_pos p2) - 53) = Zpos p2).
  { rewrite Hm3. pose proof (digits2_bounds p2) as [Qlo Qhi].
    destruct Hd2 as [E | [E E']].
    - rewrite E in *. change (53 - 53) with 0. change (53 - 1) with 52 in Qlo.
      rewrite Z.pow_0_r, Z.div_1_r, Z.mul_1_r. lia.
    - rewrite E, E'. vm_compute. intuition discriminate. }
  destruct Hpos3 as [Hb3 Hexact].
  destruct (shr_m mrs2) as [| m3 | m3] eqn:Hm3'; [lia | | lia].
  exists m3, (Zpos (digits2_pos p2) + (d + ex - 53) - 53).
  change (1024 - 53) with 971.
  split; [reflexivity |]. split; [exact Hb3 |]. split; [lia |].
  replace (Zpos (digits2_pos p2) + (d + ex - 53) - 53 - ex)
    with ((Zpos (digits2_pos p2) - 53) + n) by (unfold n; lia).
  rewrite Z.pow_add_r by lia.
  rewrite (Z.mul_assoc (Zpos m3)), Hexact.
  assert (Hr : 0 <= r < 2 ^ n) by exact Hmod.
  assert (Hp : Zpos p = 2 ^ n * m1 + r) by exact Hdiv.
  rewrite Hp. apply relative_bounds; lia.
Qed.

Lemma iter_xO_value (p k : positive) :
  Zpos (Pos.iter xO p k) = Zpos p * 2 ^ Zpos k.
Proof.
  induction k as [| k IH] using Pos.peano_ind.
  - cbn. lia.
  - rewrite Pos.iter_succ, Pos2Z.inj_xO, IH, Pos2Z.inj_succ, Z.pow_succ_r by lia.
    lia.
Qed.

Lemma digits2_shift (p k : positive) :
  Zpos (digits2_pos (Pos.iter xO p k)) = Zpos (digits2_pos p) + Zpos k.
Proof.
  apply digits2_unique. rewrite iter_xO_value.
  pose proof (digits2_bounds p) as [Hlo Hhi].
  replace (Zpos (digits2_pos p) + Zpos k - 1)
    with ((Zpos (digits2_pos p) - 1) + Zpos k) by lia.
  rewrite !Z.pow_add_r by lia.
  assert (0 < 2 ^ Zpos k) by (apply Z.pow_pos_nonneg; lia).
  split; nia.
Qed.

(** [Number(z)] aligns the mantissa of [z] to 53 bits or more before
    rounding. *)
Lemma binary_round_aligned (s : bool) (p : positive) :
  exists mz ez,
    binary_round 53 1024 s p 0
    = binary_round_aux 53 1024 s (Zpos mz) ez loc_Exact
    /\ ez <= 0
    /\ Zpos mz = Zpos p * 2 ^ (- ez)
    /\ Zpos (digits2_pos mz) = Z.max 53 (Zpos (digits2_pos p))
    /\ Zpos (digits2_pos mz) + ez = Zpos (digits2_pos p).
Proof.
  unfold binary_round, shl_align, fexp, emin.
  pose proof (Pos2Z.is_pos (digits2_pos p)) as Hd.
  rewrite Z.add_0_r, Z.max_l by lia. rewrite Z.sub_0_r.
  destruct (Zpos (digits2_pos p) - 53) as [| n | n] eqn:Hn.
  - exists p, 0. cbn [Z.opp]. rewrite Z.pow_0_r.
    split; [reflexivity |]. repeat split; lia.
  - exists p, 0. cbn [Z.opp]. rewrite Z.pow_0_r.
    split; [reflexivity |]. repeat split; lia.
  - exists (Pos.iter xO p n), (Zneg n).
    rewrite digits2_shift, iter_xO_value. cbn [Z.opp].
    split; [reflexivity |].
    rewrite <- Pos2Z.opp_pos in *. pose proof (Pos2Z.is_pos n).
    repeat split; lia.
Qed.

Open Scope Q_scope.

Lemma two_not_zero : ~ 2 == 0.
Proof. discriminate. Qed.

Lemma pow2_pos (e : Z) : 0 < 2 ^ e.
Proof. apply Qpower_0_lt. reflexivity. Qed.

Lemma inject_pow2 (k : Z) : (0 <= k)%Z -> inject_Z (2 ^ k) == 2 ^ k.
Proof. intros Hk. now rewrite Zpower_Qpower. Qed.

(** The value of a finite Number. *)
Lemma finite_value_pow (s : bool) (m : positive) (e : Z) :
  JsNumber.finite_value s m e
  == (if s then - (inject_Z (Zpos m) * 2 ^ e) else inject_Z (Zpos m) * 2 ^ e).
Proof.
  assert (H : JsNumber.finite_value false m e == inject_Z (Zpos m) * 2 ^ e).
  { unfold JsNumber.finite_value. destruct e as [| p | p].
    - cbn [Qpower]. unfold inject_Z. ring.
    - rewrite <- inject_pow2 by lia. rewrite <- inject_Z_mult.
      unfold inject_Z. rewrite Pos2Z.inj_mul, Pos2Z.inj_pow. reflexivity.
    - change (Zneg p) with (- Zpos p)%Z. rewrite Qpower_opp.
      rewrite <- inject_pow2 by lia. rewrite Qmake_Qdiv.
      rewrite Pos2Z.inj_pow. reflexivity. }
  destruct s; [| exact H].
  unfold JsNumber.finite_value in *. cbv zeta in *. now rewrite H.
Qed.

(** Integer bounds on a scaled mantissa, as bounds on values. *)
Lemma scale_bounds (c1 c2 c3 a w : Z) (k ex : Z) :
  (0 <= k)%Z ->
  (c1 * a <= c2 * (w * 2 ^ k) <= c3 * a)%Z ->
  inject_Z c1 * (inject_Z a * 2 ^ ex)
  <= inject_Z c2 * (inject_Z w * 2 ^ (k + ex))
  <= inject_Z c3 * (inject_Z a * 2 ^ ex).
Proof.
  intros Hk [Hlo Hhi].
  rewrite Qpower_plus by exact two_not_zero.
  setoid_replace (2 ^ k) with (inject_Z (2 ^ k))
    by (symmetry; apply inject_pow2; exact Hk).
  pose proof (pow2_pos ex) as Hpos.
  apply Z.le_ge, Z.ge_le in Hlo.
  rewrite Zle_Qle in Hlo, Hhi.
  rewrite !inject_Z_mult in Hlo, Hhi.
  split.
  - setoid_replace (inject_Z c1 * (inject_Z a * 2 ^ ex))
      with ((inject_Z c1 * inject_Z a) * 2 ^ ex) by ring.
    setoid_replace (inject_Z c2 * (inject_Z w * (inject_Z (2 ^ k) * 2 ^ ex)))
      with ((inject_Z c2 * (inject_Z w * inject_Z (2 ^ k))) * 2 ^ ex) by ring.
    apply Qmult_le_compat_r; [exact Hlo | apply Qlt_le_weak, Hpos].
  - setoid_replace (inject_Z c3 * (inject_Z a * 2 ^ ex))
      with ((inject_Z c3 * inject_Z a) * 2 ^ ex) by ring.
    setoid_replace (inject_Z c2 * (inject_Z w * (inject_Z (2 ^ k) * 2 ^ ex)))
      with ((inject_Z c2 * (inject_Z w * inject_Z (2 ^ k))) * 2 ^ ex) by ring.
    apply Qmult_le_compat_r; [exact Hhi | apply Qlt_le_weak, Hpos].
Qed.

(** [round_aux_normal] with values: the result is within a relative
    distance of [2^-52] of the value rounded. *)
Lemma round_aux_value (s : bool) (p : positive) (ex : Z) (lx : location) :
  (53 <= Zpos (digits2_pos p))%Z ->
  (-1074 <= Zpos (digits2_pos p) + ex - 53)%Z ->
  exists m3 e3,
    binary_round_aux 53 1024 s (Zpos p) ex lx
    = (if (e3 <=? 971)%Z then S754_finite s m3 e3 else S754_infinity s)
    /\ (2 ^ 52 <= Zpos m3 < 2 ^ 53)%Z
    /\ (Zpos (digits2_pos p) + ex - 53 <= e3
        <= Zpos (digits2_pos p) + ex - 52)%Z
    /\ inject_Z (2 ^ 52 - 1) * (inject_Z (Zpos p) * 2 ^ ex)
       <= inject_Z (2 ^ 52) * (inject_Z (Zpos m3) * 2 ^ e3)
       <= inject_Z (2 ^ 52 + 1) * (inject_Z (Zpos p) * 2 ^ ex).
Proof.
  intros Hd Hrange.
  destruct (round_aux_normal s p ex lx Hd Hrange)
    as (m3 & e3 & Heq & Hm3 & He3 & Hbounds).
  exists m3, e3.
  split; [exact Heq |]. split; [exact Hm3 |]. split; [exact He3 |].
  replace (2 ^ e3) with (2 ^ ((e3 - ex) + ex)) by (f_equal; lia).
  apply scale_bounds; [lia | exact Hbounds].
Qed.

Lemma digits2_at_most (p : positive) (k : Z) :
  (Zpos p < 2 ^ k)%Z -> (Zpos (digits2_pos p) <= k)%Z.
Proof.
  intros Hp. pose proof (digits2_bounds p) as [Hlo _].
  destruct (Z.le_gt_cases (Zpos (digits2_pos p)) k) as [H | H]; [exact H |].
  exfalso. assert (2 ^ k <= 2 ^ (Zpos (digits2_pos p) - 1))%Z.
  { apply Z.pow_le_mono_r; lia. }
  lia.
Qed.

Lemma digits2_at_least (p : positive) (k : Z) :
  (2 ^ (k - 1) <= Zpos p)%Z -> (k <= Zpos (digits2_pos p))%Z.
Proof.
  intros Hp. pose proof (digits2_bounds p) as [_ Hhi].
  destruct (Z.le_gt_cases k (Zpos (digits2_pos p))) as [H | H]; [exact H |].
  exfalso. assert (2 ^ Zpos (digits2_pos p) <= 2 ^ (k - 1))%Z.
  { apply Z.pow_le_mono_r; lia. }
  lia.
Qed.

(** [Number(z)] for a positive [z] below [2^256]: a normal number
    within a relative distance of [2^-52] of [z]. *)
Lemma of_Z_normal (z : Z) :
  (0 < z < 2 ^ 256)%Z ->
  exists v,
    normal_number (JsNumber.of_Z z) v (-52) 204
    /\ inject_Z (2 ^ 52 - 1) * inject_Z z <= inject_Z (2 ^ 52) * v
       <= inject_Z (2 ^ 52 + 1) * inject_Z z.
Proof.
  intros [Hpos Hlt]. destruct z as [| p | p]; try lia.
  unfold JsNumber.of_Z, binary_normalize, JsNumber.prec, JsNumber.emax.
  destruct (binary_round_aligned false p)
    as (mz & ez & -> & Hez & Hmz & Hdz & Hsum).
  destruct (round_aux_value false mz ez loc_Exact)
    as (m3 & e3 & -> & Hm3 & He3 & Hbounds); [lia | lia |].
  pose proof (digits2_at_most p 256 Hlt) as Hd.
  pose proof (Pos2Z.is_pos (digits2_pos p)) as Hd0.
  replace (e3 <=? 971)%Z with true by (symmetry; apply Z.leb_le; lia).
  exists (inject_Z (Zpos m3) * 2 ^ e3). split.
  - exists m3, e3. repeat split; try lia. 
  - assert (Hvalue : inject_Z (Zpos mz) * 2 ^ ez == inject_Z (Zpos p)).
    { rewrite Hmz, inject_Z_mult, inject_pow2 by lia.
      rewrite <- Qmult_assoc, <- Qpower_plus by exact two_not_zero.
      replace (- ez + ez)%Z with 0%Z by lia. cbn [Qpower]. ring. }
    rewrite Hvalue in Hbounds. exact Hbounds.
Qed.

Lemma normal_number_digits (m : positive) :
  (2 ^ 52 <= Zpos m < 2 ^ 53)%Z -> Zpos (digits2_pos m) = 53%Z.
Proof. intros H. apply digits2_unique. exact H. Qed.

Lemma normal_number_positive (x : JsNumber.number) (v : Q) (lo hi : Z) :
  normal_number x v lo hi -> 0 < v.
Proof.
  intros (m & e & _ & _ & _ & ->).
  apply Qmult_lt_0_compat; [reflexivity | apply pow2_pos].
Qed.

(** The quotient of two normal numbers exceeds their exact quotient by
    at most a relative [2^-52]. *)
Lemma div_normal (a b : JsNumber.number) (va vb : Q) (la ha lb hb : Z) :
  normal_number a va la ha ->
  normal_number b vb lb hb ->
  (-1074 <= la - hb - 53)%Z ->
  (ha - lb - 51 <= 971)%Z ->
  exists v,
    normal_number (JsNumber.div a b) v (la - hb - 53) (ha - lb - 51)
    /\ inject_Z (2 ^ 52) * (v * vb) <= inject_Z (2 ^ 52 + 1) * va.
Proof.
  intros (ma & ea & -> & Hma & Hea & Hva) (mb & eb & -> & Hmb & Heb & Hvb)
    Hlow Hhigh.
  unfold JsNumber.div, SFdiv, SFdiv_core_binary, fexp, emin,
    JsNumber.prec, JsNumber.emax.
  cbn [Zdigits2 xorb].
  rewrite (normal_number_digits ma Hma), (normal_number_digits mb Hmb).
  replace (53 + ea - (53 + eb))%Z with (ea - eb)%Z by lia.
  rewrite Z.max_l by lia. rewrite Z.min_l by lia.
  replace (ea - eb - (ea - eb - 53))%Z with 53%Z by lia.
  rewrite Z.shiftl_mul_pow2 by lia.
  pose proof (Z.div_eucl_eq (Zpos ma * 2 ^ 53) (Zpos mb) ltac:(lia)) as Heucl.
  pose proof (Z.mod_pos_bound (Zpos ma * 2 ^ 53) (Zpos mb) ltac:(lia)) as Hmod.
  unfold Z.modulo in Hmod.
  destruct (Z.div_eucl (Zpos ma * 2 ^ 53) (Zpos mb)) as [q r].
  assert (Hq : (2 ^ 52 <= q < 2 ^ 54)%Z).
  { change (2 ^ 52)%Z with 4503599627370496%Z in *.
    change (2 ^ 53)%Z with 9007199254740992%Z in *.
    change (2 ^ 54)%Z with 18014398509481984%Z. nia. }
  destruct q as [| q | q]; try lia.
  assert (Hdq : (53 <= Zpos (digits2_pos q) <= 54)%Z).
  { split; [apply digits2_at_least | apply digits2_at_most]; lia. }
  destruct (round_aux_value false q (ea - eb - 53) (new_location (Zpos mb) r))
    as (m3 & e3 & -> & Hm3 & He3 & _ & Hupper); [lia | lia |].
  replace (e3 <=? 971)%Z with true by (symmetry; apply Z.leb_le; lia).
  exists (inject_Z (Zpos m3) * 2 ^ e3). split.
  - exists m3, e3. repeat split; lia.
  - assert (Hvb0 : 0 < vb).
    { rewrite Hvb. apply Qmult_lt_0_compat; [reflexivity | apply pow2_pos]. }
    assert (Hquot :
      inject_Z (Zpos q) * 2 ^ (ea - eb - 53) * vb <= va).
    { rewrite Hva, Hvb.
      setoid_replace (inject_Z (Zpos q) * 2 ^ (ea - eb - 53)
                      * (inject_Z (Zpos mb) * 2 ^ eb))
        with (inject_Z (Zpos q * Zpos mb) * (2 ^ (ea - eb - 53) * 2 ^ eb))
        by (rewrite inject_Z_mult; ring).
      rewrite <- Qpower_plus by exact two_not_zero.
      replace (ea - eb - 53 + eb)%Z with (- (53) + ea)%Z by lia.
      rewrite Qpower_plus by exact two_not_zero.
      setoid_replace (inject_Z (Zpos ma) * 2 ^ ea)
        with (inject_Z (Zpos ma * 2 ^ 53) * (2 ^ (- (53)) * 2 ^ ea)).
      - rewrite !Qmult_assoc. apply Qmult_le_compat_r;
          [| apply Qlt_le_weak, pow2_pos].
        apply Qmult_le_compat_r; [| apply Qlt_le_weak, pow2_pos].
        rewrite <- Zle_Qle. lia.
      - rewrite inject_Z_mult, inject_pow2 by lia.
        rewrite Qpower_opp. field. }
    setoid_replace (inject_Z (2 ^ 52) * (inject_Z (Zpos m3) * 2 ^ e3 * vb))
      with (inject_Z (2 ^ 52) * (inject_Z (Zpos m3) * 2 ^ e3) * vb) by ring.
    apply Qle_trans
      with (inject_Z (2 ^ 52 + 1)
            * (inject_Z (Zpos q) * 2 ^ (ea - eb - 53)) * vb).
    + apply Qmult_le_compat_r; [exact Hupper | apply Qlt_le_weak, Hvb0].
    + rewrite <- !Qmult_assoc.
      apply Qmult_le_l; [reflexivity |].
      rewrite Qmult_assoc. exact Hquot.
Qed.

(** The product of two normal numbers exceeds their exact product by at
    most a relative [2^-52]. *)
Lemma mul_normal (a b : JsNumber.number) (va vb : Q) (la ha lb hb : Z) :
  normal_number a va la ha ->
  normal_number b vb lb hb ->
  (-1074 <= la + lb + 52)%Z ->
  (ha + hb + 54 <= 971)%Z ->
  exists v,
    normal_number (JsNumber.mul a b) v (la + lb + 52) (ha + hb + 54)
    /\ inject_Z (2 ^ 52) * v <= inject_Z (2 ^ 52 + 1) * (va * vb).
Proof.
  intros (ma & ea & -> & Hma & Hea & Hva) (mb & eb & -> & Hmb & Heb & Hvb)
    Hlow Hhigh.
  unfold JsNumber.mul, SFmul, JsNumber.prec, JsNumber.emax. cbn [xorb].
  assert (Hprod : (2 ^ 104 <= Zpos (ma * mb) < 2 ^ 106)%Z).
  { rewrite Pos2Z.inj_mul.
    change (2 ^ 52)%Z with 4503599627370496%Z in *.
    change (2 ^ 53)%Z with 9007199254740992%Z in *.
    change (2 ^ 104)%Z with (4503599627370496 * 4503599627370496)%Z.
    change (2 ^ 106)%Z with (9007199254740992 * 9007199254740992)%Z. nia. }
  assert (Hd : (105 <= Zpos (digits2_pos (ma * mb)) <= 106)%Z).
  { split; [apply digits2_at_least | apply digits2_at_most]; lia. }
  destruct (round_aux_value false (ma * mb) (ea + eb) loc_Exact)
    as (m3 & e3 & -> & Hm3 & He3 & _ & Hupper); [lia | lia |].
  replace (e3 <=? 971)%Z with true by (symmetry; apply Z.leb_le; lia).
  exists (inject_Z (Zpos m3) * 2 ^ e3). split.
  - exists m3, e3. repeat split; lia.
  - setoid_replace (va * vb)
      with (inject_Z (Zpos (ma * mb)) * 2 ^ (ea + eb)); [exact Hupper |].
    rewrite Hva, Hvb, Pos2Z.inj_mul, inject_Z_mult.
    rewrite Qpower_plus by exact two_not_zero. ring.
Qed.

(** The rate of negative feedback, before [Math.round], stays below
    10000.5 when the negative count is at most the total. *)
Lemma rate_below (negative total : Z) :
  (0 < negative <= total)%Z -> (total < 2 ^ 256)%Z ->
  exists v,
    normal_number
      (JsNumber.mul
         (JsNumber.div (JsNumber.of_Z negative) (JsNumber.of_Z total))
         (JsNumber.of_Z 10000))
      v (-296) 220
    /\ v < 20001 # 2.
Proof.
  intros [Hneg Hle] Htotal.
  destruct (of_Z_normal negative) as (va & Ha & _ & Hva); [lia |].
  destruct (of_Z_normal total) as (vb & Hb & Hvb & _); [lia |].
  destruct (div_normal _ _ _ _ _ _ _ _ Ha Hb) as (vq & Hq & Hvq); [lia | lia |].
  assert (Hc : normal_number (JsNumber.of_Z 10000) (10000 # 1) (-39) (-39)).
  { exists 5497558138880000%positive, (-39)%Z.
    repeat split; try reflexivity; try discriminate. }
  destruct (mul_normal _ _ _ _ _ _ _ _ Hq Hc) as (vp & Hp & Hvp); [lia | lia |].
  exists vp. split; [exact Hp |].
  pose proof (normal_number_positive _ _ _ _ Hb) as Hb0.
  pose proof (normal_number_positive _ _ _ _ Hq) as Hq0.
  assert (HN : inject_Z negative <= inject_Z total)
    by (rewrite <- Zle_Qle; exact Hle).
  assert (HT : 0 < inject_Z total).
  { change 0 with (inject_Z 0). rewrite <- Zlt_Qlt. lia. }
  change (inject_Z (2 ^ 52 + 1)) with (4503599627370497 # 1) in *.
  change (inject_Z (2 ^ 52 - 1)) with (4503599627370495 # 1) in *.
  change (inject_Z (2 ^ 52)) with (4503599627370496 # 1) in *.
  set (T := inject_Z total) in *. set (N := inject_Z negative) in *.
  clearbody T N.
  assert (Hvq' : vq * T <= (1000001 # 1000000) * T).
  { assert (H1 : (4503599627370495 # 1) * (vq * T)
                 <= (4503599627370496 # 1) * (vq * vb)).
    { setoid_replace ((4503599627370495 # 1) * (vq * T))
        with (vq * ((4503599627370495 # 1) * T)) by ring.
      setoid_replace ((4503599627370496 # 1) * (vq * vb))
        with (vq * ((4503599627370496 # 1) * vb)) by ring.
      apply Qmult_le_l; assumption. }
    lra. }
  assert (Hvq'' : vq <= 1000001 # 1000000).
  { apply Qmult_le_r with (z := T); assumption. }
  lra.
Qed.

(** Every integer from 1 to 10000 is a Number, held exactly. *)
Lemma of_Z_small_exact (n : Z) :
  (1 <= n <= 10000)%Z -> JsNumber.to_Z (JsNumber.of_Z n) = Some n.
Proof.
  intros Hn.
  assert (Hall :
    forallb
      (fun k : nat =>
         match JsNumber.to_Z (JsNumber.of_Z (Z.of_nat k)) with
         | Some z => (z =? Z.of_nat k)%Z
         | None => false
         end)
      (seq 1 (Z.to_nat 10000)) = true) by (vm_compute; reflexivity).
  rewrite forallb_forall in Hall.
  specialize (Hall (Z.to_nat n)).
  rewrite Z2Nat.id in Hall by lia.
  assert (Hin : In (Z.to_nat n) (seq 1 (Z.to_nat 10000))) by (apply in_seq; lia).
  specialize (Hall Hin).
  destruct (JsNumber.to_Z (JsNumber.of_Z n)) as [z |]; [| discriminate].
  apply Z.eqb_eq in Hall. now subst.
Qed.

(** [Math.round] of a positive Number below 10000.5 is an integer from
    0 to 10000. *)
Lemma round_below (x : JsNumber.number) (v : Q) (lo hi : Z) :
  normal_number x v lo hi -> v < 20001 # 2 ->
  exists n,
    JsNumber.to_Z (JsNumber.round x) = Some n /\ (0 <= n <= 10000)%Z.
Proof.
  intros Hx Hv.
  pose proof (normal_number_positive _ _ _ _ Hx) as Hpos.
  destruct Hx as (m & e & -> & _ & _ & Hval).
  cbn [JsNumber.round].
  pose proof (finite_value_pow false m e) as Hfv. cbn beta iota in Hfv.
  rewrite <- Hval in Hfv.
  set (q := JsNumber.finite_value false m e + (1 # 2)).
  assert (Hq0 : 0 <= q) by (unfold q; lra).
  assert (Hq1 : q < 10001 # 1) by (unfold q; lra).
  assert (Hlow : (0 <= Qfloor q)%Z).
  { change 0%Z with (Qfloor 0). apply Qfloor_resp_le. exact Hq0. }
  assert (Hhigh : (Qfloor q < 10001)%Z).
  { rewrite Zlt_Qlt. apply Qle_lt_trans with (y := q); [apply Qfloor_le | exact Hq1]. }
  exists (Qfloor q). split; [| lia].
  unfold JsNumber.of_rounded.
  destruct (Qfloor q =? 0)%Z eqn:Hzero.
  - apply Z.eqb_eq in Hzero. rewrite Hzero. reflexivity.
  - apply Z.eqb_neq in Hzero. apply of_Z_small_exact. lia.
Qed.

(** When the positive count is within the total, the rate is an integer
    from 0 to 10000. *)
Lemma negative_rate_bps_range (total positive : Z) :
  (0 <= positive <= total)%Z -> (0 < total < 2 ^ 256)%Z ->
  exists n,
    JsNumber.to_Z (negative_rate_bps total positive) = Some n
    /\ (0 <= n <= 10000)%Z.
Proof.
  intros Hpositive Htotal. unfold negative_rate_bps.
  destruct (Z.eq_dec (total - positive) 0) as [Hzero | Hnonzero].
  - rewrite Hzero.
    destruct (of_Z_normal total) as (v & (m & e & -> & _) & _); [lia |].
    exists 0%Z. split; [reflexivity | lia].
  - destruct (rate_below (total - positive) total) as (v & Hx & Hv); [lia | lia |].
    exact (round_below _ _ _ _ Hx Hv).
Qed.

(** ** Confidence *)

(** A positive BigInt converts to a truthy Number. *)
Lemma of_Z_truthy (z : Z) :
  (0 < z < 2 ^ 256)%Z -> JsNumber.truthy (JsNumber.of_Z z) = true.
Proof.
  intros Hz. destruct (of_Z_normal z Hz) as (v & (m & e & -> & _) & _).
  reflexivity.
Qed.

(** Below a positive Number, [0] is no bound worth taking: the maximum
    with [0] is the Number itself. *)
Lemma max_zero_positive (m : positive) (e : Z) :
  JsNumber.max (JsNumber.of_Z 0) (S754_finite false m e) = S754_finite false m e.
Proof.
  unfold JsNumber.max, JsNumber.compare.
  change (JsNumber.value (JsNumber.of_Z 0)) with (Some (JsNumber.Fin 0)).
  cbn [JsNumber.value JsNumber.ext_compare].
  assert (Hpos : 0 < JsNumber.finite_value false m e).
  { rewrite (finite_value_pow false m e). cbn beta iota.
    apply Qmult_lt_0_compat; [reflexivity | apply pow2_pos]. }
  rewrite Qlt_alt in Hpos. rewrite Hpos. reflexivity.
Qed.

(** The ratio of two counts is never below zero, so clamping it to
    [[0, 1]] is taking the minimum with [1]. *)
Lemma clamp01_ratio (total threshold : Z) :
  (0 <= total < 2 ^ 256)%Z -> (0 < threshold < 2 ^ 256)%Z ->
  clamp01 (JsNumber.div (JsNumber.of_Z total) (JsNumber.of_Z threshold))
  = JsNumber.min (JsNumber.of_Z 1)
      (JsNumber.div (JsNumber.of_Z total) (JsNumber.of_Z threshold)).
Proof.
  intros Htotal Hthreshold. unfold clamp01.
  destruct (of_Z_normal threshold Hthreshold) as (vb & Hb & _).
  destruct (Z.eq_dec total 0) as [-> | Hnonzero].
  - destruct Hb as (m & e & -> & _). reflexivity.
  - destruct (of_Z_normal total) as (va & Ha & _); [lia |].
    destruct (div_normal _ _ _ _ _ _ _ _ Ha Hb) as (v & (m & e & -> & _) & _);
      [lia | lia |].
    unfold JsNumber.min.
    destruct (JsNumber.compare (JsNumber.of_Z 1) (S754_finite false m e))
      as [[| |] |] eqn:Hcompare.
    + cbn [JsNumber.sign_bit]. change (JsNumber.sign_bit (JsNumber.of_Z 1)) with false.
      cbn iota. apply max_zero_positive.
    + reflexivity.
    + apply max_zero_positive.
    + unfold JsNumber.compare in Hcompare.
      change (JsNumber.of_Z 1)
        with (S754_finite false 4503599627370496 (-52)) in Hcompare.
      cbn [JsNumber.value] in Hcompare. discriminate.
Qed.

(** ** Negative rate and confidence of the risk report *)

Close Scope Q_scope.
Close Scope Z_scope.

(** C6, on records whose positive count is within the total.  The
    negative rate of the report is [0] when the total is zero and
    otherwise [Math.round((total - positive) / total * 10000)] in
    double-precision arithmetic; it is an integer from 0 to 10000. *)
Theorem buildRiskReport_negativeRateBps_range (record : FeedbackRecord)
    (cfg : ScoringConfig) (pollIntervalMs : JsNumber.number) (nowMs : Z) :
  uint256 (totalFeedback record) ->
  (0 <= positiveFeedback record <= totalFeedback record)%Z ->
  negativeRateBps (buildRiskReport record cfg pollIntervalMs nowMs)
  = (if (totalFeedback record =? 0)%Z then JsNumber.of_Z 0
     else negative_rate_bps (totalFeedback record) (positiveFeedback record))
  /\ ((totalFeedback record = 0)%Z ->
      JsNumber.to_Z
        (negativeRateBps (buildRiskReport record cfg pollIntervalMs nowMs))
      = Some 0%Z)
  /\ exists n,
       JsNumber.to_Z
         (negativeRateBps (buildRiskReport record cfg pollIntervalMs nowMs))
       = Some n
       /\ (0 <= n <= 10000)%Z.
Proof.
  intros [Hlow Hhigh] Hpositive.
  rewrite buildRiskReport_negativeRateBps.
  split; [reflexivity |]. split.
  - intros ->. reflexivity.
  - destruct (totalFeedback record =? 0)%Z eqn:Hzero.
    + exists 0%Z. split; [reflexivity | lia].
    + apply Z.eqb_neq in Hzero.
      apply negative_rate_bps_range; lia.
Qed.

Lemma buildRiskReport_negativeRateBps_range_witness :
  exists n,
    JsNumber.to_Z
      (negativeRateBps
         (buildRiskReport trusted_record default_scoring
            (JsNumber.of_Z 900000) 1771085895000))
    = Some n
    /\ (0 <= n <= 10000)%Z.
Proof.
  destruct (buildRiskReport_negativeRateBps_range trusted_record
              default_scoring (JsNumber.of_Z 900000) 1771085895000)
    as (_ & _ & Hrange).
  - unfold uint256. cbn. split; [lia | reflexivity].
  - cbn. lia.
  - exact Hrange.
Defined.

(** A record whose positive count exceeds its total has a negative
    rate: with one entry and two positive ones the rate is -10000. *)
Lemma negativeRateBps_overcount_counterexample :
  uint256 (totalFeedback overcounted_record)
  /\ uint256 (positiveFeedback overcounted_record)
  /\ JsNumber.to_Z
       (negativeRateBps
          (buildRiskReport overcounted_record default_scoring
             (JsNumber.of_Z 900000) 1771085895000))
     = Some (-10000)%Z.
Proof.
  unfold uint256. cbn [totalFeedback positiveFeedback overcounted_record].
  split; [split; [lia | reflexivity] |].
  split; [split; [lia | reflexivity] |].
  vm_compute. reflexivity.
Qed.

(** The formula is evaluated in double precision: three negative
    entries out of 20000 are 1.5 basis points, which rounds to 2, while
    the quotient [3 / 20000] rounded to a Number and scaled by 10000
    falls just below 1.5 and rounds to 1. *)
Remark negative_rate_bps_double_precision :
  JsNumber.to_Z
    (negativeRateBps
       (buildRiskReport rare_negative_record default_scoring
          (JsNumber.of_Z 900000) 1771085895000))
  = Some 1%Z
  /\ Qfloor ((3 # 20000) * (10000 # 1) + (1 # 2))%Q = 2%Z.
Proof. split; vm_compute; reflexivity. Qed.

(** [toFixed(4)] leaves [1] as it is. *)
Lemma toFixed4_one : JsNumber.toFixed4 (JsNumber.of_Z 1) = JsNumber.of_Z 1.
Proof. vm_compute. reflexivity. Qed.

(** The confidence of the report: [1] for a zero threshold, otherwise
    the clamped ratio rounded to four decimals. *)
Lemma buildRiskReport_confidence (record : FeedbackRecord)
    (cfg : ScoringConfig) (pollIntervalMs : JsNumber.number) (nowMs : Z) :
  uint256 (totalFeedback record) ->
  uint256 (confidenceThresholdFeedbackCount cfg) ->
  confidence (buildRiskReport record cfg pollIntervalMs nowMs)
  = if (confidenceThresholdFeedbackCount cfg =? 0)%Z then JsNumber.of_Z 1
    else JsNumber.toFixed4
           (clamp01
              (JsNumber.div (JsNumber.of_Z (totalFeedback record))
                 (JsNumber.of_Z (confidenceThresholdFeedbackCount cfg)))).
Proof.
  intros Htotal [Hlow Hhigh].
  unfold buildRiskReport. cbn [confidence].
  destruct (confidenceThresholdFeedbackCount cfg =? 0)%Z eqn:Hzero.
  - exact toFixed4_one.
  - apply Z.eqb_neq in Hzero.
    rewrite clamp01_ratio by (unfold uint256 in Htotal; lia). reflexivity.
Qed.

(** The confidence of the [/score] handler under a non-zero
    threshold. *)
Lemma score_confidence_clamp (record : FeedbackRecord) (cfg : ScoringConfig) :
  uint256 (totalFeedback record) ->
  uint256 (confidenceThresholdFeedbackCount cfg) ->
  confidenceThresholdFeedbackCount cfg <> 0%Z ->
  score_confidence cfg record
  = clamp01
      (JsNumber.div (JsNumber.of_Z (totalFeedback record))
         (JsNumber.of_Z (confidenceThresholdFeedbackCount cfg))).
Proof.
  intros Htotal [Hlow Hhigh] Hnonzero. unfold score_confidence.
  rewrite of_Z_truthy by lia.
  rewrite clamp01_ratio by (unfold uint256 in Htotal; lia). reflexivity.
Qed.

(** A payment challenge carries no confidence. *)
Lemma served_confidence_challenge (routePricing : list (string * RouteConfig))
    (key : string) (access : Access) :
  served_confidence (challenge routePricing key access) = None.
Proof.
  unfold challenge. destruct (route_lookup routePricing key); reflexivity.
Qed.

(** C3, as far as it holds.  The confidence served by [/report] is [1]
    when the threshold is zero and otherwise
    [clamp(total / threshold, 0, 1)] rounded to four decimals; [/score]
    serves the same value whenever the threshold is not zero. *)
Theorem served_confidence_rounded (app : App) (world : World)
    (endpoint : Endpoint) (req : Request) (agentId : Z)
    (status : option string) (record : FeedbackRecord)
    (served : JsNumber.number) :
  getDetailedReport world agentId = ReadOk record ->
  uint256 (totalFeedback record) ->
  uint256 (confidenceThresholdFeedbackCount (app_scoringConfig app)) ->
  (endpoint = ScoreEndpoint ->
   confidenceThresholdFeedbackCount (app_scoringConfig app) <> 0%Z) ->
  served_confidence
    (fst (match endpoint with
          | ScoreEndpoint => scoreHandler app world req agentId status
          | ReportEndpoint => reportHandler app world req agentId status
          end)) = Some served ->
  served
  = if (confidenceThresholdFeedbackCount (app_scoringConfig app) =? 0)%Z
    then JsNumber.of_Z 1
    else JsNumber.toFixed4
           (clamp01
              (JsNumber.div (JsNumber.of_Z (totalFeedback record))
                 (JsNumber.of_Z
                    (confidenceThresholdFeedbackCount (app_scoringConfig app))))).
Proof.
  intros Hledger Htotal Hthreshold Hscore.
  destruct endpoint; unfold scoreHandler, reportHandler;
    destruct (resolvePaidRouteAccess req status (app_env app) (app_payment app))
      as [access status1];
    (destruct (paymentRequired access);
     [cbn [fst]; rewrite served_confidence_challenge; intros H; discriminate H |]);
    (destruct (app_readerEnabled app); cbn [negb];
     [| intros H; discriminate H]);
    rewrite Hledger;
    (destruct (allowDemoResponse access); cbn [fst served_confidence];
     [intros H; discriminate H |]);
    intros [= <-].
  - specialize (Hscore eq_refl).
    apply Z.eqb_neq in Hscore as Hzero. rewrite Hzero.
    rewrite score_confidence_clamp by assumption. reflexivity.
  - exact (buildRiskReport_confidence record (app_scoringConfig app)
             (app_pollIntervalMs app) (nowMs world) Htotal Hthreshold).
Qed.

Lemma served_confidence_rounded_witness :
  JsNumber.of_Z 1
  = JsNumber.toFixed4
      (clamp01 (JsNumber.div (JsNumber.of_Z 100) (JsNumber.of_Z 50))).
Proof.
  apply (served_confidence_rounded (full_access_app default_scoring)
           (ledger_world trusted_record) ScoreEndpoint authorized_request 1%Z
           None trusted_record (JsNumber.of_Z 1)).
  - reflexivity.
  - unfold uint256. cbn. split; [lia | reflexivity].
  - unfold uint256. cbn. split; [lia | reflexivity].
  - intros _. cbn. discriminate.
  - vm_compute. reflexivity.
Defined.

(** The served confidence is not the clamped ratio itself: one entry
    against a threshold of three is served as 0.3333 by both endpoints.
    And with no entry against a threshold of zero, [/score] serves 0
    where [/report] serves 1. *)
Lemma served_confidence_counterexample :
  served_confidence
    (fst (scoreHandler (full_access_app third_scoring)
            (ledger_world sparse_record) authorized_request 1%Z None))
  = Some (JsNumber.of_decimal false 3333 4)
  /\ served_confidence
       (fst (reportHandler (full_access_app third_scoring)
               (ledger_world sparse_record) authorized_request 1%Z None))
     = Some (JsNumber.of_decimal false 3333 4)
  /\ JsNumber.eq (JsNumber.of_decimal false 3333 4)
       (clamp01 (JsNumber.div (JsNumber.of_Z 1) (JsNumber.of_Z 3))) = false
  /\ served_confidence
       (fst (scoreHandler (full_access_app zero_scoring)
               (ledger_world empty_record) authorized_request 1%Z None))
     = Some (JsNumber.of_Z 0)
  /\ served_confidence
       (fst (reportHandler (full_access_app zero_scoring)
               (ledger_world empty_record) authorized_request 1%Z None))
     = Some (JsNumber.of_Z 1).
Proof. repeat split; vm_compute; reflexivity. Qed.

(** ** Normalised flags *)








Lemma trimStart_spaces (pad s : string) :
  all_chars JsString.is_space pad = true ->
  JsString.trimStart (pad ++ s) = JsString.trimStart s.
Proof.
  induction pad as [| c r IH]; [reflexivity |].
  cbn. intros H. apply andb_true_iff in H. destruct H as [Hc Hr].
  rewrite Hc. exact (IH Hr).
Qed.

Lemma trimEnd_spaces (s pad : string) :
  all_chars JsString.is_space pad = true ->
  JsString.trimEnd (s ++ pad) = JsString.trimEnd s.
Proof.
  intros Hpad.
  assert (Hnil : JsString.trimEnd pad = "").
  { induction pad as [| c r IH]; [reflexivity |].
    cbn in Hpad. apply andb_true_iff in Hpad. destruct Hpad as [Hc Hr].
    cbn. rewrite (IH Hr), Hc. reflexivity. }
  induction s as [| c r IH]; [exact Hnil |].
  cbn. rewrite IH. reflexivity.
Qed.

Lemma trim_spaces (left_pad s right_pad : string) :
  all_chars JsString.is_space left_pad = true ->
  all_chars JsString.is_space right_pad = true ->
  JsString.trim (left_pad ++ s ++ right_pad) = JsString.trim s.
Proof.
  intros Hl Hr. unfold JsString.trim.
  rewrite (trimStart_spaces _ _ Hl).
  induction s as [| c r IH].
  - cbn [append]. replace right_pad with (right_pad ++ "") at 1
      by (clear; induction right_pad; cbn; congruence).
    rewrite (trimStart_spaces _ _ Hr). reflexivity.
  - cbn [append JsString.trimStart].
    destruct (JsString.is_space c); [exact IH |].
    change (String c (r ++ right_pad)) with (String c r ++ right_pad).
    apply trimEnd_spaces. exact Hr.
Qed.




(** ** Payee address and gateway state *)

Lemma isValidEvmAddress_shape (address : option string) :
  isValidEvmAddress address = true ->
  exists digits,
    address = Some ("0x" ++ digits)
    /\ String.length digits = 40%nat
    /\ all_chars is_hex digits = true.
Proof.
  unfold isValidEvmAddress, or_else.
  destruct address as [s |]; [| discriminate].
  destruct (JsString.truthy s); [| discriminate].
  destruct s as [| c0 [| c1 digits]]; try discriminate.
  - destruct c0 as [[] [] [] [] [] [] [] []]; discriminate.
  - destruct c0 as [[] [] [] [] [] [] [] []]; try discriminate.
    destruct c1 as [[] [] [] [] [] [] [] []]; try discriminate.
    intros H. apply andb_true_iff in H. destruct H as [Hhex Hlen].
    apply Nat.eqb_eq in Hlen. exists digits. auto.
Qed.

Lemma first_valid_some (candidates : list (option string)) (found : string) :
  first_valid candidates = Some found ->
  isValidEvmAddress (Some found) = true
  /\ exists before after,
       candidates = (before ++ Some found :: after)%list
       /\ Forall (fun c => isValidEvmAddress c = false) before.
Proof.
  induction candidates as [| c rest IH]; [discriminate |].
  cbn. destruct (isValidEvmAddress c) eqn:Hvalid.
  - intros ->. split; [exact Hvalid |]. exists [], rest. split; [reflexivity | constructor].
  - intros Hrest. destruct (IH Hrest) as (Hfound & before & after & -> & Hbefore).
    split; [exact Hfound |]. exists (c :: before), after.
    split; [reflexivity | constructor; assumption].
Qed.

Lemma first_valid_none (candidates : list (option string)) :
  first_valid candidates = None
  <-> Forall (fun c => isValidEvmAddress c = false) candidates.
Proof.
  induction candidates as [| c rest IH]; cbn.
  - split; [constructor | reflexivity].
  - destruct (isValidEvmAddress c) eqn:Hvalid.
    + split; [intros [= H]; apply isValidEvmAddress_shape in Hvalid;
              destruct Hvalid as (d & Hd & _); congruence |].
      intros H. inversion H; congruence.
    + rewrite IH. split; [intros H; constructor; assumption |].
      intros H. inversion H. assumption.
Qed.

(** X2.  [resolvePayToAddress] returns the first well-formed address
    among [options.payTo], [X402_PAY_TO], [X402_RECEIVER_ADDRESS],
    [DEPLOYER_ADDRESS] and [UPDATER_ADDRESS], in this order; what it
    returns is [0x] followed by forty hexadecimal digits; it throws
    exactly when none of the five is well formed. *)
Theorem resolvePayToAddress_first_valid (options : Options) (env : Env) :
  (forall address,
     resolvePayToAddress options env = Ok address ->
     (exists digits,
        address = "0x" ++ digits
        /\ String.length digits = 40%nat
        /\ all_chars is_hex digits = true)
     /\ exists before after,
          payee_candidates options env = (before ++ Some address :: after)%list
          /\ Forall (fun c => isValidEvmAddress c = false) before)
  /\ ((exists message, resolvePayToAddress options env = Throw message)
      <-> Forall (fun c => isValidEvmAddress c = false)
            (payee_candidates options env))
  /\ (forall address,
        opt_payTo options = Some address ->
        isValidEvmAddress (Some address) = true ->
        resolvePayToAddress options env = Ok address).
Proof.
  unfold resolvePayToAddress.
  change [opt_payTo options; env "X402_PAY_TO"; env "X402_RECEIVER_ADDRESS";
          env "DEPLOYER_ADDRESS"; env "UPDATER_ADDRESS"]
    with (payee_candidates options env).
  split; [| split].
  - intros address Hok.
    destruct (first_valid (payee_candidates options env)) as [found |] eqn:Hfirst;
      [| discriminate].
    injection Hok as ->.
    destruct (first_valid_some _ _ Hfirst) as (Hvalid & Hsplit).
    split; [| exact Hsplit].
    destruct (isValidEvmAddress_shape _ Hvalid) as (digits & [= ->] & Hlen & Hhex).
    exists digits. auto.
  - rewrite <- first_valid_none.
    destruct (first_valid (payee_candidates options env)) as [found |].
    + split; [intros [message H]; discriminate | discriminate].
    + split; [reflexivity | eauto].
  - intros address Hpay Hvalid. unfold payee_candidates.
    cbn [first_valid]. rewrite Hpay, Hvalid. reflexivity.
Qed.

(** The head of a normalised value is [n] only if the value began
    with [n]. *)
Lemma normalizePrivateKeyValue_head (value : string) :
  match normalizePrivateKeyValue value with
  | String "n" _ => match value with String "n" _ => True | _ => False end
  | _ => True
  end.
Proof.
  destruct value as [| c r]; [exact I |].
  cbn [normalizePrivateKeyValue].
  destruct c as [[] [] [] [] [] [] [] []]; try exact I;
    destruct r as [| d r']; try exact I;
    destruct d as [[] [] [] [] [] [] [] []]; exact I.
Qed.

Lemma normalizePrivateKeyValue_step (c : ascii) (r : string) :
  (c = "\"%char /\ exists r', r = String "n" r'
     /\ normalizePrivateKeyValue (String c r)
        = String "010" (normalizePrivateKeyValue r'))
  \/ ((c <> "\"%char \/ match r with String "n" _ => False | _ => True end)
      /\ normalizePrivateKeyValue (String c r)
         = String c (normalizePrivateKeyValue r)).
Proof.
  destruct (Ascii.eqb c "\") eqn:Hc.
  - apply Ascii.eqb_eq in Hc. subst c.
    destruct r as [| d r'].
    + right. split; [right; exact I | reflexivity].
    + destruct (Ascii.eqb d "n") eqn:Hd.
      * apply Ascii.eqb_eq in Hd. subst d. left. split; [reflexivity |].
        exists r'. split; reflexivity.
      * right. split.
        -- right. destruct d as [[] [] [] [] [] [] [] []]; try exact I.
           discriminate Hd.
        -- destruct d as [[] [] [] [] [] [] [] []]; try reflexivity.
           discriminate Hd.
  - right. split.
    + left. intros ->. discriminate Hc.
    + destruct c as [[] [] [] [] [] [] [] []]; try reflexivity.
      discriminate Hc.
Qed.

Lemma normalizePrivateKeyValue_fixed (n : nat) (value : string) :
  (String.length value <= n)%nat ->
  normalizePrivateKeyValue (normalizePrivateKeyValue value)
  = normalizePrivateKeyValue value.
Proof.
  revert value. induction n as [| n IH]; intros value Hlen.
  - destruct value; [reflexivity | cbn in Hlen; lia].
  - destruct value as [| c r]; [reflexivity |].
    cbn [String.length] in Hlen.
    destruct (normalizePrivateKeyValue_step c r)
      as [(-> & r' & -> & Hstep) | (Hcase & Hstep)].
    + rewrite Hstep.
      change (normalizePrivateKeyValue (String "010" (normalizePrivateKeyValue r')))
        with (String "010" (normalizePrivateKeyValue (normalizePrivateKeyValue r'))).
      rewrite IH by (cbn [String.length] in Hlen; lia). reflexivity.
    + rewrite Hstep.
      destruct (normalizePrivateKeyValue_step c (normalizePrivateKeyValue r))
        as [(-> & r' & Hr' & _) | (_ & Hstep')].
      * exfalso. pose proof (normalizePrivateKeyValue_head r) as Hhead.
        rewrite Hr' in Hhead.
        destruct Hcase as [Hc | Hr]; [congruence |].
        destruct r as [| d r'']; [exact Hhead |].
        destruct d as [[] [] [] [] [] [] [] []]; try exact Hhead; exact Hr.
      * rewrite Hstep'. rewrite IH by lia. reflexivity.
Qed.

Lemma normalizePrivateKeyValue_no_backslash (value : string) :
  all_chars (fun c => negb (Ascii.eqb c "\")) value = true ->
  normalizePrivateKeyValue value = value.
Proof.
  induction value as [| c r IH]; [reflexivity |].
  cbn [all_chars]. intros H. apply andb_true_iff in H. destruct H as [Hc Hr].
  destruct (normalizePrivateKeyValue_step c r)
    as [(-> & _) | (_ & ->)]; [discriminate Hc |].
  rewrite (IH Hr). reflexivity.
Qed.

Lemma normalizePrivateKeyValue_length (value : string) (n : nat) :
  (String.length value <= n)%nat ->
  (String.length (normalizePrivateKeyValue value) <= String.length value)%nat.
Proof.
  revert value. induction n as [| n IH]; intros value Hlen.
  - destruct value; [cbn; lia | cbn in Hlen; lia].
  - destruct value as [| c r]; [cbn; lia |].
    cbn [String.length] in Hlen.
    destruct (normalizePrivateKeyValue_step c r)
      as [(-> & r' & -> & ->) | (_ & ->)]; cbn [String.length] in *.
    + specialize (IH r'). lia.
    + specialize (IH r). lia.
Qed.

(** X3.  [normalizePrivateKeyValue] turns every backslash followed by
    [n] into a line feed: applying it twice changes nothing more, a value
    without backslash is returned as it is, and the result is never
    longer than the value. *)
Theorem normalizePrivateKeyValue_idempotent (value : string) :
  normalizePrivateKeyValue (normalizePrivateKeyValue value)
  = normalizePrivateKeyValue value
  /\ (all_chars (fun c => negb (Ascii.eqb c "\")) value = true ->
      normalizePrivateKeyValue value = value)
  /\ (String.length (normalizePrivateKeyValue value) <= String.length value)%nat.
Proof.
  split; [| split].
  - apply (normalizePrivateKeyValue_fixed (String.length value)). lia.
  - apply normalizePrivateKeyValue_no_backslash.
  - apply (normalizePrivateKeyValue_length value (String.length value)). lia.
Qed.

Lemma createRealPaymentMiddleware_payee (formatUsdPrice : string -> string)
    (pkgs : Packages) (options : Options) (env : Env) (payment : Payment) :
  createRealPaymentMiddleware formatUsdPrice pkgs options env = Ok payment ->
  exists address,
    payToAddress payment = Some address
    /\ resolvePayToAddress options env = Ok address.
Proof.
  unfold createRealPaymentMiddleware.
  destruct (require_x402_express pkgs) as [express |]; cbn; [| discriminate].
  destruct (paymentMiddleware express) as [make |]; [| discriminate].
  destruct (resolvePayToAddress options env) as [payTo |]; cbn; [| discriminate].
  destruct (resolveFacilitatorConfig pkgs env) as [fc |]; cbn; [| discriminate].
  destruct (make payTo _ fc _) as [[run |] |]; cbn; try discriminate.
  intros H. inversion H. cbn. eauto.
Qed.

(** X4.  The gateway state [createPaymentMiddleware] returns has one of
    two shapes.  Either it runs the real middleware: then the mode was
    [real] or [auto], the state says [real], is no fallback, and carries
    the payee address [resolvePayToAddress] chose.  Or it runs the stub
    over the compiled route table: then the state says [stub] and carries
    no payee, and it is marked as a fallback exactly when the mode was
    [auto], in which case the reason quotes the error of the real
    construction. *)
Theorem createPaymentMiddleware_shapes (formatUsdPrice : string -> string)
    (pkgs : Packages) (options : Options) (payment : Payment) :
  createPaymentMiddleware formatUsdPrice pkgs options = Ok payment ->
  (usingRealMiddleware payment = true
   /\ mode payment = "real"
   /\ fallbackFromReal payment = false
   /\ (selected_mode options = "real" \/ selected_mode options = "auto")
   /\ exists address,
        payToAddress payment = Some address
        /\ resolvePayToAddress options (opt_env options) = Ok address)
  \/ (usingRealMiddleware payment = false
      /\ mode payment = "stub"
      /\ payToAddress payment = None
      /\ middleware payment
         = StubMiddleware
             (map (compiled_route formatUsdPrice) (opt_routeConfig options))
             (toBoolean (opt_enforceStubPayment options) false)
      /\ (fallbackFromReal payment = true <-> selected_mode options = "auto")
      /\ (fallbackFromReal payment = true ->
          exists message,
            createRealPaymentMiddleware formatUsdPrice pkgs options
              (opt_env options) = Throw message
            /\ reason payment = "Fell back to stub middleware: " ++ message)
      /\ (fallbackFromReal payment = false ->
          reason payment = "Using local x402 stub middleware")).
Proof.
  unfold createPaymentMiddleware. rewrite createStubPaymentMiddleware_ok.
  intros Hok.
  destruct (String.eqb_spec (selected_mode options) "real") as [Hreal_mode | Hreal_mode];
    destruct (String.eqb_spec (selected_mode options) "auto") as [Hauto_mode | Hauto_mode];
    cbn [orb] in Hok.
  - rewrite Hreal_mode in Hauto_mode. discriminate Hauto_mode.
  - destruct (createRealPaymentMiddleware formatUsdPrice pkgs options
                (opt_env options)) as [real | message] eqn:Hreal;
      [| discriminate].
    injection Hok as ->. left.
    destruct (createRealPaymentMiddleware_shape _ _ _ _ _ Hreal) as (H1 & H2 & H3).
    destruct (createRealPaymentMiddleware_payee _ _ _ _ _ Hreal) as (address & H4 & H5).
    repeat split; eauto.
  - destruct (createRealPaymentMiddleware formatUsdPrice pkgs options
                (opt_env options)) as [real | message] eqn:Hreal.
    + injection Hok as ->. left.
      destruct (createRealPaymentMiddleware_shape _ _ _ _ _ Hreal) as (H1 & H2 & H3).
      destruct (createRealPaymentMiddleware_payee _ _ _ _ _ Hreal) as (address & H4 & H5).
      repeat split; eauto.
    + cbn in Hok. injection Hok as <-. right. cbn.
      repeat split; auto; try discriminate. eauto.
  - injection Hok as <-. right. cbn.
    repeat split; auto; try discriminate; try congruence.
Qed.

Lemma createPaymentMiddleware_shapes_witness :
  exists payment,
    createPaymentMiddleware (fun p => p) no_packages auto_options = Ok payment
    /\ (fallbackFromReal payment = true <-> selected_mode auto_options = "auto").
Proof.
  eexists. split; [reflexivity |].
  destruct (createPaymentMiddleware_shapes (fun p => p) no_packages
              auto_options _ eq_refl)
    as [(Hreal & _) | (_ & _ & _ & _ & Hfallback & _)].
  - discriminate Hreal.
  - exact Hfallback.
Defined.

(** ** Extracted payment headers *)

Lemma obj_set_keys (o : js_object) (key value : string) :
  map fst (obj_set o key value)
  = if existsb (String.eqb key) (map fst o) then map fst o
    else (map fst o ++ [key])%list.
Proof.
  induction o as [| [k v] rest IH]; [reflexivity |].
  cbn [obj_set map fst existsb].
  rewrite (String.eqb_sym key k).
  destruct (String.eqb k key) eqn:Hk; cbn [orb map fst]; [reflexivity |].
  rewrite IH. destruct (existsb (String.eqb key) (map fst rest)); reflexivity.
Qed.

Lemma obj_set_NoDup (o : js_object) (key value : string) :
  NoDup (map fst o) -> NoDup (map fst (obj_set o key value)).
Proof.
  intros Hnodup. rewrite obj_set_keys.
  destruct (existsb (String.eqb key) (map fst o)) eqn:Hin; [exact Hnodup |].
  apply NoDup_app; [exact Hnodup | repeat constructor; intros [] | ].
  intros k Hk [<- | []].
  assert (Hex : existsb (String.eqb key) (map fst o) = true).
  { apply existsb_exists. exists key. split; [exact Hk | apply String.eqb_refl]. }
  congruence.
Qed.

Lemma obj_set_keys_payment (o : js_object) (key value : string) :
  is_payment_header key = true ->
  Forall (fun k => is_payment_header k = true) (map fst o) ->
  Forall (fun k => is_payment_header k = true) (map fst (obj_set o key value)).
Proof.
  intros Hkey Hall. rewrite obj_set_keys.
  destruct (existsb (String.eqb key) (map fst o)); [exact Hall |].
  apply Forall_app. split; [exact Hall | repeat constructor; exact Hkey].
Qed.

Lemma extract_loop_keys (entries : list (string * header_value))
    (relevant : js_object) :
  NoDup (map fst relevant) ->
  Forall (fun k => is_payment_header k = true) (map fst relevant) ->
  NoDup (map fst (extract_loop entries relevant))
  /\ Forall (fun k => is_payment_header k = true)
       (map fst (extract_loop entries relevant)).
Proof.
  revert relevant.
  induction entries as [| [name value] rest IH]; intros relevant Hnodup Hall;
    [split; assumption |].
  cbn [extract_loop].
  destruct (is_payment_header (JsString.toLowerCase name)) eqn:Hpay.
  - apply IH; [apply obj_set_NoDup | apply obj_set_keys_payment]; assumption.
  - apply IH; assumption.
Qed.

(** What the loop leaves under a name: the text of the last header of
    that name if the name is a payment header's, and otherwise what was
    there before. *)
Lemma extract_loop_get (entries : list (string * header_value))
    (relevant : js_object) (key : string) :
  obj_get (extract_loop entries relevant) key
  = match (if is_payment_header key then last_header entries key else None) with
    | Some text => Some text
    | None => obj_get relevant key
    end.
Proof.
  revert relevant.
  induction entries as [| [name value] rest IH]; intros relevant.
  - cbn. destruct (is_payment_header key); reflexivity.
  - cbn [extract_loop last_header].
    destruct (String.eqb (JsString.toLowerCase name) key) eqn:Hname.
    + apply String.eqb_eq in Hname. subst key.
      destruct (is_payment_header (JsString.toLowerCase name)) eqn:Hpay.
      * rewrite IH.
        destruct (last_header rest (JsString.toLowerCase name));
          [reflexivity | apply obj_get_set_same].
      * rewrite IH. reflexivity.
    + apply String.eqb_neq in Hname.
      destruct (is_payment_header (JsString.toLowerCase name)) eqn:Hpay.
      * rewrite IH.
        destruct (is_payment_header key);
          [destruct (last_header rest key); [reflexivity |] |];
          apply obj_get_set_other; exact Hname.
      * rewrite IH.
        destruct (is_payment_header key);
          [destruct (last_header rest key) |]; reflexivity.
Qed.

Lemma last_header_some (entries : list (string * header_value))
    (key text : string) :
  last_header entries key = Some text ->
  exists name value,
    In (name, value) entries
    /\ JsString.toLowerCase name = key
    /\ header_text value = text.
Proof.
  induction entries as [| [name value] rest IH]; [discriminate |].
  cbn [last_header].
  destruct (last_header rest key) as [found |].
  - intros [= ->]. destruct (IH eq_refl) as (n & v & Hin & Hn & Hv).
    exists n, v. split; [right; exact Hin | auto].
  - destruct (String.eqb (JsString.toLowerCase name) key) eqn:Hname;
      [| discriminate].
    apply String.eqb_eq in Hname. intros [= <-].
    exists name, value. split; [left; reflexivity | auto].
Qed.

Lemma last_header_none (entries : list (string * header_value)) (key : string) :
  last_header entries key = None
  <-> ~ In key (map (fun entry => JsString.toLowerCase (fst entry)) entries).
Proof.
  induction entries as [| [name value] rest IH]; cbn [last_header map fst In].
  - split; [intros _ [] | reflexivity].
  - destruct (last_header rest key) as [found |].
    + split; [discriminate |]. intros Hnot. exfalso.
      destruct IH as [_ IH].
      assert (Hnone : @Some string found = None) by (apply IH; tauto).
      discriminate Hnone.
    + destruct (String.eqb_spec (JsString.toLowerCase name) key) as [Heq | Hne].
      * split; [discriminate | intros Hnot; exfalso; apply Hnot; left; exact Heq].
      * split; [| reflexivity]. intros _ [Heq | Hin]; [exact (Hne Heq) |].
        destruct IH as [IH _]. exact (IH eq_refl Hin).
Qed.

(** X5.  [extractPaymentHeaders] keeps, under its lower-cased name, the
    text of every header whose lower-cased name starts with [x-payment]
    or [x402] or is [payment] or [authorization], and nothing else; when
    several headers have the same lower-cased name the last one is kept;
    no name occurs twice in the result. *)
Theorem extractPaymentHeaders_last_wins (req : Request) (key : string) :
  obj_get (extractPaymentHeaders req) key
  = (if is_payment_header key then last_header (req_headers req) key else None)
  /\ NoDup (map fst (extractPaymentHeaders req))
  /\ Forall (fun k => is_payment_header k = true)
       (map fst (extractPaymentHeaders req))
  /\ (forall text,
        obj_get (extractPaymentHeaders req) key = Some text ->
        exists name value,
          In (name, value) (req_headers req)
          /\ JsString.toLowerCase name = key
          /\ header_text value = text).
Proof.
  unfold extractPaymentHeaders.
  assert (Hget : obj_get (extract_loop (req_headers req) []) key
                 = (if is_payment_header key
                    then last_header (req_headers req) key else None)).
  { rewrite extract_loop_get.
    destruct (if is_payment_header key
              then last_header (req_headers req) key else None); reflexivity. }
  split; [exact Hget |].
  destruct (extract_loop_keys (req_headers req) []) as [Hnodup Hall];
    [constructor | constructor |].
  split; [exact Hnodup |]. split; [exact Hall |].
  intros text. rewrite Hget.
  destruct (is_payment_header key); [| discriminate].
  apply last_header_some.
Qed.

Lemma prop_truthy_extracted (req : Request) (key : string) :
  is_payment_header key = true ->
  prop_truthy (extractPaymentHeaders req) key
  = match last_header (req_headers req) key with
    | Some text => negb (String.eqb text "")
    | None => false
    end.
Proof.
  intros Hpay. unfold prop_truthy, extractPaymentHeaders.
  rewrite extract_loop_get, Hpay.
  destruct (last_header (req_headers req) key); reflexivity.
Qed.

(** X6.  A request carries payment proof exactly when the last header
    named [x-payment], [x-payment-proof], [x402-payment], [x402-proof] or
    [authorization] (in any letter case) has a non-empty text, for one of
    these names, or the last [x-payment-status] header reads [paid] in
    any letter case.  So proof is never found without such a header, and
    a header with several empty values counts, its text being the
    separating commas. *)
Theorem hasPaymentProof_headers (req : Request) :
  (hasPaymentProof (extractPaymentHeaders req) = true
   <-> (exists key text,
          In key proof_header_names
          /\ last_header (req_headers req) key = Some text
          /\ text <> "")
       \/ (exists text,
             last_header (req_headers req) "x-payment-status" = Some text
             /\ JsString.toLowerCase text = "paid"))
  /\ ((forall name value,
         In (name, value) (req_headers req) ->
         ~ In (JsString.toLowerCase name)
             ("x-payment-status" :: proof_header_names)) ->
      hasPaymentProof (extractPaymentHeaders req) = false)
  /\ (forall method path demo,
        hasPaymentProof
          (extractPaymentHeaders
             {| req_method := method; req_path := path;
                req_headers := [("X-Payment", HArray [""; ""])];
                req_query_demo := demo |}) = true).
Proof.
  assert (Hchar :
    hasPaymentProof (extractPaymentHeaders req)
    = (existsb
         (fun key =>
            match last_header (req_headers req) key with
            | Some text => negb (String.eqb text "")
            | None => false
            end) proof_header_names
       || match last_header (req_headers req) "x-payment-status" with
          | Some text => String.eqb (JsString.toLowerCase text) "paid"
          | None => false
          end)).
  { unfold hasPaymentProof.
    rewrite !prop_truthy_extracted by reflexivity.
    unfold extractPaymentHeaders. rewrite extract_loop_get.
    change (is_payment_header "x-payment-status") with true. cbn iota.
    cbn [existsb proof_header_names]. rewrite orb_false_r.
    rewrite <- !orb_assoc. do 5 f_equal.
    destruct (last_header (req_headers req) "x-payment-status") as [text |];
      [| reflexivity].
    unfold JsString.truthy.
    destruct (String.eqb text "") eqn:Hempty; [| reflexivity].
    apply String.eqb_eq in Hempty. subst text. reflexivity. }
  split; [| split].
  - rewrite Hchar, orb_true_iff, existsb_exists. split.
    + intros [(key & Hin & Htext) | Hstatus].
      * left. destruct (last_header (req_headers req) key) as [text |] eqn:Hlast;
          [| discriminate].
        exists key, text. split; [exact Hin |]. split; [exact Hlast |].
        apply negb_true_iff, String.eqb_neq in Htext. exact Htext.
      * right.
        destruct (last_header (req_headers req) "x-payment-status") as [text |]
          eqn:Hlast; [| discriminate].
        exists text. split; [reflexivity | apply String.eqb_eq; exact Hstatus].
    + intros [(key & text & Hin & Hlast & Htext) | (text & Hlast & Hpaid)].
      * left. exists key. split; [exact Hin |]. rewrite Hlast.
        apply negb_true_iff, String.eqb_neq. exact Htext.
      * right. rewrite Hlast. apply String.eqb_eq. exact Hpaid.
  - intros Hnone. rewrite Hchar.
    assert (Habsent : forall key,
      In key ("x-payment-status" :: proof_header_names) ->
      last_header (req_headers req) key = None).
    { intros key Hkey. apply last_header_none. intros Hin.
      apply in_map_iff in Hin. destruct Hin as ([name value] & Hname & Hin).
      cbn [fst] in Hname. apply (Hnone name value Hin). rewrite Hname. exact Hkey. }
    cbn [existsb proof_header_names].
    rewrite !Habsent by (cbn; tauto). reflexivity.
  - intros method path demo. reflexivity.
Qed.

(** ** The paid routes of the server *)

Lemma regex_test_literals (prefix : string) (rest : regex) (s : string) :
  regex_test (literals prefix ++ rest)%list s = true
  <-> exists r, s = prefix ++ r /\ regex_test rest r = true.
Proof.
  revert s. induction prefix as [| c p IH]; intros s; cbn [literals List.app append].
  - split; [intros H; exists s; auto | intros (r & -> & H); exact H].
  - cbn [regex_test]. destruct s as [| d s'].
    + split; [discriminate | intros (r & Heq & _); discriminate].
    + rewrite andb_true_iff, IH, Ascii.eqb_eq. split.
      * intros (-> & r & -> & H). exists r. auto.
      * intros (r & [= -> ->] & H). split; [reflexivity | eauto].
Qed.

Lemma regex_test_one_segment (prefix path : string) :
  regex_test (literals prefix ++ [NotSlashPlus])%list path = true
  <-> exists id,
        id <> "" /\ has_slash id = false /\ path = prefix ++ id.
Proof.
  rewrite regex_test_literals. cbn [regex_test].
  split; intros (id & H1 & H2).
  - rewrite not_slash_plus_end in H2. apply andb_true_iff in H2.
    destruct H2 as [Hne Hslash].
    apply negb_true_iff in Hne, Hslash. apply String.eqb_neq in Hne.
    exists id. auto.
  - destruct H2 as [Hslash ->]. exists id. split; [reflexivity |].
    rewrite not_slash_plus_end, Hslash.
    apply String.eqb_neq in H1. rewrite H1. reflexivity.
Qed.

Section PaidRoutes.

Variable formatUsdPrice : string -> string.

(** Which requests the route table of the server matches. *)
Lemma server_route_match (env : Env) (req : Request) :
  (exists route,
     matchPaidRoute req
       (map (compiled_route formatUsdPrice) (buildRoutePricing formatUsdPrice env))
     = Some route)
  <-> JsString.toUpperCase (req_method req) = "GET"
      /\ paid_path (req_path req).
Proof.
  unfold matchPaidRoute, buildRoutePricing.
  cbn [map compiled_route fst snd find route_method route_regex route_key].
  change (JsString.toUpperCase (key_method "GET /score/:agentId")) with "GET".
  change (JsString.toUpperCase (key_method "GET /report/:agentId")) with "GET".
  change (pattern_items false (key_path "GET /score/:agentId"))
    with (literals "/score/" ++ [NotSlashPlus])%list.
  change (pattern_items false (key_path "GET /report/:agentId"))
    with (literals "/report/" ++ [NotSlashPlus])%list.
  pose proof (regex_test_one_segment "/score/" (req_path req)) as Hscore.
  pose proof (regex_test_one_segment "/report/" (req_path req)) as Hreport.
  destruct (String.eqb_spec "GET" (JsString.toUpperCase (req_method req)))
    as [Hmethod | Hmethod]; cbn [andb].
  - destruct (regex_test (literals "/score/" ++ [NotSlashPlus])%list (req_path req))
      eqn:Hs.
    + split; [| eauto]. intros _. split; [auto |].
      destruct Hscore as [Hscore _].
      destruct (Hscore eq_refl) as (id & H1 & H2 & H3). exists id. auto.
    + destruct (regex_test (literals "/report/" ++ [NotSlashPlus])%list (req_path req))
        eqn:Hr.
      * split; [| eauto]. intros _. split; [auto |].
         destruct Hreport as [Hreport _].
         destruct (Hreport eq_refl) as (id & H1 & H2 & H3). exists id. auto.
      * split; [intros [route H]; discriminate |].
         intros (_ & id & H1 & H2 & [H3 | H3]).
         -- destruct Hscore as [_ Hscore].
            assert (false = true) by (apply Hscore; eauto). discriminate.
         -- destruct Hreport as [_ Hreport].
            assert (false = true) by (apply Hreport; eauto). discriminate.
  - split; [intros [route H]; discriminate | intros [H _]; congruence].
Qed.

(** X7.  The stub middleware of the server treats as paid exactly the
    requests whose method is [GET] in any letter case and whose path is
    [/score/<id>] or [/report/<id>] with one non-empty segment [<id>];
    the route it finds is the one of that prefix.  In particular a path
    with a trailing slash or a further segment is not a paid route. *)
Theorem server_paid_routes (env : Env) (req : Request) :
  let paidRoutes :=
    map (compiled_route formatUsdPrice) (buildRoutePricing formatUsdPrice env) in
  buildPaidRoutes formatUsdPrice (buildRoutePricing formatUsdPrice env)
  = Ok paidRoutes
  /\ ((exists route, matchPaidRoute req paidRoutes = Some route)
      <-> JsString.toUpperCase (req_method req) = "GET"
          /\ paid_path (req_path req))
  /\ (forall route id,
        matchPaidRoute req paidRoutes = Some route ->
        (req_path req = "/score/" ++ id -> route_key route = "GET /score/:agentId")
        /\ (req_path req = "/report/" ++ id ->
            route_key route = "GET /report/:agentId"))
  /\ (forall id,
        id <> "" ->
        matchPaidRoute
          {| req_method := "GET"; req_path := "/score/" ++ id ++ "/";
             req_headers := req_headers req;
             req_query_demo := req_query_demo req |} paidRoutes = None).
Proof.
  cbv zeta. split; [apply buildPaidRoutes_ok |].
  unfold matchPaidRoute, buildRoutePricing.
  cbn [map compiled_route fst snd find route_method route_regex route_key].
  change (JsString.toUpperCase (key_method "GET /score/:agentId")) with "GET".
  change (JsString.toUpperCase (key_method "GET /report/:agentId")) with "GET".
  change (pattern_items false (key_path "GET /score/:agentId"))
    with (literals "/score/" ++ [NotSlashPlus])%list.
  change (pattern_items false (key_path "GET /report/:agentId"))
    with (literals "/report/" ++ [NotSlashPlus])%list.
  pose proof (regex_test_one_segment "/score/" (req_path req)) as Hscore.
  pose proof (regex_test_one_segment "/report/" (req_path req)) as Hreport.
  split; [| split].
  - apply server_route_match.
  - intros route id.
    destruct (String.eqb "GET" (JsString.toUpperCase (req_method req)));
      cbn [andb]; [| discriminate].
    destruct (regex_test (literals "/score/" ++ [NotSlashPlus])%list (req_path req))
      eqn:Hs.
    + intros [= <-]. cbn [route_key]. split; [reflexivity |].
      intros Hpath. exfalso.
      destruct Hscore as [Hscore _].
      destruct (Hscore eq_refl) as (id' & _ & _ & H3).
      rewrite Hpath in H3. discriminate H3.
    + destruct (regex_test (literals "/report/" ++ [NotSlashPlus])%list (req_path req))
        eqn:Hr; [| discriminate].
      intros [= <-]. cbn [route_key]. split; [| reflexivity].
      intros Hpath. exfalso.
      destruct Hreport as [Hreport _].
      destruct (Hreport eq_refl) as (id' & _ & _ & H3).
      rewrite Hpath in H3. discriminate H3.
  - intros id Hid. cbn [req_method req_path].
    change (JsString.toUpperCase "GET") with "GET". cbn [String.eqb Ascii.eqb andb].
    assert (Hslash : forall s, has_slash (s ++ "/") = true).
    { intros s. unfold has_slash. induction s as [| c r IH]; [reflexivity |].
      cbn [append all_chars]. destruct (Ascii.eqb c "/"); [reflexivity |].
      cbn [negb andb]. exact IH. }
    assert (Hno_score :
      regex_test (literals "/score/" ++ [NotSlashPlus])%list ("/score/" ++ id ++ "/")
      = false).
    { apply not_true_is_false. intros H.
      apply regex_test_one_segment in H. destruct H as (id' & _ & H2 & H3).
      injection H3 as H3. rewrite <- H3, Hslash in H2. discriminate. }
    assert (Hno_report :
      regex_test (literals "/report/" ++ [NotSlashPlus])%list ("/score/" ++ id ++ "/")
      = false).
    { apply not_true_is_false. intros H.
      apply regex_test_one_segment in H. destruct H as (id' & _ & _ & H3).
      discriminate H3. }
    rewrite Hno_score, Hno_report. reflexivity.
Qed.

End PaidRoutes.

(** ** The app behind its gateway *)

(** The enforcement flag [createApp] hands to the gateway is the one
    the access resolver reads. *)
Lemma enforce_flag_consistent (env : Env) :
  toBoolean (FStr (or_else (env "X402_STUB_ENFORCE") "false")) false
  = enforcement_override env.
Proof.
  unfold enforcement_override, or_else, flag_of_env.
  destruct (env "X402_STUB_ENFORCE") as [s |]; [| reflexivity].
  unfold JsString.truthy. destruct (String.eqb_spec s "") as [-> | Hne];
    reflexivity.
Qed.

Section AppProperties.

Variable formatUsdPrice : string -> string.
Variable Number_ : option string -> JsNumber.number.
Variable loadScoringConfigFromEnv : Env -> ScoringConfig.
Variable validateAgentIdParam : Request -> (Z * string) + Z.

Lemma createApp_parts (pkgs : Packages) (env : Env) (app : App) :
  createApp formatUsdPrice Number_ loadScoringConfigFromEnv pkgs env = Ok app ->
  app_env app = env
  /\ app_routePricing app = buildRoutePricing formatUsdPrice env
  /\ app_readerEnabled app = some_truthy (env "TRUST_SCORE_ADDRESS")
  /\ app_scoringConfig app = loadScoringConfigFromEnv env
  /\ app_pollIntervalMs app
     = toPositiveInt Number_ (env "INDEXER_POLL_INTERVAL_MS")
         (JsNumber.of_Z 900000)
  /\ createPaymentMiddleware formatUsdPrice pkgs
       {| opt_mode := Some (or_else (env "X402_MODE") "auto");
          opt_routeConfig := buildRoutePricing formatUsdPrice env;
          opt_enforceStubPayment :=
            FStr (or_else (env "X402_STUB_ENFORCE") "false");
          opt_payTo := None;
          opt_env := env |} = Ok (app_payment app).
Proof.
  unfold createApp.
  destruct (createPaymentMiddleware _ _ _) as [payment |]; cbn;
    [| discriminate].
  intros H. inversion H. cbn. repeat split; reflexivity.
Qed.

Lemma createApp_stub_middleware (pkgs : Packages) (env : Env) (app : App) :
  createApp formatUsdPrice Number_ loadScoringConfigFromEnv pkgs env = Ok app ->
  usingRealMiddleware (app_payment app) = false ->
  middleware (app_payment app)
  = StubMiddleware
      (map (compiled_route formatUsdPrice) (buildRoutePricing formatUsdPrice env))
      (enforcement_override env).
Proof.
  intros Happ Hstub.
  destruct (createApp_parts pkgs env app Happ) as (_ & _ & _ & _ & _ & Hpayment).
  destruct (createPaymentMiddleware_stub_shape _ _ _ _ Hpayment Hstub)
    as [_ Hmw].
  rewrite Hmw. cbn [opt_routeConfig opt_enforceStubPayment].
  rewrite enforce_flag_consistent. reflexivity.
Qed.

(** X8.  In an app whose gateway is the stub, the middleware enforces
    payment exactly when [X402_STUB_ENFORCE] is on, the flag the access
    resolver reads.  A request outside the paid routes passes as [free].
    With the flag off the middleware answers no request itself.  With the
    flag on, a request to a paid route without payment proof is answered
    with the middleware's 402 and tagged [unpaid_stub], before validator
    and handler run, and whatever its [demo] query says. *)
Theorem createApp_stub_gateway (pkgs : Packages) (env : Env) (app : App) :
  createApp formatUsdPrice Number_ loadScoringConfigFromEnv pkgs env = Ok app ->
  usingRealMiddleware (app_payment app) = false ->
  middleware (app_payment app)
  = StubMiddleware
      (map (compiled_route formatUsdPrice) (buildRoutePricing formatUsdPrice env))
      (enforcement_override env)
  /\ (forall req,
        ~ (JsString.toUpperCase (req_method req) = "GET"
           /\ paid_path (req_path req)) ->
        run_middleware (app_payment app) req None = Next (Some "free"))
  /\ (enforcement_override env = false ->
      forall req status,
        exists status',
          run_middleware (app_payment app) req status = Next status')
  /\ (enforcement_override env = true ->
      forall req world endpoint,
        JsString.toUpperCase (req_method req) = "GET" ->
        paid_path (req_path req) ->
        carries_proof req = false ->
        exists response,
          serve validateAgentIdParam app world endpoint req
          = (response, Some "unpaid_stub")
          /\ is_payment_challenge response = true
          /\ status_of response = 402%Z).
Proof.
  intros Happ Hstub.
  pose proof (createApp_stub_middleware pkgs env app Happ Hstub) as Hmw.
  split; [exact Hmw |].
  unfold serve, run_middleware. rewrite Hmw.
  split; [| split].
  - intros req Hfree. unfold stubPaymentMiddleware.
    destruct (matchPaidRoute req _) as [route |] eqn:Hmatch; [| reflexivity].
    exfalso. apply Hfree.
    apply (server_route_match formatUsdPrice env req). eauto.
  - intros Hoff req status. rewrite Hoff. unfold stubPaymentMiddleware.
    destruct (matchPaidRoute req _); rewrite ?andb_false_r; eauto.
  - intros Hon req world endpoint Hmethod Hpath Hproof. rewrite Hon.
    destruct (server_route_match formatUsdPrice env req) as [_ Hmatch].
    destruct (Hmatch (conj Hmethod Hpath)) as [route Hroute].
    destruct (stub_enforcement_ignores_demo _ req None route Hroute Hproof)
      as (r & p & n & d & Hrespond).
    rewrite Hrespond. eexists. split; [reflexivity |]. split; reflexivity.
Qed.

Ltac by_reader_and_ledger :=
  repeat match goal with
         | |- _ /\ _ => split
         | |- _ -> _ => intro
         | |- forall _, _ => intro
         | H : app_readerEnabled _ = _ |- _ => rewrite H in *; clear H
         | H : getDetailedReport _ _ = _ |- _ => rewrite H in *; clear H
         end;
  cbn; try reflexivity; try discriminate; try congruence.

(** X9.  A route handler of the app follows the tier of the access
    decision.  A request in the challenge tier gets the handler's 402
    before the ledger is looked at, even when no ledger is configured.
    Any other request gets 503 when no ledger is configured.  With a
    ledger: a record is served as the demo payload in the demo tier
    (tagged [demo_free]) and as the full payload in the full tier (tagged
    [paid_real] or [paid_stub], also when the request carried no payment);
    a call exception gives the demo payload without score in the demo
    tier and 404 in the full tier; any other error goes to the error
    handler. *)
Theorem handler_follows_tier (pkgs : Packages) (env : Env) (app : App)
    (world : World) (endpoint : Endpoint) (req : Request) (agentId : Z)
    (status : option string) :
  createApp formatUsdPrice Number_ loadScoringConfigFromEnv pkgs env = Ok app ->
  let answer :=
    match endpoint with
    | ScoreEndpoint => scoreHandler app world req agentId status
    | ReportEndpoint => reportHandler app world req agentId status
    end in
  let tier :=
    fst (precedence (usingRealMiddleware (app_payment app)) (carries_proof req)
           (demo_allowed (app_env app)) (isDemoRequest req)
           (enforcement_required (app_env app) (app_payment app))) in
  (tier = TierChallenge ->
   is_payment_challenge (fst answer) = true
   /\ status_of (fst answer) = 402%Z
   /\ snd answer = status)
  /\ (tier <> TierChallenge -> app_readerEnabled app = false ->
      fst answer = NotConfigured)
  /\ (app_readerEnabled app = true ->
      forall record, getDetailedReport world agentId = ReadOk record ->
      (tier = TierDemo ->
       is_demo_payload (fst answer) = true /\ snd answer = Some "demo_free")
      /\ (tier = TierFull ->
          is_full_payload (fst answer) = true
          /\ snd answer
             = Some (if usingRealMiddleware (app_payment app)
                     then "paid_real" else "paid_stub")))
  /\ (app_readerEnabled app = true ->
      getDetailedReport world agentId = ReadCallException ->
      (tier = TierDemo ->
       is_demo_payload (fst answer) = true /\ snd answer = Some "demo_free")
      /\ (tier = TierFull -> status_of (fst answer) = 404%Z))
  /\ (app_readerEnabled app = true ->
      forall statusCode message,
        getDetailedReport world agentId = ReadError statusCode message ->
        tier <> TierChallenge ->
        fst answer = error_response statusCode message).
Proof.
  intros Happ.
  destruct (createApp_parts pkgs env app Happ) as (_ & Hpricing & _).
  cbv zeta.
  unfold precedence, enforcement_required, enforcement_override, demo_allowed,
    carries_proof.
  destruct endpoint;
    unfold scoreHandler, reportHandler, resolvePaidRouteAccess, paid_status;
    rewrite Hpricing;
    destruct (usingRealMiddleware (app_payment app));
    destruct (hasPaymentProof (extractPaymentHeaders req));
    destruct (toBoolean (flag_of_env (app_env app "X402_ALLOW_DEMO_QUERY")) true
              && isDemoRequest req);
    destruct (fallbackFromReal (app_payment app)
              || toBoolean (flag_of_env (app_env app "X402_STUB_ENFORCE")) false);
    cbn [fst snd paymentRequired allowDemoResponse];
    by_reader_and_ledger.
Qed.

End AppProperties.

Lemma createApp_stub_gateway_witness :
  exists app,
    createApp (fun p => p) (fun _ => JsNumber.NaN) (fun _ => default_scoring)
      no_packages stub_enforce_env = Ok app
    /\ middleware (app_payment app)
       = StubMiddleware
           (map (compiled_route (fun p => p))
              (buildRoutePricing (fun p => p) stub_enforce_env))
           (enforcement_override stub_enforce_env).
Proof.
  eexists. split; [reflexivity |].
  destruct (createApp_stub_gateway (fun p => p) (fun _ => JsNumber.NaN)
              (fun _ => default_scoring) (fun _ => inr 1%Z)
              no_packages stub_enforce_env _ eq_refl eq_refl) as [H _].
  exact H.
Defined.

Lemma handler_follows_tier_witness :
  exists app,
    createApp (fun p => p) (fun _ => JsNumber.NaN) (fun _ => default_scoring)
      no_packages fallback_env = Ok app
    /\ is_demo_payload (fst (scoreHandler app sample_world demo_request 1%Z None))
       = true.
Proof.
  eexists. split; [reflexivity |].
  destruct (handler_follows_tier (fun p => p) (fun _ => JsNumber.NaN)
              (fun _ => default_scoring) no_packages fallback_env _
              sample_world ScoreEndpoint demo_request 1%Z None eq_refl)
    as (_ & _ & Hrecord & _).
  destruct (Hrecord eq_refl trusted_record eq_refl) as [Hdemo _].
  destruct (Hdemo eq_refl) as [H _]. exact H.
Defined.


(** ** Integers held exactly *)

Open Scope Z_scope.

(** A mantissa of 53 bits within the exponent range is not rounded. *)
Lemma round_aux_exact (s : bool) (p : positive) (ex : Z) :
  Zpos (digits2_pos p) = 53 ->
  -1074 <= ex <= 971 ->
  binary_round_aux 53 1024 s (Zpos p) ex loc_Exact = S754_finite s p ex.
Proof.
  intros Hd Hex.
  assert (Hshr : shr_fexp 53 1024 (Zpos p) ex loc_Exact
                 = (shr_record_of_loc (Zpos p) loc_Exact, ex)).
  { unfold shr_fexp, fexp, emin. cbn [Zdigits2]. rewrite Hd.
    rewrite Z.max_l by lia.
    replace (53 + ex - 53 - ex) with 0 by lia. reflexivity. }
  unfold binary_round_aux. rewrite Hshr.
  cbn [shr_record_of_loc loc_of_shr_record shr_m shr_r shr_s round_nearest_even].
  rewrite Hshr. cbn [shr_record_of_loc shr_m].
  change (1024 - 53) with 971.
  replace (ex <=? 971) with true by (symmetry; apply Z.leb_le; lia).
  reflexivity.
Qed.

(** [Number(z)] for a positive BigInt below [2^53]: the mantissa is
    [z] shifted to 53 bits. *)
Lemma of_Z_exact_shape (p : positive) :
  Zpos p < 2 ^ 53 ->
  exists m e,
    JsNumber.of_Z (Zpos p) = S754_finite false m e
    /\ -52 <= e <= 0
    /\ Zpos m = Zpos p * 2 ^ (- e).
Proof.
  intros Hp.
  unfold JsNumber.of_Z, binary_normalize, JsNumber.prec, JsNumber.emax.
  destruct (binary_round_aligned false p) as (mz & ez & -> & Hez & Hmz & Hdz & Hsum).
  pose proof (digits2_at_most p 53 Hp) as Hd.
  pose proof (Pos2Z.is_pos (digits2_pos p)) as Hd0.
  rewrite Z.max_l in Hdz by lia.
  exists mz, ez. split; [| split; [lia | exact Hmz]].
  apply round_aux_exact; [exact Hdz | lia].
Qed.

Open Scope Q_scope.

Lemma to_Z_of_value (s : bool) (m : positive) (e : Z) (n : Z) :
  JsNumber.finite_value s m e == inject_Z n ->
  JsNumber.to_Z (S754_finite s m e) = Some n.
Proof.
  intros Hvalue. cbn [JsNumber.to_Z].
  assert (Hfloor : Qfloor (JsNumber.finite_value s m e) = n).
  { rewrite Hvalue. apply Qfloor_Z. }
  rewrite Hfloor.
  replace (Qeq_bool (JsNumber.finite_value s m e) (inject_Z n)) with true
    by (symmetry; apply Qeq_bool_iff; exact Hvalue).
  reflexivity.
Qed.

Lemma shifted_value (p m : positive) (e : Z) :
  (e <= 0)%Z -> Zpos m = (Zpos p * 2 ^ (- e))%Z ->
  inject_Z (Zpos m) * 2 ^ e == inject_Z (Zpos p).
Proof.
  intros He Hm. rewrite Hm, inject_Z_mult, inject_pow2 by lia.
  rewrite <- Qmult_assoc, <- Qpower_plus by exact two_not_zero.
  replace (- e + e)%Z with 0%Z by lia. cbn [Qpower]. ring.
Qed.

(** The Number of a BigInt from 0 to [2^53 - 1] is that integer. *)
Lemma of_Z_exact (z : Z) :
  (0 <= z < 2 ^ 53)%Z ->
  JsNumber.to_Z (JsNumber.of_Z z) = Some z
  /\ exists q,
       JsNumber.value (JsNumber.of_Z z) = Some (JsNumber.Fin q)
       /\ q == inject_Z z.
Proof.
  intros [Hlow Hhigh]. destruct z as [| p | p]; [| | lia].
  - split; [reflexivity |]. exists 0. split; reflexivity.
  - destruct (of_Z_exact_shape p Hhigh) as (m & e & -> & He & Hm).
    assert (Hvalue : JsNumber.finite_value false m e == inject_Z (Zpos p)).
    { rewrite (finite_value_pow false m e). cbn beta iota.
      apply shifted_value; [lia | exact Hm]. }
    split; [apply to_Z_of_value; exact Hvalue |].
    exists (JsNumber.finite_value false m e). split; [reflexivity | exact Hvalue].
Qed.

(** The value of a Number that is positive and normal. *)
Lemma normal_number_value (x : JsNumber.number) (v : Q) (lo hi : Z) :
  normal_number x v lo hi ->
  exists q, JsNumber.value x = Some (JsNumber.Fin q) /\ q == v.
Proof.
  intros (m & e & -> & _ & _ & Hv).
  exists (JsNumber.finite_value false m e). split; [reflexivity |].
  rewrite Hv. exact (finite_value_pow false m e).
Qed.

Lemma Qcompare_inject_Z (a b : Z) :
  (inject_Z a ?= inject_Z b) = (a ?= b)%Z.
Proof. unfold Qcompare, inject_Z. cbn. now rewrite !Z.mul_1_r. Qed.

(** The value of a Number that holds an integer. *)
Lemma to_Z_value (x : JsNumber.number) (n : Z) :
  JsNumber.to_Z x = Some n ->
  exists q, JsNumber.value x = Some (JsNumber.Fin q) /\ q == inject_Z n.
Proof.
  destruct x as [s | s | | s m e]; cbn [JsNumber.to_Z]; try discriminate.
  - intros [= <-]. exists 0. split; reflexivity.
  - destruct (Qeq_bool (JsNumber.finite_value s m e)
                (inject_Z (Qfloor (JsNumber.finite_value s m e)))) eqn:Heq;
      [| discriminate].
    intros [= <-]. apply Qeq_bool_iff in Heq.
    exists (JsNumber.finite_value s m e). split; [reflexivity | exact Heq].
Qed.

(** Comparing the Number of an unsigned 256-bit BigInt with a Number
    that holds an integer up to [2^52] is comparing the integers. *)
Lemma compare_of_Z_integer (z : Z) (x : JsNumber.number) (c : Z) :
  (0 <= z < 2 ^ 256)%Z ->
  JsNumber.to_Z x = Some c ->
  (c <= 2 ^ 52)%Z ->
  JsNumber.compare (JsNumber.of_Z z) x = Some (z ?= c)%Z.
Proof.
  intros Hz Hx Hc.
  destruct (to_Z_value x c Hx) as (qc & Hqc & Hvalue_c).
  unfold JsNumber.compare. rewrite Hqc.
  destruct (Z_lt_le_dec z (2 ^ 53)) as [Hsmall | Hlarge].
  - destruct (of_Z_exact z ltac:(lia)) as (_ & qz & -> & Hvalue_z).
    cbn [JsNumber.ext_compare].
    rewrite Hvalue_z, Hvalue_c. f_equal. apply Qcompare_inject_Z.
  - destruct (of_Z_normal z) as (v & Hnormal & Hlower & _); [lia |].
    destruct (normal_number_value _ _ _ _ Hnormal) as (qz & -> & Hqz).
    cbn [JsNumber.ext_compare]. rewrite Hqz, Hvalue_c.
    assert (Hgt : (c < z)%Z).
    { change (2 ^ 52)%Z with 4503599627370496%Z in Hc.
      change (2 ^ 53)%Z with 9007199254740992%Z in Hlarge. lia. }
    rewrite (proj2 (Z.compare_gt_iff z c) Hgt). f_equal.
    apply Qgt_alt.
    assert (Hz53 : inject_Z (2 ^ 53) <= inject_Z z)
      by (rewrite <- Zle_Qle; exact Hlarge).
    assert (Hc52 : inject_Z c <= inject_Z (2 ^ 52))
      by (rewrite <- Zle_Qle; lia).
    change (inject_Z (2 ^ 52 - 1)) with (4503599627370495 # 1) in *.
    change (inject_Z (2 ^ 52)) with (4503599627370496 # 1) in *.
    change (inject_Z (2 ^ 53)) with (9007199254740992 # 1) in *.
    set (Z' := inject_Z z) in *. set (C' := inject_Z c) in *.
    clearbody Z' C'. lra.
Qed.

Lemma compare_of_Z (z c : Z) :
  (0 <= z < 2 ^ 256)%Z -> (0 <= c <= 2 ^ 52)%Z ->
  JsNumber.compare (JsNumber.of_Z z) (JsNumber.of_Z c) = Some (z ?= c)%Z.
Proof.
  intros Hz Hc. apply compare_of_Z_integer; [exact Hz | | lia].
  apply of_Z_exact.
  change (2 ^ 52)%Z with 4503599627370496%Z in Hc.
  change (2 ^ 53)%Z with 9007199254740992%Z. lia.
Qed.

Lemma gt_of_Z_integer (z : Z) (x : JsNumber.number) (c : Z) :
  (0 <= z < 2 ^ 256)%Z -> JsNumber.to_Z x = Some c -> (c <= 2 ^ 52)%Z ->
  JsNumber.gt x (JsNumber.of_Z z) = (z <? c)%Z
  /\ JsNumber.gt (JsNumber.of_Z z) x = (c <? z)%Z
  /\ JsNumber.ge (JsNumber.of_Z z) x = (c <=? z)%Z.
Proof.
  intros Hz Hx Hc.
  pose proof (compare_of_Z_integer z x c Hz Hx Hc) as Hcompare.
  unfold JsNumber.gt, JsNumber.ge, JsNumber.lt, JsNumber.le.
  rewrite (number_compare_antisym (JsNumber.of_Z z) x), Hcompare.
  cbn [option_map]. unfold Z.ltb, Z.leb. rewrite (Z.compare_antisym z c).
  destruct (z ?= c)%Z; cbn; auto.
Qed.

Lemma of_Z_not_nan (z : Z) :
  (0 <= z < 2 ^ 256)%Z -> JsNumber.is_nan (JsNumber.of_Z z) = false.
Proof.
  intros Hz.
  pose proof (compare_of_Z z 0 Hz ltac:(split; [lia | discriminate])) as H.
  unfold JsNumber.compare in H.
  destruct (JsNumber.of_Z z); [reflexivity | reflexivity | discriminate H | reflexivity].
Qed.

Close Scope Q_scope.
Close Scope Z_scope.

(** ** What the payloads say about a ledger record *)

(** X10.  For a non-negative BigInt, [asSafeNumber] returns a Number
    exactly when the value is at most [Number.MAX_SAFE_INTEGER], and that
    Number holds the value exactly; a larger value is returned as its
    decimal text. *)
Theorem asSafeNumber_exact (value : Z) :
  (0 <= value)%Z ->
  match asSafeNumber value with
  | AsNumber n =>
      (value <= MAX_SAFE_INTEGER)%Z /\ JsNumber.to_Z n = Some value
  | AsDecimalString text =>
      (MAX_SAFE_INTEGER < value)%Z /\ text = value
  end.
Proof.
  intros Hvalue. unfold asSafeNumber.
  destruct (value <=? MAX_SAFE_INTEGER)%Z eqn:Hsafe.
  - apply Z.leb_le in Hsafe. split; [exact Hsafe |].
    apply of_Z_exact. unfold MAX_SAFE_INTEGER in Hsafe.
    change (2 ^ 53)%Z with 9007199254740992%Z. lia.
  - apply Z.leb_gt in Hsafe. split; [exact Hsafe | reflexivity].
Qed.

Lemma asSafeNumber_exact_witness :
  (1771085895 <= MAX_SAFE_INTEGER)%Z
  /\ JsNumber.to_Z (JsNumber.of_Z 1771085895) = Some 1771085895%Z.
Proof.
  apply (asSafeNumber_exact 1771085895). lia.
Defined.

(** X11.  The verdict and the confidence band of the demo payloads are
    taken from [Number(score)] and [Number(totalFeedback)]; for unsigned
    256-bit fields they follow the integer thresholds exactly: [TRUSTED]
    above 700, [CAUTION] from 400 to 700, [DANGEROUS] below 400 and never
    [UNKNOWN]; [high] from 50 entries on, [low] from 1 to 49, [none] for
    no entry. *)
Theorem demo_fields_of_record (record : FeedbackRecord) :
  uint256 (score record) ->
  uint256 (totalFeedback record) ->
  resolveVerdict (JNumber (JsNumber.of_Z (score record)))
  = (if (700 <? score record)%Z then "TRUSTED"
     else if (400 <=? score record)%Z then "CAUTION"
     else "DANGEROUS")
  /\ resolveConfidenceBand (JsNumber.of_Z (totalFeedback record))
     = (if (50 <=? totalFeedback record)%Z then "high"
        else if (0 <? totalFeedback record)%Z then "low"
        else "none").
Proof.
  intros Hscore Htotal. unfold uint256 in *.
  assert (Hsmall : forall c, (0 <= c <= 1000)%Z ->
    JsNumber.to_Z (JsNumber.of_Z c) = Some c /\ (c <= 2 ^ 52)%Z).
  { intros c Hc. split.
    - apply of_Z_exact. change (2 ^ 53)%Z with 9007199254740992%Z. lia.
    - change (2 ^ 52)%Z with 4503599627370496%Z. lia. }
  split.
  - unfold resolveVerdict. rewrite (of_Z_not_nan _ Hscore).
    destruct (Hsmall 700%Z ltac:(lia)) as [H700 B700].
    destruct (Hsmall 400%Z ltac:(lia)) as [H400 B400].
    destruct (gt_of_Z_integer _ _ _ Hscore H700 B700) as (_ & -> & _).
    destruct (gt_of_Z_integer _ _ _ Hscore H400 B400) as (_ & _ & ->).
    reflexivity.
  - unfold resolveConfidenceBand.
    destruct (Hsmall 50%Z ltac:(lia)) as [H50 B50].
    destruct (Hsmall 0%Z ltac:(lia)) as [H0 B0].
    destruct (gt_of_Z_integer _ _ _ Htotal H50 B50) as (_ & _ & ->).
    destruct (gt_of_Z_integer _ _ _ Htotal H0 B0) as (_ & -> & _).
    reflexivity.
Qed.

Lemma demo_fields_of_record_witness :
  resolveVerdict (JNumber (JsNumber.of_Z 950)) = "TRUSTED"
  /\ resolveConfidenceBand (JsNumber.of_Z 100) = "high".
Proof.
  apply (demo_fields_of_record trusted_record);
    unfold uint256; cbn; split; [lia | reflexivity | lia | reflexivity].
Defined.

(** ** Two-sided error of the rate *)

Open Scope Z_scope.
Open Scope Q_scope.

(** A quotient of two normal numbers is within a relative [2^-51] of
    the exact quotient, on either side. *)
Lemma div_normal_bounds (a b : JsNumber.number) (va vb : Q) (la ha lb hb : Z) :
  normal_number a va la ha ->
  normal_number b vb lb hb ->
  (-1074 <= la - hb - 53)%Z ->
  (ha - lb - 51 <= 971)%Z ->
  exists v,
    normal_number (JsNumber.div a b) v (la - hb - 53) (ha - lb - 51)
    /\ inject_Z (2 ^ 52) * (v * vb) <= inject_Z (2 ^ 52 + 1) * va
    /\ inject_Z (2 ^ 52 - 1) * va <= inject_Z (2 ^ 52 + 1) * (v * vb).
Proof.
  intros (ma & ea & -> & Hma & Hea & Hva) (mb & eb & -> & Hmb & Heb & Hvb)
    Hlow Hhigh.
  unfold JsNumber.div, SFdiv, SFdiv_core_binary, fexp, emin,
    JsNumber.prec, JsNumber.emax.
  cbn [Zdigits2 xorb].
  rewrite (normal_number_digits ma Hma), (normal_number_digits mb Hmb).
  replace (53 + ea - (53 + eb))%Z with (ea - eb)%Z by lia.
  rewrite Z.max_l by lia. rewrite Z.min_l by lia.
  replace (ea - eb - (ea - eb - 53))%Z with 53%Z by lia.
  rewrite Z.shiftl_mul_pow2 by lia.
  pose proof (Z.div_eucl_eq (Zpos ma * 2 ^ 53) (Zpos mb) ltac:(lia)) as Heucl.
  pose proof (Z.mod_pos_bound (Zpos ma * 2 ^ 53) (Zpos mb) ltac:(lia)) as Hmod.
  unfold Z.modulo in Hmod.
  destruct (Z.div_eucl (Zpos ma * 2 ^ 53) (Zpos mb)) as [q r].
  assert (Hq : (2 ^ 52 <= q < 2 ^ 54)%Z).
  { change (2 ^ 52)%Z with 4503599627370496%Z in *.
    change (2 ^ 53)%Z with 9007199254740992%Z in *.
    change (2 ^ 54)%Z with 18014398509481984%Z. nia. }
  destruct q as [| q | q]; try lia.
  assert (Hdq : (53 <= Zpos (digits2_pos q) <= 54)%Z).
  { split; [apply digits2_at_least | apply digits2_at_most]; lia. }
  destruct (round_aux_value false q (ea - eb - 53) (new_location (Zpos mb) r))
    as (m3 & e3 & -> & Hm3 & He3 & Hlower & Hupper); [lia | lia |].
  replace (e3 <=? 971)%Z with true by (symmetry; apply Z.leb_le; lia).
  exists (inject_Z (Zpos m3) * 2 ^ e3).
  split; [exists m3, e3; repeat split; lia |].
  set (v := inject_Z (Zpos m3) * 2 ^ e3) in *.
  set (x := (ea - eb - 53)%Z) in *.
  assert (Hvb0 : 0 < vb).
  { rewrite Hvb. apply Qmult_lt_0_compat; [reflexivity | apply pow2_pos]. }
  assert (Hscale : forall k : Z,
    inject_Z (k * Zpos mb) * 2 ^ (- (53) + ea) == inject_Z k * 2 ^ x * vb).
  { intros k. rewrite Hvb, inject_Z_mult.
    replace (- (53) + ea)%Z with (x + eb)%Z by (unfold x; lia).
    rewrite Qpower_plus by exact two_not_zero. ring. }
  assert (Hva' : va == inject_Z (Zpos ma * 2 ^ 53) * 2 ^ (- (53) + ea)).
  { rewrite Hva, inject_Z_mult, inject_pow2 by lia.
    rewrite Qpower_plus by exact two_not_zero.
    rewrite Qpower_opp. field. }
  assert (Hpow : 0 <= 2 ^ (- (53) + ea)) by apply Qlt_le_weak, pow2_pos.
  assert (Hquot : inject_Z (Zpos q) * 2 ^ x * vb <= va).
  { rewrite Hva', <- Hscale.
    apply Qmult_le_compat_r; [| exact Hpow]. rewrite <- Zle_Qle. lia. }
  assert (Hnext : va <= inject_Z (Zpos q + 1) * 2 ^ x * vb).
  { rewrite Hva', <- Hscale.
    apply Qmult_le_compat_r; [| exact Hpow]. rewrite <- Zle_Qle. lia. }
  assert (Hunit : inject_Z (2 ^ 52) * (2 ^ x * vb)
                  <= inject_Z (Zpos q) * 2 ^ x * vb).
  { rewrite <- Qmult_assoc.
    apply Qmult_le_compat_r;
      [rewrite <- Zle_Qle; lia |].
    apply Qlt_le_weak, Qmult_lt_0_compat; [apply pow2_pos | exact Hvb0]. }
  assert (Hlow_vb : inject_Z (2 ^ 52 - 1) * (inject_Z (Zpos q) * 2 ^ x * vb)
                    <= inject_Z (2 ^ 52) * (v * vb)).
  { setoid_replace (inject_Z (2 ^ 52 - 1) * (inject_Z (Zpos q) * 2 ^ x * vb))
      with (inject_Z (2 ^ 52 - 1) * (inject_Z (Zpos q) * 2 ^ x) * vb) by ring.
    setoid_replace (inject_Z (2 ^ 52) * (v * vb))
      with (inject_Z (2 ^ 52) * v * vb) by ring.
    apply Qmult_le_compat_r; [exact Hlower | apply Qlt_le_weak, Hvb0]. }
  assert (Hup_vb : inject_Z (2 ^ 52) * (v * vb)
                   <= inject_Z (2 ^ 52 + 1) * (inject_Z (Zpos q) * 2 ^ x * vb)).
  { setoid_replace (inject_Z (2 ^ 52 + 1) * (inject_Z (Zpos q) * 2 ^ x * vb))
      with (inject_Z (2 ^ 52 + 1) * (inject_Z (Zpos q) * 2 ^ x) * vb) by ring.
    setoid_replace (inject_Z (2 ^ 52) * (v * vb))
      with (inject_Z (2 ^ 52) * v * vb) by ring.
    apply Qmult_le_compat_r; [exact Hupper | apply Qlt_le_weak, Hvb0]. }
  assert (Hsucc : inject_Z (Zpos q + 1) * 2 ^ x * vb
                  == inject_Z (Zpos q) * 2 ^ x * vb + 2 ^ x * vb).
  { rewrite inject_Z_plus. ring. }
  rewrite Hsucc in Hnext.
  change (inject_Z (2 ^ 52 + 1)) with (4503599627370497 # 1) in *.
  change (inject_Z (2 ^ 52 - 1)) with (4503599627370495 # 1) in *.
  change (inject_Z (2 ^ 52)) with (4503599627370496 # 1) in *.
  set (P := inject_Z (Zpos q) * 2 ^ x * vb) in *.
  set (S' := 2 ^ x * vb) in *.
  set (W := v * vb) in *.
  clearbody P S' W. split; lra.
Qed.

(** A product of two normal numbers is within a relative [2^-52] of
    the exact product, on either side. *)
Lemma mul_normal_bounds (a b : JsNumber.number) (va vb : Q) (la ha lb hb : Z) :
  normal_number a va la ha ->
  normal_number b vb lb hb ->
  (-1074 <= la + lb + 52)%Z ->
  (ha + hb + 54 <= 971)%Z ->
  exists v,
    normal_number (JsNumber.mul a b) v (la + lb + 52) (ha + hb + 54)
    /\ inject_Z (2 ^ 52 - 1) * (va * vb) <= inject_Z (2 ^ 52) * v
       <= inject_Z (2 ^ 52 + 1) * (va * vb).
Proof.
  intros (ma & ea & -> & Hma & Hea & Hva) (mb & eb & -> & Hmb & Heb & Hvb)
    Hlow Hhigh.
  unfold JsNumber.mul, SFmul, JsNumber.prec, JsNumber.emax. cbn [xorb].
  assert (Hprod : (2 ^ 104 <= Zpos (ma * mb) < 2 ^ 106)%Z).
  { rewrite Pos2Z.inj_mul.
    change (2 ^ 52)%Z with 4503599627370496%Z in *.
    change (2 ^ 53)%Z with 9007199254740992%Z in *.
    change (2 ^ 104)%Z with (4503599627370496 * 4503599627370496)%Z.
    change (2 ^ 106)%Z with (9007199254740992 * 9007199254740992)%Z. nia. }
  assert (Hd : (105 <= Zpos (digits2_pos (ma * mb)) <= 106)%Z).
  { split; [apply digits2_at_least | apply digits2_at_most]; lia. }
  destruct (round_aux_value false (ma * mb) (ea + eb) loc_Exact)
    as (m3 & e3 & -> & Hm3 & He3 & Hbounds); [lia | lia |].
  replace (e3 <=? 971)%Z with true by (symmetry; apply Z.leb_le; lia).
  exists (inject_Z (Zpos m3) * 2 ^ e3). split.
  - exists m3, e3. repeat split; lia.
  - assert (Hproduct : va * vb == inject_Z (Zpos (ma * mb)) * 2 ^ (ea + eb)).
    { rewrite Hva, Hvb, Pos2Z.inj_mul, inject_Z_mult.
      rewrite Qpower_plus by exact two_not_zero. ring. }
    rewrite Hproduct. exact Hbounds.
Qed.

(** The rate before [Math.round], times the total, is within a relative
    [10^-14] of 10000 times the negative count. *)
Lemma rate_bounds (negative total : Z) :
  (0 < negative <= total)%Z -> (total < 2 ^ 256)%Z ->
  exists v,
    normal_number
      (JsNumber.mul
         (JsNumber.div (JsNumber.of_Z negative) (JsNumber.of_Z total))
         (JsNumber.of_Z 10000))
      v (-296) 220
    /\ (99999999999999 # 100000000000000) * ((10000 # 1) * inject_Z negative)
       <= v * inject_Z total
       <= (100000000000001 # 100000000000000) * ((10000 # 1) * inject_Z negative).
Proof.
  intros [Hneg Hle] Htotal.
  destruct (of_Z_normal negative) as (va & Ha & Hva_low & Hva_up); [lia |].
  destruct (of_Z_normal total) as (vb & Hb & Hvb_low & Hvb_up); [lia |].
  destruct (div_normal_bounds _ _ _ _ _ _ _ _ Ha Hb)
    as (vq & Hq & Hvq_up & Hvq_low); [lia | lia |].
  assert (Hc : normal_number (JsNumber.of_Z 10000) (10000 # 1) (-39) (-39)).
  { exists 5497558138880000%positive, (-39)%Z.
    repeat split; try reflexivity; try discriminate. }
  destruct (mul_normal_bounds _ _ _ _ _ _ _ _ Hq Hc)
    as (vp & Hp & Hvp_low & Hvp_up); [lia | lia |].
  exists vp. split; [exact Hp |].
  pose proof (normal_number_positive _ _ _ _ Hq) as Hq0.
  assert (HT : 0 < inject_Z total).
  { change 0 with (inject_Z 0). rewrite <- Zlt_Qlt. lia. }
  assert (HN : 0 < inject_Z negative).
  { change 0 with (inject_Z 0). rewrite <- Zlt_Qlt. lia. }
  change (inject_Z (2 ^ 52 + 1)) with (4503599627370497 # 1) in *.
  change (inject_Z (2 ^ 52 - 1)) with (4503599627370495 # 1) in *.
  change (inject_Z (2 ^ 52)) with (4503599627370496 # 1) in *.
  set (T := inject_Z total) in *. set (N := inject_Z negative) in *.
  clearbody T N.
  assert (H1 : (4503599627370495 # 1) * (vq * T)
               <= (4503599627370496 # 1) * (vq * vb)).
  { setoid_replace ((4503599627370495 # 1) * (vq * T))
      with (vq * ((4503599627370495 # 1) * T)) by ring.
    setoid_replace ((4503599627370496 # 1) * (vq * vb))
      with (vq * ((4503599627370496 # 1) * vb)) by ring.
    apply Qmult_le_l; assumption. }
  assert (H2 : (4503599627370496 # 1) * (vq * vb)
               <= (4503599627370497 # 1) * (vq * T)).
  { setoid_replace ((4503599627370497 # 1) * (vq * T))
      with (vq * ((4503599627370497 # 1) * T)) by ring.
    setoid_replace ((4503599627370496 # 1) * (vq * vb))
      with (vq * ((4503599627370496 # 1) * vb)) by ring.
    apply Qmult_le_l; assumption. }
  assert (H3 : (4503599627370495 # 1) * ((vq * T) * (10000 # 1))
               <= (4503599627370496 # 1) * (vp * T)).
  { setoid_replace ((4503599627370495 # 1) * ((vq * T) * (10000 # 1)))
      with (T * ((4503599627370495 # 1) * (vq * (10000 # 1)))) by ring.
    setoid_replace ((4503599627370496 # 1) * (vp * T))
      with (T * ((4503599627370496 # 1) * vp)) by ring.
    apply Qmult_le_l; assumption. }
  assert (H4 : (4503599627370496 # 1) * (vp * T)
               <= (4503599627370497 # 1) * ((vq * T) * (10000 # 1))).
  { setoid_replace ((4503599627370497 # 1) * ((vq * T) * (10000 # 1)))
      with (T * ((4503599627370497 # 1) * (vq * (10000 # 1)))) by ring.
    setoid_replace ((4503599627370496 # 1) * (vp * T))
      with (T * ((4503599627370496 # 1) * vp)) by ring.
    apply Qmult_le_l; assumption. }
  set (A := vq * T) in *. set (B := vq * vb) in *. set (C := vp * T) in *.
  clearbody A B C. split; lra.
Qed.

(** [Math.round] of a positive normal Number: the integer it returns. *)
Lemma round_normal (x : JsNumber.number) (v : Q) (lo hi : Z) :
  normal_number x v lo hi ->
  JsNumber.round x = JsNumber.of_rounded false (Qfloor (v + (1 # 2))).
Proof.
  intros (m & e & -> & _ & _ & Hv). cbn [JsNumber.round].
  pose proof (finite_value_pow false m e) as Hfv. cbn beta iota in Hfv.
  rewrite <- Hv in Hfv. rewrite Hfv. reflexivity.
Qed.

Lemma to_Z_of_rounded (n : Z) :
  (0 <= n <= 10000)%Z ->
  JsNumber.to_Z (JsNumber.of_rounded false n) = Some n.
Proof.
  intros Hn. unfold JsNumber.of_rounded.
  destruct (n =? 0)%Z eqn:Hzero.
  - apply Z.eqb_eq in Hzero. subst n. reflexivity.
  - apply of_Z_exact. change (2 ^ 53)%Z with 9007199254740992%Z. lia.
Qed.

(** The rate of a record with negative entries: the integer returned
    and its distance from the exact rate. *)
Lemma negative_rate_bps_near (total positive : Z) :
  (0 <= positive < total)%Z -> (total < 2 ^ 256)%Z ->
  exists n,
    JsNumber.to_Z (negative_rate_bps total positive) = Some n
    /\ (0 <= n <= 10000)%Z
    /\ exact_rate_bps total positive - (1 # 2) - (1 # 1000000000) < inject_Z n
    /\ inject_Z n <= exact_rate_bps total positive + (1 # 2) + (1 # 1000000000).
Proof.
  intros Hpositive Htotal. unfold negative_rate_bps.
  destruct (rate_bounds (total - positive) total) as (v & Hx & Hlow & Hup);
    [lia | lia |].
  rewrite (round_normal _ _ _ _ Hx).
  pose proof (normal_number_positive _ _ _ _ Hx) as Hv0.
  set (n := Qfloor (v + (1 # 2))).
  pose proof (Qfloor_le (v + (1 # 2))) as Hfloor_le.
  pose proof (Qlt_floor (v + (1 # 2))) as Hfloor_lt.
  fold n in Hfloor_le, Hfloor_lt.
  rewrite inject_Z_plus in Hfloor_lt.
  assert (HT : 0 < inject_Z total).
  { change 0 with (inject_Z 0). rewrite <- Zlt_Qlt. lia. }
  assert (HNT : inject_Z (total - positive) <= inject_Z total)
    by (rewrite <- Zle_Qle; lia).
  assert (HN0 : 0 <= inject_Z (total - positive)).
  { change 0 with (inject_Z 0). rewrite <- Zle_Qle. lia. }
  assert (Hexact : exact_rate_bps total positive * inject_Z total
                   == (10000 # 1) * inject_Z (total - positive)).
  { unfold exact_rate_bps. rewrite inject_Z_mult.
    change (inject_Z 10000) with (10000 # 1). field.
    intros Hzero. rewrite Hzero in HT. discriminate HT. }
  set (E := exact_rate_bps total positive) in *.
  set (T := inject_Z total) in *. set (N := inject_Z (total - positive)) in *.
  assert (HE_up : E <= 10000 # 1).
  { apply Qmult_le_r with (z := T); [exact HT |]. rewrite Hexact. lra. }
  assert (HE_low : 0 <= E).
  { apply Qmult_le_r with (z := T); [exact HT |]. rewrite Hexact. lra. }
  assert (Hv_up : v <= (100000000000001 # 100000000000000) * E).
  { apply Qmult_le_r with (z := T); [exact HT |].
    setoid_replace ((100000000000001 # 100000000000000) * E * T)
      with ((100000000000001 # 100000000000000) * (E * T)) by ring.
    rewrite Hexact. lra. }
  assert (Hv_low : (99999999999999 # 100000000000000) * E <= v).
  { apply Qmult_le_r with (z := T); [exact HT |].
    setoid_replace ((99999999999999 # 100000000000000) * E * T)
      with ((99999999999999 # 100000000000000) * (E * T)) by ring.
    rewrite Hexact. lra. }
  change (inject_Z 1) with 1 in Hfloor_lt.
  assert (Hn_low : (0 <= n)%Z).
  { unfold n. change 0%Z with (Qfloor 0). apply Qfloor_resp_le. lra. }
  assert (Hn_up : (n < 10001)%Z).
  { rewrite Zlt_Qlt. change (inject_Z 10001) with (10001 # 1). lra. }
  exists n. split; [apply to_Z_of_rounded; lia |].
  split; [lia |]. split; lra.
Qed.

Close Scope Q_scope.
Close Scope Z_scope.

(** X12.  For a record with entries whose positive count is within the
    total, [negativeRateBps] is the exact rate
    [10000 * (total - positive) / total] rounded to an integer, the
    double-precision arithmetic moving the rounding boundary by less
    than [10^-9]: the result lies within [1/2 + 10^-9] of the exact rate.
    Hence it is the exact rate whenever that is an integer: 10000 when
    no entry is positive, 0 when all are. *)
Theorem negativeRateBps_accuracy (record : FeedbackRecord)
    (cfg : ScoringConfig) (pollIntervalMs : JsNumber.number) (nowMs : Z) :
  uint256 (totalFeedback record) ->
  (0 < totalFeedback record)%Z ->
  (0 <= positiveFeedback record <= totalFeedback record)%Z ->
  exists n,
    JsNumber.to_Z
      (negativeRateBps (buildRiskReport record cfg pollIntervalMs nowMs))
    = Some n
    /\ (exact_rate_bps (totalFeedback record) (positiveFeedback record)
        - (1 # 2) - (1 # 1000000000) < inject_Z n)%Q
    /\ (inject_Z n
        <= exact_rate_bps (totalFeedback record) (positiveFeedback record)
           + (1 # 2) + (1 # 1000000000))%Q
    /\ (forall k,
          (10000 * (totalFeedback record - positiveFeedback record)
           = k * totalFeedback record)%Z ->
          n = k).
Proof.
  intros [_ Hhigh] Htotal Hpositive.
  rewrite buildRiskReport_negativeRateBps.
  replace (totalFeedback record =? 0)%Z with false
    by (symmetry; apply Z.eqb_neq; lia).
  set (total := totalFeedback record) in *.
  set (positive := positiveFeedback record) in *.
  assert (Hnear : exists n,
    JsNumber.to_Z (negative_rate_bps total positive) = Some n
    /\ (exact_rate_bps total positive - (1 # 2) - (1 # 1000000000) < inject_Z n)%Q
    /\ (inject_Z n
        <= exact_rate_bps total positive + (1 # 2) + (1 # 1000000000))%Q).
  { destruct (Z.eq_dec positive total) as [Heq | Hne].
    - exists 0%Z. rewrite Heq.
      assert (Hzero : (exact_rate_bps total total == 0)%Q).
      { unfold exact_rate_bps. rewrite Z.sub_diag.
        change (inject_Z (10000 * 0)) with 0%Q. unfold Qdiv. apply Qmult_0_l. }
      rewrite Hzero. unfold negative_rate_bps. rewrite Z.sub_diag.
      destruct (of_Z_normal total) as (v & (m & e & -> & _) & _); [lia |].
      split; [reflexivity |]. split; [reflexivity | discriminate].
    - destruct (negative_rate_bps_near total positive) as (n & H1 & _ & H2 & H3);
        [lia | lia |].
      exists n. auto. }
  destruct Hnear as (n & Hn & Hlow & Hup).
  exists n. split; [exact Hn |]. split; [exact Hlow |]. split; [exact Hup |].
  intros k Hk.
  assert (Hexact : (exact_rate_bps total positive == inject_Z k)%Q).
  { unfold exact_rate_bps. rewrite Hk, inject_Z_mult. field.
    intros Hzero.
    assert (Hpos : (0 < inject_Z total)%Q).
    { change 0%Q with (inject_Z 0). rewrite <- Zlt_Qlt. lia. }
    rewrite Hzero in Hpos. discriminate Hpos. }
  rewrite Hexact in Hlow, Hup.
  assert (Hk_low : (inject_Z (k - 1) < inject_Z n)%Q).
  { replace (k - 1)%Z with (k + -1)%Z by lia. rewrite inject_Z_plus.
    change (inject_Z (-1)) with (-1 # 1)%Q. lra. }
  assert (Hk_up : (inject_Z n < inject_Z (k + 1))%Q).
  { rewrite inject_Z_plus. change (inject_Z 1) with 1%Q. lra. }
  rewrite <- Zlt_Qlt in Hk_low, Hk_up. lia.
Qed.

Lemma negativeRateBps_accuracy_witness :
  exists n,
    JsNumber.to_Z
      (negativeRateBps
         (buildRiskReport trusted_record default_scoring
            (JsNumber.of_Z 900000) 1771085895000))
    = Some n
    /\ n = 200%Z.
Proof.
  destruct (negativeRateBps_accuracy trusted_record default_scoring
              (JsNumber.of_Z 900000) 1771085895000)
    as (n & Hn & _ & _ & Hexact).
  - unfold uint256. cbn. split; [lia | reflexivity].
  - cbn. lia.
  - cbn. lia.
  - exists n. split; [exact Hn |]. apply Hexact. reflexivity.
Defined.

(** ** Flag and confidence of the risk report *)

Lemma buildRiskReport_fields (record : FeedbackRecord) (cfg : ScoringConfig)
    (pollIntervalMs : JsNumber.number) (nowMs : Z) :
  let report := buildRiskReport record cfg pollIntervalMs nowMs in
  flagged report
  = ((totalFeedback record >? 0)%Z
     && JsNumber.gt (negativeRateBps report)
          (JsNumber.of_Z (negativeFlagThresholdBps cfg)))
  /\ riskFactors report
     = ((if (totalFeedback record <? confidenceThresholdFeedbackCount cfg)%Z
         then ["low_feedback_volume"] else [])
        ++ (if flagged report then ["high_negative_feedback_ratio"] else [])
        ++ (if (score record <? 500)%Z then ["low_trust_score"] else []))%list
  /\ recentTrend report
     = (if JsNumber.gt (age_seconds record nowMs) (stale_after pollIntervalMs)
        then "stale"
        else match riskFactors report with
             | [] => "stable"
             | _ => "caution"
             end).
Proof. repeat split; reflexivity. Qed.

(** X13.  For a record whose positive count is within the total and a
    flag threshold that is an unsigned integer, the record is flagged
    exactly when it has entries and the integer [negativeRateBps] exceeds
    the threshold.  So a record without negative entries is never
    flagged, nor is any record under a threshold of 10000 or more; and a
    flagged record lists [high_negative_feedback_ratio] and is never
    [stable]. *)
Theorem buildRiskReport_flagged_exact (record : FeedbackRecord)
    (cfg : ScoringConfig) (pollIntervalMs : JsNumber.number) (nowMs : Z) :
  uint256 (totalFeedback record) ->
  (0 <= positiveFeedback record <= totalFeedback record)%Z ->
  uint256 (negativeFlagThresholdBps cfg) ->
  let report := buildRiskReport record cfg pollIntervalMs nowMs in
  exists n,
    JsNumber.to_Z (negativeRateBps report) = Some n
    /\ flagged report
       = ((0 <? totalFeedback record)%Z && (negativeFlagThresholdBps cfg <? n)%Z)
    /\ (positiveFeedback record = totalFeedback record -> flagged report = false)
    /\ ((10000 <= negativeFlagThresholdBps cfg)%Z -> flagged report = false)
    /\ (flagged report = true ->
        In "high_negative_feedback_ratio" (riskFactors report)
        /\ recentTrend report <> "stable").
Proof.
  intros Htotal Hpositive Hthreshold. cbv zeta.
  destruct (buildRiskReport_fields record cfg pollIntervalMs nowMs)
    as (Hflagged & Hfactors & Htrend).
  cbv zeta in Hflagged, Hfactors, Htrend.
  assert (Hrate : exists n,
    JsNumber.to_Z
      (negativeRateBps (buildRiskReport record cfg pollIntervalMs nowMs))
    = Some n
    /\ (0 <= n <= 10000)%Z
    /\ (positiveFeedback record = totalFeedback record -> n = 0%Z)).
  { rewrite buildRiskReport_negativeRateBps.
    destruct (totalFeedback record =? 0)%Z eqn:Hzero.
    - exists 0%Z. split; [reflexivity |]. split; [lia | reflexivity].
    - apply Z.eqb_neq in Hzero. unfold uint256 in Htotal.
      destruct (Z.eq_dec (positiveFeedback record) (totalFeedback record))
        as [Heq | Hne].
      + exists 0%Z. split; [| split; [lia | reflexivity]].
        rewrite Heq. unfold negative_rate_bps. rewrite Z.sub_diag.
        destruct (of_Z_normal (totalFeedback record))
          as (v & (m & e & -> & _) & _); [lia |].
        reflexivity.
      + destruct (negative_rate_bps_range (totalFeedback record)
                    (positiveFeedback record)) as (n & Hn & Hrange);
          [lia | lia |].
        exists n. split; [exact Hn |]. split; [exact Hrange | contradiction]. }
  destruct Hrate as (n & Hn & Hrange & Hclean).
  assert (Hexact :
    flagged (buildRiskReport record cfg pollIntervalMs nowMs)
    = ((0 <? totalFeedback record)%Z && (negativeFlagThresholdBps cfg <? n)%Z)).
  { rewrite Hflagged, Z.gtb_ltb.
    destruct (gt_of_Z_integer (negativeFlagThresholdBps cfg) _ n
                Hthreshold Hn) as (-> & _).
    - change (2 ^ 52)%Z with 4503599627370496%Z. lia.
    - reflexivity. }
  exists n. split; [exact Hn |]. split; [exact Hexact |]. split; [| split].
  - intros Heq. rewrite Hexact, (Hclean Heq).
    unfold uint256 in Hthreshold.
    replace (negativeFlagThresholdBps cfg <? 0)%Z with false
      by (symmetry; apply Z.ltb_ge; lia).
    apply andb_false_r.
  - intros Hlarge. rewrite Hexact.
    replace (negativeFlagThresholdBps cfg <? n)%Z with false
      by (symmetry; apply Z.ltb_ge; lia).
    apply andb_false_r.
  - intros Hon.
    assert (Hin : In "high_negative_feedback_ratio"
                    (riskFactors (buildRiskReport record cfg pollIntervalMs nowMs))).
    { rewrite Hfactors, Hon. apply in_or_app. right. left. reflexivity. }
    split; [exact Hin |].
    rewrite Htrend.
    destruct (JsNumber.gt (age_seconds record nowMs) (stale_after pollIntervalMs));
      [discriminate |].
    destruct (riskFactors (buildRiskReport record cfg pollIntervalMs nowMs));
      [contradiction | discriminate].
Qed.

Lemma buildRiskReport_flagged_exact_witness :
  flagged
    (buildRiskReport trusted_record default_scoring (JsNumber.of_Z 900000)
       1771085895000)
  = false.
Proof.
  destruct (buildRiskReport_flagged_exact trusted_record default_scoring
              (JsNumber.of_Z 900000) 1771085895000)
    as (n & Hn & Hexact & _).
  - unfold uint256. cbn. split; [lia | reflexivity].
  - cbn. lia.
  - unfold uint256. cbn. split; [lia | reflexivity].
  - rewrite Hexact. vm_compute in Hn. injection Hn as <-. reflexivity.
Defined.

(** Every number of four decimals from 0 to 1 lies between the Numbers
    0 and 1. *)
Lemma of_decimal_unit (k : Z) :
  (0 <= k <= 10000)%Z ->
  JsNumber.le (JsNumber.of_Z 0) (JsNumber.of_decimal false k 4) = true
  /\ JsNumber.le (JsNumber.of_decimal false k 4) (JsNumber.of_Z 1) = true.
Proof.
  intros Hk.
  assert (Hall :
    forallb
      (fun i : nat =>
         JsNumber.le (JsNumber.of_Z 0)
           (JsNumber.of_decimal false (Z.of_nat i) 4)
         && JsNumber.le (JsNumber.of_decimal false (Z.of_nat i) 4)
              (JsNumber.of_Z 1))
      (seq 0 (Z.to_nat 10001)) = true) by (vm_compute; reflexivity).
  rewrite forallb_forall in Hall.
  specialize (Hall (Z.to_nat k)).
  rewrite Z2Nat.id in Hall by lia.
  apply andb_true_iff, Hall, in_seq. lia.
Qed.

(** [toFixed(4)] of a positive Number up to 1. *)
Lemma toFixed4_unit (m : positive) (e : Z) :
  (JsNumber.finite_value false m e <= 1)%Q ->
  exists k,
    (0 <= k <= 10000)%Z
    /\ JsNumber.toFixed4 (S754_finite false m e) = JsNumber.of_decimal false k 4.
Proof.
  intros Hle. cbn [JsNumber.toFixed4].
  assert (Hpos : (0 < JsNumber.finite_value false m e)%Q).
  { rewrite (finite_value_pow false m e). cbn beta iota.
    apply Qmult_lt_0_compat; [reflexivity | apply pow2_pos]. }
  set (mag := JsNumber.finite_value false m e) in *.
  replace (Qle_bool (inject_Z (10 ^ 21)) mag) with false.
  - exists (Qfloor (mag * inject_Z 10000 + (1 # 2))). split; [| reflexivity].
    change (inject_Z 10000) with (10000 # 1)%Q.
    split.
    + change 0%Z with (Qfloor 0). apply Qfloor_resp_le. lra.
    + apply Z.lt_succ_r. change (Z.succ 10000) with 10001%Z.
      rewrite Zlt_Qlt. change (inject_Z 10001) with (10001 # 1)%Q.
      apply Qle_lt_trans with (y := (mag * (10000 # 1) + (1 # 2))%Q);
        [apply Qfloor_le | lra].
  - symmetry. apply not_true_is_false. intros Hbig.
    apply Qle_bool_iff in Hbig.
    change (inject_Z (10 ^ 21)) with (1000000000000000000000 # 1)%Q in Hbig.
    lra.
Qed.

(** The confidence computed from a total and a positive divisor, after
    [toFixed(4)]: a number of four decimals from 0 to 1. *)
Lemma confidence_unit (total divisor : Z) :
  (0 <= total < 2 ^ 256)%Z -> (0 < divisor < 2 ^ 256)%Z ->
  exists k,
    (0 <= k <= 10000)%Z
    /\ JsNumber.toFixed4
         (JsNumber.min (JsNumber.of_Z 1)
            (JsNumber.div (JsNumber.of_Z total) (JsNumber.of_Z divisor)))
       = JsNumber.of_decimal false k 4.
Proof.
  intros Htotal Hdivisor.
  destruct (of_Z_normal divisor Hdivisor) as (vb & Hb & _).
  destruct (Z.eq_dec total 0) as [-> | Hnonzero].
  - destruct Hb as (m & e & -> & _). exists 0%Z. split; [lia | reflexivity].
  - destruct (of_Z_normal total) as (va & Ha & _); [lia |].
    destruct (div_normal _ _ _ _ _ _ _ _ Ha Hb) as (v & (m & e & -> & _) & _);
      [lia | lia |].
    unfold JsNumber.min, JsNumber.compare.
    change (JsNumber.of_Z 1) with (S754_finite false 4503599627370496 (-52)).
    cbn [JsNumber.value JsNumber.ext_compare JsNumber.sign_bit].
    destruct (Qcompare_spec
                (JsNumber.finite_value false 4503599627370496 (-52))
                (JsNumber.finite_value false m e)) as [Heq | Hlt | Hgt].
    + apply toFixed4_unit. rewrite <- Heq. discriminate.
    + apply toFixed4_unit. discriminate.
    + apply toFixed4_unit. apply Qlt_le_weak.
      apply Qlt_le_trans
        with (y := JsNumber.finite_value false 4503599627370496 (-52));
        [exact Hgt | discriminate].
Qed.

(** Where a served confidence comes from. *)
Lemma served_confidence_source (app : App) (world : World)
    (endpoint : Endpoint) (req : Request) (agentId : Z)
    (status : option string) (record : FeedbackRecord)
    (served : JsNumber.number) :
  getDetailedReport world agentId = ReadOk record ->
  served_confidence
    (fst (match endpoint with
          | ScoreEndpoint => scoreHandler app world req agentId status
          | ReportEndpoint => reportHandler app world req agentId status
          end)) = Some served ->
  served
  = match endpoint with
    | ScoreEndpoint =>
        JsNumber.toFixed4 (score_confidence (app_scoringConfig app) record)
    | ReportEndpoint =>
        confidence
          (buildRiskReport record (app_scoringConfig app)
             (app_pollIntervalMs app) (nowMs world))
    end.
Proof.
  intros Hledger.
  destruct endpoint; unfold scoreHandler, reportHandler;
    destruct (resolvePaidRouteAccess req status (app_env app) (app_payment app))
      as [access status1];
    (destruct (paymentRequired access);
     [cbn [fst]; rewrite served_confidence_challenge; intros H; discriminate H |]);
    (destruct (app_readerEnabled app); cbn [negb];
     [| intros H; discriminate H]);
    rewrite Hledger;
    (destruct (allowDemoResponse access);
     [intros H; discriminate H |]);
    intros H; injection H as <-; reflexivity.
Qed.

(** X14.  Whatever the threshold, the confidence served by [/score]
    and [/report] for a ledger record is a number of four decimals from
    0 to 1: it is the Number nearest to [k / 10000] for an integer [k]
    from 0 to 10000, and lies between the Numbers 0 and 1. *)
Theorem served_confidence_range (app : App) (world : World)
    (endpoint : Endpoint) (req : Request) (agentId : Z)
    (status : option string) (record : FeedbackRecord)
    (served : JsNumber.number) :
  getDetailedReport world agentId = ReadOk record ->
  uint256 (totalFeedback record) ->
  uint256 (confidenceThresholdFeedbackCount (app_scoringConfig app)) ->
  served_confidence
    (fst (match endpoint with
          | ScoreEndpoint => scoreHandler app world req agentId status
          | ReportEndpoint => reportHandler app world req agentId status
          end)) = Some served ->
  exists k,
    (0 <= k <= 10000)%Z
    /\ served = JsNumber.of_decimal false k 4
    /\ JsNumber.le (JsNumber.of_Z 0) served = true
    /\ JsNumber.le served (JsNumber.of_Z 1) = true.
Proof.
  intros Hledger Htotal Hthreshold Hserved.
  rewrite (served_confidence_source _ _ _ _ _ _ _ _ Hledger Hserved).
  unfold uint256 in Htotal, Hthreshold.
  assert (Hk : exists k,
    (0 <= k <= 10000)%Z
    /\ match endpoint with
       | ScoreEndpoint =>
           JsNumber.toFixed4 (score_confidence (app_scoringConfig app) record)
       | ReportEndpoint =>
           confidence
             (buildRiskReport record (app_scoringConfig app)
                (app_pollIntervalMs app) (nowMs world))
       end = JsNumber.of_decimal false k 4).
  { destruct (Z.eq_dec (confidenceThresholdFeedbackCount (app_scoringConfig app)) 0)
      as [Hzero | Hnonzero].
    - destruct endpoint.
      + unfold score_confidence. rewrite Hzero.
        change (JsNumber.truthy (JsNumber.of_Z 0)) with false. cbn iota.
        apply confidence_unit; [exact Htotal | split; [lia | reflexivity]].
      + unfold buildRiskReport. cbn [confidence]. rewrite Hzero.
        exists 10000%Z. split; [lia |]. vm_compute. reflexivity.
    - destruct endpoint.
      + unfold score_confidence. rewrite of_Z_truthy by lia.
        apply confidence_unit; [exact Htotal | lia].
      + unfold buildRiskReport. cbn [confidence].
        replace (confidenceThresholdFeedbackCount (app_scoringConfig app) =? 0)%Z
          with false by (symmetry; apply Z.eqb_neq; exact Hnonzero).
        apply confidence_unit; [exact Htotal | lia]. }
  destruct Hk as (k & Hrange & ->).
  exists k. split; [exact Hrange |]. split; [reflexivity |].
  apply of_decimal_unit. exact Hrange.
Qed.

Lemma served_confidence_range_witness :
  exists k,
    (0 <= k <= 10000)%Z
    /\ JsNumber.of_Z 1 = JsNumber.of_decimal false k 4
    /\ JsNumber.le (JsNumber.of_Z 0) (JsNumber.of_Z 1) = true
    /\ JsNumber.le (JsNumber.of_Z 1) (JsNumber.of_Z 1) = true.
Proof.
  apply (served_confidence_range (full_access_app zero_scoring)
           (ledger_world trusted_record) ScoreEndpoint authorized_request 1%Z
           None trusted_record (JsNumber.of_Z 1)).
  - reflexivity.
  - unfold uint256. cbn. split; [lia | reflexivity].
  - unfold uint256. cbn. split; [lia | reflexivity].
  - vm_compute. reflexivity.
Defined.

(** ** Poll interval *)

Lemma positive_integer (x : JsNumber.number) :
  isInteger x && JsNumber.gt x (JsNumber.of_Z 0) = true ->
  exists n, JsNumber.to_Z x = Some n /\ (0 < n)%Z.
Proof.
  intros H. apply andb_true_iff in H. destruct H as [Hint Hgt].
  unfold isInteger in Hint.
  destruct (JsNumber.to_Z x) as [n |] eqn:Hn; [| discriminate].
  exists n. split; [reflexivity |].
  destruct (to_Z_value x n Hn) as (q & Hq & Hvalue).
  unfold JsNumber.gt, JsNumber.lt, JsNumber.compare in Hgt.
  rewrite Hq in Hgt. cbn [JsNumber.value JsNumber.of_Z] in Hgt.
  change (JsNumber.value (JsNumber.of_Z 0)) with (Some (JsNumber.Fin 0)) in Hgt.
  cbn [JsNumber.ext_compare] in Hgt.
  destruct (Qcompare_spec 0 q) as [Heq | Hlt | Hgt']; try discriminate.
  rewrite Hvalue in Hlt. change 0%Q with (inject_Z 0) in Hlt.
  rewrite <- Zlt_Qlt in Hlt. exact Hlt.
Qed.

Section PollInterval.

Variable formatUsdPrice : string -> string.
Variable Number_ : option string -> JsNumber.number.
Variable loadScoringConfigFromEnv : Env -> ScoringConfig.

(** X15.  [toPositiveInt] returns the parsed value only when it is an
    integer above zero, and the fallback otherwise; so with a fallback
    that is a positive integer the result always is one.  The poll
    interval of an app is therefore a positive integer whatever
    [INDEXER_POLL_INTERVAL_MS] holds: the parsed value, or 900000. *)
Theorem toPositiveInt_positive (value : option string)
    (fallback : JsNumber.number) :
  (toPositiveInt Number_ value fallback = Number_ value
   /\ (exists n, JsNumber.to_Z (Number_ value) = Some n /\ (0 < n)%Z)
   \/ toPositiveInt Number_ value fallback = fallback)
  /\ ((exists f, JsNumber.to_Z fallback = Some f /\ (0 < f)%Z) ->
      exists n,
        JsNumber.to_Z (toPositiveInt Number_ value fallback) = Some n
        /\ (0 < n)%Z)
  /\ (forall pkgs env app,
        createApp formatUsdPrice Number_ loadScoringConfigFromEnv pkgs env
          = Ok app ->
        exists n,
          JsNumber.to_Z (app_pollIntervalMs app) = Some n
          /\ (0 < n)%Z
          /\ (app_pollIntervalMs app = Number_ (env "INDEXER_POLL_INTERVAL_MS")
              \/ n = 900000%Z)).
Proof.
  assert (Hcases : forall v fb,
    toPositiveInt Number_ v fb = Number_ v
    /\ (exists n, JsNumber.to_Z (Number_ v) = Some n /\ (0 < n)%Z)
    \/ toPositiveInt Number_ v fb = fb).
  { intros v fb. unfold toPositiveInt.
    destruct (isInteger (Number_ v)
              && JsNumber.gt (Number_ v) (JsNumber.of_Z 0)) eqn:Hparsed.
    - left. split; [reflexivity | apply positive_integer; exact Hparsed].
    - right. reflexivity. }
  split; [apply Hcases |]. split.
  - intros Hfallback.
    destruct (Hcases value fallback) as [[-> Hn] | ->]; assumption.
  - intros pkgs env app Happ.
    assert (Hpoll : app_pollIntervalMs app
                    = toPositiveInt Number_ (env "INDEXER_POLL_INTERVAL_MS")
                        (JsNumber.of_Z 900000)).
    { unfold createApp in Happ.
      destruct (createPaymentMiddleware _ _ _) as [payment |]; cbn in Happ;
        [| discriminate].
      injection Happ as <-. reflexivity. }
    rewrite Hpoll.
    destruct (Hcases (env "INDEXER_POLL_INTERVAL_MS") (JsNumber.of_Z 900000))
      as [[-> (n & Hn & Hpos)] | ->].
    + exists n. auto.
    + exists 900000%Z. split; [reflexivity |]. split; [lia | auto].
Qed.

End PollInterval.

(** ** Routes without placeholder and the routes of the real gateway *)

Lemma pattern_items_literals (routePath : string) :
  placeholder_free routePath = true ->
  pattern_items false routePath = literals routePath.
Proof.
  induction routePath as [| c r IH]; [reflexivity |].
  cbn [placeholder_free pattern_items literals andb].
  intros H. apply andb_true_iff in H. destruct H as [Hc Hr].
  apply negb_true_iff in Hc. rewrite Hc. f_equal. exact (IH Hr).
Qed.

Lemma replace_names_free (fill : string -> string) (routePath : string) :
  placeholder_free routePath = true ->
  replace_names fill None routePath = routePath.
Proof.
  induction routePath as [| c r IH]; [reflexivity |].
  cbn [placeholder_free replace_names].
  intros H. apply andb_true_iff in H. destruct H as [Hc Hr].
  apply negb_true_iff in Hc. rewrite Hc. f_equal. exact (IH Hr).
Qed.

Lemma regex_test_literals_eqb (p s : string) :
  regex_test (literals p) s = String.eqb s p.
Proof.
  revert s. induction p as [| c r IH]; intros s; cbn [literals regex_test].
  - destruct s; reflexivity.
  - destruct s as [| d s']; [reflexivity |]. cbn [String.eqb].
    rewrite IH. destruct (Ascii.eqb d c); reflexivity.
Qed.

(** X16.  [routeToRegex] compiles every route path: the escaping leaves
    no metacharacter active, so [new RegExp] never throws.  For a path
    without [:name] placeholder the expression matches that path and no
    other string, whatever metacharacters the path contains, and
    [toX402RoutePath] returns the path unchanged. *)
Theorem routeToRegex_literal (routePath : string) :
  (exists re, routeToRegex routePath = Some re)
  /\ (placeholder_free routePath = true ->
      routeToRegex routePath = Some (literals routePath)
      /\ (forall path,
            regex_test (literals routePath) path = true <-> path = routePath)
      /\ toX402RoutePath routePath = routePath)
  /\ (exists re,
        routeToRegex "/v1.0/(beta)/a+b" = Some re
        /\ regex_test re "/v1.0/(beta)/a+b" = true
        /\ regex_test re "/v1x0/(beta)/a+b" = false
        /\ regex_test re "/v1.0/beta/aab" = false).
Proof.
  split; [| split].
  - rewrite routeToRegex_items. eauto.
  - intros Hfree. rewrite routeToRegex_items, (pattern_items_literals _ Hfree).
    split; [reflexivity |]. split.
    + intros path. rewrite regex_test_literals_eqb. apply String.eqb_eq.
    + apply replace_names_free. exact Hfree.
  - eexists. split; [reflexivity |]. repeat split.
Qed.

Lemma assign_keys {V : Type} (o : list (string * V)) (key : string) (value : V) :
  map fst (assign o key value)
  = if existsb (String.eqb key) (map fst o) then map fst o
    else (map fst o ++ [key])%list.
Proof.
  induction o as [| [k v] rest IH]; [reflexivity |].
  cbn [assign map fst existsb].
  rewrite (String.eqb_sym key k).
  destruct (String.eqb k key) eqn:Hk; cbn [orb map fst]; [reflexivity |].
  rewrite IH. destruct (existsb (String.eqb key) (map fst rest)); reflexivity.
Qed.

Lemma assign_NoDup {V : Type} (o : list (string * V)) (key : string) (value : V) :
  NoDup (map fst o) -> NoDup (map fst (assign o key value)).
Proof.
  intros Hnodup. rewrite assign_keys.
  destruct (existsb (String.eqb key) (map fst o)) eqn:Hin; [exact Hnodup |].
  apply NoDup_app; [exact Hnodup | repeat constructor; intros [] |].
  intros k Hk [<- | []].
  assert (Hex : existsb (String.eqb key) (map fst o) = true).
  { apply existsb_exists. exists key. split; [exact Hk | apply String.eqb_refl]. }
  congruence.
Qed.

Lemma assign_in {V : Type} (o : list (string * V)) (key : string) (value : V)
    (k : string) (v : V) :
  In (k, v) (assign o key value) -> In (k, v) o \/ (k = key /\ v = value).
Proof.
  induction o as [| [k' v'] rest IH]; cbn [assign].
  - intros [[= <- <-] | []]. right. auto.
  - destruct (String.eqb_spec k' key) as [-> | Hne].
    + intros [[= <- <-] | Hin]; [right; auto | left; right; exact Hin].
    + intros [Heq | Hin]; [left; left; exact Heq |].
      destruct (IH Hin) as [H | H]; [left; right; exact H | right; exact H].
Qed.

Lemma assign_length {V : Type} (o : list (string * V)) (key : string) (value : V) :
  (List.length (assign o key value) <= S (List.length o))%nat.
Proof.
  induction o as [| [k v] rest IH]; cbn [assign List.length]; [lia |].
  destruct (String.eqb k key); cbn [List.length]; lia.
Qed.

Section RealRoutes.

Variable formatUsdPrice : string -> string.

(** The entry of the real gateway's route object made from an entry of
    the route configuration. *)
Lemma x402_loop_entries (entries : list (string * RouteConfig))
    (mapped : list (string * X402Route)) :
  NoDup (map fst mapped) ->
  NoDup (map fst (x402_loop formatUsdPrice entries mapped))
  /\ (List.length (x402_loop formatUsdPrice entries mapped)
      <= List.length mapped + List.length entries)%nat
  /\ forall key route,
       In (key, route) (x402_loop formatUsdPrice entries mapped) ->
       In (key, route) mapped
       \/ exists entry,
            In entry entries
            /\ key_method (fst entry) <> ""
            /\ key_path (fst entry) <> ""
            /\ key = JsString.toUpperCase (key_method (fst entry)) ++ " "
                     ++ toX402RoutePath (key_path (fst entry))
            /\ x402_price route = formatUsdPrice (price (snd entry))
            /\ x402_network route = or_else (network (snd entry)) "base".
Proof.
  revert mapped.
  induction entries as [| [key cfg] rest IH]; intros mapped Hnodup.
  - cbn [x402_loop List.length]. split; [exact Hnodup |]. split; [lia | auto].
  - cbn [x402_loop].
    destruct (negb (JsString.truthy (JsString.toUpperCase (key_method key)))
              || negb (JsString.truthy (key_path key))) eqn:Hskip.
    + destruct (IH mapped Hnodup) as (H1 & H2 & H3).
      split; [exact H1 |]. split; [cbn [List.length]; lia |].
      intros k r Hin. destruct (H3 k r Hin) as [H | (entry & Hentry & H)];
        [left; exact H | right; exists entry; split; [right; exact Hentry | exact H]].
    + apply orb_false_iff in Hskip. destruct Hskip as [Hmethod Hpath].
      apply negb_false_iff in Hmethod, Hpath.
      match goal with
      | |- context [x402_loop formatUsdPrice rest (assign mapped ?k ?v)] =>
          set (newKey := k); set (newRoute := v)
      end.
      destruct (IH (assign mapped newKey newRoute)
                  (assign_NoDup mapped newKey newRoute Hnodup))
        as (H1 & H2 & H3).
      split; [exact H1 |]. split.
      { pose proof (assign_length mapped newKey newRoute). cbn [List.length]. lia. }
      intros k r Hin.
      destruct (H3 k r Hin) as [H | (entry & Hentry & H)].
      * destruct (assign_in _ _ _ _ _ H) as [Hold | [-> ->]];
          [left; exact Hold |].
        right. exists (key, cfg). split; [left; reflexivity |].
        cbn [fst snd]. split.
        -- intros Hempty. rewrite Hempty in Hmethod. discriminate Hmethod.
        -- split.
           ++ intros Hempty. rewrite Hempty in Hpath. discriminate Hpath.
           ++ split; [reflexivity |]. split; reflexivity.
      * right. exists entry. split; [right; exact Hentry | exact H].
Qed.

(** X17.  The route object [buildX402RouteConfig] hands to the real
    middleware has no key twice and at most one entry per configured
    route; every entry comes from a configured route with a method and a
    path, under the key [METHOD path] with each [:name] written
    [[name]], with the formatted price and with a network that is never
    empty ([base] when none is configured).  For the routes of the
    server the keys are [GET /score/[agentId]] and
    [GET /report/[agentId]]. *)
Theorem buildX402RouteConfig_entries (routeConfig : list (string * RouteConfig)) :
  NoDup (map fst (buildX402RouteConfig formatUsdPrice routeConfig))
  /\ (List.length (buildX402RouteConfig formatUsdPrice routeConfig)
      <= List.length routeConfig)%nat
  /\ (forall key route,
        In (key, route) (buildX402RouteConfig formatUsdPrice routeConfig) ->
        x402_network route <> ""
        /\ exists entry,
             In entry routeConfig
             /\ key_method (fst entry) <> ""
             /\ key_path (fst entry) <> ""
             /\ key = JsString.toUpperCase (key_method (fst entry)) ++ " "
                      ++ toX402RoutePath (key_path (fst entry))
             /\ x402_price route = formatUsdPrice (price (snd entry))
             /\ x402_network route = or_else (network (snd entry)) "base")
  /\ (forall env,
        map fst (buildX402RouteConfig formatUsdPrice
                   (buildRoutePricing formatUsdPrice env))
        = ["GET /score/[agentId]"; "GET /report/[agentId]"]).
Proof.
  unfold buildX402RouteConfig.
  destruct (x402_loop_entries routeConfig [] ltac:(constructor))
    as (Hnodup & Hlength & Hentries).
  split; [exact Hnodup |]. split; [exact Hlength |]. split.
  - intros key route Hin.
    destruct (Hentries key route Hin) as [[] | (entry & Hentry & H)].
    split; [| exists entry; split; [exact Hentry | exact H]].
    destruct H as (_ & _ & _ & _ & ->).
    unfold or_else, JsString.truthy.
    destruct (network (snd entry)) as [n |]; [| discriminate].
    destruct (String.eqb_spec n "") as [-> | Hne]; [discriminate | exact Hne].
  - intros env. reflexivity.
Qed.

End RealRoutes.


(** ** The two payment challenges *)

Section Challenges.

Variable formatUsdPrice : string -> string.
Variable Number_ : option string -> JsNumber.number.
Variable loadScoringConfigFromEnv : Env -> ScoringConfig.
Variable validateAgentIdParam : Request -> (Z * string) + Z.

(** The route the table of the server finds for a score path and for a
    report path. *)
Lemma server_route_found (env : Env) (req : Request) (id : string) :
  JsString.toUpperCase (req_method req) = "GET" ->
  id <> "" -> has_slash id = false ->
  (req_path req = "/score/" ++ id ->
   matchPaidRoute req
     (map (compiled_route formatUsdPrice) (buildRoutePricing formatUsdPrice env))
   = Some (compiled_route formatUsdPrice
             (nth 0 (buildRoutePricing formatUsdPrice env) score_route)))
  /\ (req_path req = "/report/" ++ id ->
      matchPaidRoute req
        (map (compiled_route formatUsdPrice) (buildRoutePricing formatUsdPrice env))
      = Some (compiled_route formatUsdPrice
                (nth 1 (buildRoutePricing formatUsdPrice env) score_route))).
Proof.
  intros Hmethod Hid Hslash.
  unfold matchPaidRoute, buildRoutePricing. rewrite Hmethod.
  cbn [map find nth].
  set (scoreRoute := compiled_route formatUsdPrice ("GET /score/:agentId", _)).
  set (reportRoute := compiled_route formatUsdPrice ("GET /report/:agentId", _)).
  change (route_method scoreRoute) with "GET".
  change (route_method reportRoute) with "GET".
  change (route_regex scoreRoute) with (literals "/score/" ++ [NotSlashPlus])%list.
  change (route_regex reportRoute) with (literals "/report/" ++ [NotSlashPlus])%list.
  cbn [String.eqb Ascii.eqb andb].
  split; intros Hpath; rewrite Hpath.
  - replace (regex_test (literals "/score/" ++ [NotSlashPlus])%list ("/score/" ++ id))
      with true; [reflexivity |].
    symmetry. apply regex_test_one_segment. exists id. auto.
  - replace (regex_test (literals "/score/" ++ [NotSlashPlus])%list ("/report/" ++ id))
      with false.
    + replace (regex_test (literals "/report/" ++ [NotSlashPlus])%list
                 ("/report/" ++ id)) with true; [reflexivity |].
      symmetry. apply regex_test_one_segment. exists id. auto.
    + symmetry. apply not_true_is_false. intros H.
      apply regex_test_one_segment in H. destruct H as (id' & _ & _ & H).
      discriminate H.
Qed.

(** X18.  The two 402 responses of an app on the stub gateway, for
    [GET /score/<id>] without payment proof.  With [X402_STUB_ENFORCE] on,
    the stub middleware answers: its body names the route, the network
    ([X402_NETWORK], [base] by default), the description and a price that
    is [formatUsdPrice] applied twice to the configured price.  With the
    flag off and the gateway fallen back from the real middleware, a
    request that is no demo request and passes the validator is answered
    by the handler: its body names the route, the network, the fallback
    reason and a price that is [formatUsdPrice] applied once. *)
Theorem challenge_bodies (pkgs : Packages) (env : Env) (app : App)
    (world : World) (req : Request) (id : string) :
  createApp formatUsdPrice Number_ loadScoringConfigFromEnv pkgs env = Ok app ->
  usingRealMiddleware (app_payment app) = false ->
  JsString.toUpperCase (req_method req) = "GET" ->
  req_path req = "/score/" ++ id ->
  id <> "" -> has_slash id = false ->
  carries_proof req = false ->
  let configured := or_else (env "X402_SCORE_PRICE_USDC") "0.001" in
  let network_ := or_else (env "X402_NETWORK") "base" in
  (enforcement_override env = true ->
   serve validateAgentIdParam app world ScoreEndpoint req
   = (StubChallenge "GET /score/:agentId"
        (formatUsdPrice (formatUsdPrice configured)) network_
        "Agent trust score query",
      Some "unpaid_stub"))
  /\ (enforcement_override env = false ->
      fallbackFromReal (app_payment app) = true ->
      demo_allowed env && isDemoRequest req = false ->
      forall agentId,
        validateAgentIdParam req = inr agentId ->
        serve validateAgentIdParam app world ScoreEndpoint req
        = (Challenge "GET /score/:agentId" (formatUsdPrice configured)
             network_ stub_fallback_reason,
           Some "unpaid_stub")).
Proof.
  intros Happ Hstub Hmethod Hpath Hid Hslash Hproof. cbv zeta.
  pose proof (createApp_stub_middleware formatUsdPrice Number_
                loadScoringConfigFromEnv pkgs env app Happ Hstub) as Hmw.
  destruct (createApp_parts formatUsdPrice Number_ loadScoringConfigFromEnv
              pkgs env app Happ) as (Henv & Hpricing & _).
  destruct (server_route_found env req id Hmethod Hid Hslash) as [Hfound _].
  specialize (Hfound Hpath).
  assert (Hnetwork : forall s,
    or_else (Some (or_else (env "X402_NETWORK") s)) s
    = or_else (env "X402_NETWORK") s \/ s = "").
  { intros s. unfold or_else at 1.
    destruct (JsString.truthy (or_else (env "X402_NETWORK") s)) eqn:Htruthy;
      [left; reflexivity |].
    unfold or_else, JsString.truthy in Htruthy |- *.
    destruct (env "X402_NETWORK") as [n |].
    - destruct (String.eqb n "") eqn:Hn; cbn [negb] in *.
      + left. reflexivity.
      + rewrite Hn in Htruthy. discriminate Htruthy.
    - left. reflexivity. }
  unfold serve, run_middleware. rewrite Hmw.
  unfold stubPaymentMiddleware. rewrite Hfound.
  unfold carries_proof in Hproof. rewrite Hproof. cbn [negb andb].
  split.
  - intros Hon. rewrite Hon.
    cbn [route_key route_config compiled_route nth buildRoutePricing fst snd
         price network description].
    destruct (Hnetwork "base") as [-> | Hbase]; [| discriminate Hbase].
    reflexivity.
  - intros Hoff Hfallback Hdemo agentId Hvalid. rewrite Hoff, Hvalid.
    unfold scoreHandler, resolvePaidRouteAccess.
    rewrite Hstub, Hproof, Henv.
    unfold demo_allowed in Hdemo. rewrite Hdemo, Hfallback.
    cbn [orb paymentRequired fst snd]. rewrite Hpricing. reflexivity.
Qed.

End Challenges.

Lemma challenge_bodies_witness :
  exists app,
    createApp (fun p => p) (fun _ => JsNumber.NaN) (fun _ => default_scoring)
      no_packages stub_enforce_env = Ok app
    /\ serve (fun _ => inr 1%Z) app sample_world ScoreEndpoint demo_request
       = (StubChallenge "GET /score/:agentId" "0.001" "base"
            "Agent trust score query",
          Some "unpaid_stub").
Proof.
  eexists. split; [reflexivity |].
  destruct (challenge_bodies (fun p => p) (fun _ => JsNumber.NaN)
              (fun _ => default_scoring) (fun _ => inr 1%Z)
              no_packages stub_enforce_env _ sample_world demo_request "1"
              eq_refl eq_refl eq_refl eq_refl) as [Hon _].
  - discriminate.
  - reflexivity.
  - reflexivity.
  - exact (Hon eq_refl).
Defined.

(** ** Route keys *)

Lemma string_app_assoc (a b c : string) : (a ++ b) ++ c = a ++ b ++ c.
Proof. induction a as [| x a IH]; [reflexivity | cbn; now rewrite IH]. Qed.

Lemma string_app_nil_r (a : string) : a ++ "" = a.
Proof. induction a as [| x a IH]; [reflexivity | cbn; now rewrite IH]. Qed.

Lemma trimEnd_clean (s : string) :
  no_white_space s = true -> JsString.trimEnd s = s.
Proof.
  unfold no_white_space. induction s as [| c r IH]; [reflexivity |].
  cbn [all_chars JsString.trimEnd]. intros H.
  apply andb_true_iff in H. destruct H as [Hc Hr].
  rewrite (IH Hr). apply negb_true_iff in Hc. rewrite Hc.
  destruct r; reflexivity.
Qed.

Lemma trimStart_clean (s : string) :
  no_white_space s = true -> JsString.trimStart s = s.
Proof.
  unfold no_white_space. destruct s as [| c r]; [reflexivity |].
  cbn [all_chars JsString.trimStart]. intros H.
  apply andb_true_iff in H. destruct H as [Hc _].
  apply negb_true_iff in Hc. rewrite Hc. reflexivity.
Qed.

Lemma trimEnd_before_clean (s tail : string) :
  tail <> "" -> JsString.trimEnd tail = tail ->
  JsString.trimEnd (s ++ tail) = s ++ tail.
Proof.
  intros Hne Htail. induction s as [| c r IH]; [exact Htail |].
  cbn [append JsString.trimEnd]. rewrite IH.
  destruct (r ++ tail) eqn:Hrest; [| reflexivity].
  destruct r; [cbn in Hrest; contradiction | discriminate Hrest].
Qed.

Lemma spaces_are_space (n : nat) : all_chars JsString.is_space (spaces n) = true.
Proof. induction n as [| n IH]; [reflexivity | exact IH]. Qed.

Lemma split_no_separator (s : string) :
  no_white_space s = true -> JsString.split " " s = [s].
Proof.
  unfold no_white_space. induction s as [| c r IH]; [reflexivity |].
  cbn [all_chars JsString.split]. intros H.
  apply andb_true_iff in H. destruct H as [Hc Hr].
  rewrite (IH Hr).
  destruct (Ascii.eqb_spec c " ") as [-> | _]; [discriminate Hc | reflexivity].
Qed.

Lemma split_at_space (s rest : string) :
  no_white_space s = true ->
  JsString.split " " (s ++ String " " rest) = s :: JsString.split " " rest.
Proof.
  unfold no_white_space. induction s as [| c r IH]; intros H.
  - reflexivity.
  - cbn [all_chars] in H. apply andb_true_iff in H. destruct H as [Hc Hr].
    cbn [append JsString.split]. rewrite (IH Hr).
    destruct (Ascii.eqb_spec c " ") as [-> | _]; [discriminate Hc | reflexivity].
Qed.

Lemma join_split_spaces (gap : nat) (path : string) :
  no_white_space path = true ->
  JsString.join " " (JsString.split " " (spaces gap ++ path))
  = spaces gap ++ path.
Proof.
  intros Hpath. induction gap as [| gap IH].
  - cbn [spaces append]. rewrite (split_no_separator _ Hpath). reflexivity.
  - cbn [spaces append JsString.split]. cbn [Ascii.eqb Bool.eqb].
    change (Ascii.eqb " " " ") with true. cbn iota.
    destruct (JsString.split " " (spaces gap ++ path)) as [| h t] eqn:Hsplit.
    + exfalso. exact (split_not_nil " " _ Hsplit).
    + change (JsString.join " " ("" :: h :: t))
        with ("" ++ " " ++ JsString.join " " (h :: t)).
      rewrite IH. reflexivity.
Qed.

(** X19.  A route key is read as [METHOD path] whatever the spacing: for
    a method and a path without white space, written with one or more
    spaces between them and any white space around, the parsed method is
    the method and the parsed path is the path. *)
Theorem route_key_round_trip (method path left_pad right_pad : string)
    (gap : nat) :
  method <> "" -> path <> "" ->
  no_white_space method = true ->
  no_white_space path = true ->
  all_chars JsString.is_space left_pad = true ->
  all_chars JsString.is_space right_pad = true ->
  let key := left_pad ++ (method ++ spaces (S gap) ++ path) ++ right_pad in
  key_method key = method /\ key_path key = path.
Proof.
  intros Hmethod Hpath Hclean_method Hclean_path Hleft Hright. cbv zeta.
  assert (Htrimmed :
    JsString.trim (left_pad ++ (method ++ spaces (S gap) ++ path) ++ right_pad)
    = method ++ spaces (S gap) ++ path).
  { rewrite (trim_spaces _ _ _ Hleft Hright). unfold JsString.trim.
    assert (Hstart : JsString.trimStart (method ++ spaces (S gap) ++ path)
                     = method ++ spaces (S gap) ++ path).
    { destruct method as [| c r]; [contradiction |].
      unfold no_white_space in Hclean_method. cbn [all_chars] in Hclean_method.
      apply andb_true_iff in Hclean_method. destruct Hclean_method as [Hc _].
      apply negb_true_iff in Hc. cbn [append JsString.trimStart].
      rewrite Hc. reflexivity. }
    rewrite Hstart.
    rewrite <- string_app_assoc.
    apply trimEnd_before_clean; [exact Hpath | apply trimEnd_clean; exact Hclean_path]. }
  unfold key_method, key_path. rewrite Htrimmed.
  cbn [spaces append]. rewrite (split_at_space _ _ Hclean_method).
  cbn [tl]. split; [reflexivity |].
  rewrite (join_split_spaces gap path Hclean_path).
  replace (spaces gap ++ path) with (spaces gap ++ path ++ "")
    by (now rewrite string_app_nil_r).
  rewrite (trim_spaces (spaces gap) path "" (spaces_are_space gap) eq_refl).
  unfold JsString.trim.
  rewrite (trimStart_clean _ Hclean_path). apply trimEnd_clean. exact Hclean_path.
Qed.

Lemma route_key_round_trip_witness :
  key_method " GET   /score/:agentId " = "GET"
  /\ key_path " GET   /score/:agentId " = "/score/:agentId".
Proof.
  apply (route_key_round_trip "GET" "/score/:agentId" " " " " 2);
    try discriminate; reflexivity.
Defined.


(** ** The open stub gateway *)

Section OpenStub.

Variable formatUsdPrice : string -> string.
Variable Number_ : option string -> JsNumber.number.
Variable loadScoringConfigFromEnv : Env -> ScoringConfig.
Variable validateAgentIdParam : Request -> (Z * string) + Z.

(** X20.  An app on the stub gateway that is no fallback and has
    [X402_STUB_ENFORCE] off challenges no request: neither the middleware
    nor a handler answers 402.  With a ledger record, a request that
    passes the validator is served in full without any payment proof,
    unless it asks for the demo (and demos are allowed), in which case it
    gets the demo payload only. *)
Theorem open_stub_never_challenges (pkgs : Packages) (env : Env) (app : App) :
  createApp formatUsdPrice Number_ loadScoringConfigFromEnv pkgs env = Ok app ->
  usingRealMiddleware (app_payment app) = false ->
  fallbackFromReal (app_payment app) = false ->
  enforcement_override env = false ->
  forall world endpoint req,
    is_payment_challenge
      (fst (serve validateAgentIdParam app world endpoint req)) = false
    /\ (forall agentId record,
          validateAgentIdParam req = inr agentId ->
          app_readerEnabled app = true ->
          getDetailedReport world agentId = ReadOk record ->
          carries_proof req = false ->
          let response :=
            fst (serve validateAgentIdParam app world endpoint req) in
          if demo_allowed env && isDemoRequest req
          then is_demo_payload response = true
          else is_full_payload response = true).
Proof.
  intros Happ Hstub Hfallback Hoff world endpoint req.
  pose proof (createApp_stub_middleware formatUsdPrice Number_
                loadScoringConfigFromEnv pkgs env app Happ Hstub) as Hmw.
  destruct (createApp_parts formatUsdPrice Number_ loadScoringConfigFromEnv
              pkgs env app Happ) as (Henv & Hpricing & _).
  unfold enforcement_override in Hoff.
  assert (Hnext : exists status',
    run_middleware (app_payment app) req None = Next status').
  { unfold run_middleware. rewrite Hmw. unfold enforcement_override.
    rewrite Hoff. unfold stubPaymentMiddleware.
    destruct (matchPaidRoute req _); rewrite ?andb_false_r; eauto. }
  destruct Hnext as [status' Hnext].
  unfold serve. rewrite Hnext.
  destruct (validateAgentIdParam req) as [[code body] | agentId] eqn:Hvalid.
  - split; [reflexivity |]. intros agentId record Hinr. discriminate Hinr.
  - assert (Hagain : forall st,
      paymentRequired
        (fst (resolvePaidRouteAccess req st (app_env app) (app_payment app)))
      = false).
    { intros st. unfold resolvePaidRouteAccess.
      rewrite Hstub, Hfallback, Henv, Hoff.
      destruct (hasPaymentProof (extractPaymentHeaders req)); [reflexivity |].
      destruct (toBoolean (flag_of_env (env "X402_ALLOW_DEMO_QUERY")) true
                && isDemoRequest req); reflexivity. }
    split.
    + pose proof (Hagain status') as Hfirst.
      destruct endpoint; unfold scoreHandler, reportHandler;
        destruct (resolvePaidRouteAccess req status' (app_env app)
                    (app_payment app)) as [access status1];
        cbn [fst] in Hfirst; rewrite Hfirst;
        destruct (app_readerEnabled app); cbn [negb fst]; try reflexivity;
        destruct (getDetailedReport world agentId); cbn [fst];
        try reflexivity;
        try (destruct (allowDemoResponse access); reflexivity);
        destruct (resolvePaidRouteAccess req status1 (app_env app)
                    (app_payment app)) as [access2 status2];
        destruct (allowDemoResponse access2); reflexivity.
    + intros agentId' record [= <-] Hreader Hledger Hproof. cbv zeta.
      unfold carries_proof in Hproof.
      destruct endpoint;
        unfold scoreHandler, reportHandler, resolvePaidRouteAccess, demo_allowed;
        rewrite Hstub, Hfallback, Henv, Hoff, Hproof;
        destruct (toBoolean (flag_of_env (env "X402_ALLOW_DEMO_QUERY")) true
                  && isDemoRequest req);
        cbn [orb paymentRequired allowDemoResponse fst];
        rewrite Hreader, Hledger; reflexivity.
Qed.

End OpenStub.

Lemma open_stub_never_challenges_witness :
  exists app,
    createApp (fun p => p) (fun _ => JsNumber.NaN) (fun _ => default_scoring)
      no_packages
      (fun name => if String.eqb name "X402_MODE" then Some "stub" else None)
    = Ok app
    /\ is_payment_challenge
         (fst (serve (fun _ => inr 1%Z) app sample_world ScoreEndpoint
                 demo_request)) = false.
Proof.
  eexists. split; [reflexivity |].
  destruct (open_stub_never_challenges (fun p => p) (fun _ => JsNumber.NaN)
              (fun _ => default_scoring) (fun _ => inr 1%Z) no_packages
              (fun name => if String.eqb name "X402_MODE" then Some "stub" else None)
              _ eq_refl eq_refl eq_refl eq_refl sample_world ScoreEndpoint
              demo_request) as [H _].
  exact H.
Defined.

(** ** The score in the payloads *)

Lemma served_score_source (app : App) (world : World)
    (endpoint : Endpoint) (req : Request) (agentId : Z)
    (status : option string) (record : FeedbackRecord)
    (served : JsNumber.number) :
  getDetailedReport world agentId = ReadOk record ->
  served_score
    (fst (match endpoint with
          | ScoreEndpoint => scoreHandler app world req agentId status
          | ReportEndpoint => reportHandler app world req agentId status
          end)) = Some served ->
  served = JsNumber.of_Z (score record).
Proof.
  intros Hledger.
  assert (Hchallenge : forall pricing key access,
    served_score (challenge pricing key access) = None).
  { intros pricing key access. unfold challenge.
    destruct (route_lookup pricing key); reflexivity. }
  destruct endpoint; unfold scoreHandler, reportHandler;
    destruct (resolvePaidRouteAccess req status (app_env app) (app_payment app))
      as [access status1];
    (destruct (paymentRequired access);
     [cbn [fst]; rewrite Hchallenge; intros H; discriminate H |]);
    (destruct (app_readerEnabled app); cbn [negb];
     [| intros H; discriminate H]);
    rewrite Hledger;
    destruct (allowDemoResponse access);
    intros H; injection H as <-; reflexivity.
Qed.

(** X21.  The score of a demo or full payload is [Number(score)] of the
    ledger record: it is the ledger's integer exactly as long as the
    score is at most [Number.MAX_SAFE_INTEGER], and for any larger
    unsigned 256-bit score a Number within a relative [2^-52] of it. *)
Theorem served_score_exact (app : App) (world : World)
    (endpoint : Endpoint) (req : Request) (agentId : Z)
    (status : option string) (record : FeedbackRecord)
    (served : JsNumber.number) :
  getDetailedReport world agentId = ReadOk record ->
  uint256 (score record) ->
  served_score
    (fst (match endpoint with
          | ScoreEndpoint => scoreHandler app world req agentId status
          | ReportEndpoint => reportHandler app world req agentId status
          end)) = Some served ->
  ((score record <= MAX_SAFE_INTEGER)%Z ->
   JsNumber.to_Z served = Some (score record))
  /\ ((MAX_SAFE_INTEGER < score record)%Z ->
      exists q,
        JsNumber.value served = Some (JsNumber.Fin q)
        /\ (inject_Z (2 ^ 52 - 1) * inject_Z (score record)
            <= inject_Z (2 ^ 52) * q)%Q
        /\ (inject_Z (2 ^ 52) * q
            <= inject_Z (2 ^ 52 + 1) * inject_Z (score record))%Q).
Proof.
  intros Hledger [Hlow Hhigh] Hserved.
  rewrite (served_score_source _ _ _ _ _ _ _ _ Hledger Hserved).
  unfold MAX_SAFE_INTEGER. split.
  - intros Hsafe. apply of_Z_exact.
    change (2 ^ 53)%Z with 9007199254740992%Z. lia.
  - intros Hlarge.
    destruct (of_Z_normal (score record)) as (v & Hnormal & Hv_low & Hv_up);
      [lia |].
    destruct (normal_number_value _ _ _ _ Hnormal) as (q & Hq & Hqv).
    exists q. split; [exact Hq |]. rewrite Hqv. split; assumption.
Qed.

Lemma served_score_exact_witness :
  JsNumber.to_Z (JsNumber.of_Z 950) = Some 950%Z.
Proof.
  destruct (served_score_exact (full_access_app default_scoring)
              (ledger_world trusted_record) ScoreEndpoint authorized_request
              1%Z None trusted_record (JsNumber.of_Z 950)) as [Hexact _].
  - reflexivity.
  - unfold uint256. cbn. split; [lia | reflexivity].
  - vm_compute. reflexivity.
  - apply Hexact. cbn. unfold MAX_SAFE_INTEGER. lia.
Defined.
